(** * The c3 type checker (ppci/lang/c3/typechecker.py)

    A shallow embedding of [TypeChecker] and the properties of its
    error handling, coercion and lvalue/rvalue bookkeeping.

    The Python checker mutates the syntax tree in place and signals errors
    with exceptions.  Here every checking function takes the node it works
    on and the checker state and returns the node as the call leaves it
    (also when the call raises: the assignments made before the raise stay),
    the new checker state and the outcome of the call. *)

From Stdlib Require Import String List ZArith Bool Arith Lia.
Import ListNotations.
Open Scope string_scope.
Set Warnings "-register-all".

(** ** Syntax tree *)

(** The classes of the tree are declared next to the checker, in the
    module it imports as [ast].  They are given here with the attributes the
    checker reads and assigns, one constructor for each class it tests with
    [isinstance]. *)

Definition location := nat.

(** Modelled from the spec: the type classes of [ast].  [NamedType] is a
    type reference: the strings ['int'], ['bool'], ... the checker hands to
    the context, and the names of defined types. *)
Inductive ctype : Type :=
| NamedType (name : string)
| BaseType (name : string)
| PointerType (ptype : ctype)
| StructureType (fields : list (string * ctype))
| ArrayType (element_type : ctype) (size : nat).

(** Modelled from the spec: the Python values a literal node of [ast] can
    hold, by their Python type. *)
Inductive value : Type :=
| VInt (z : Z)
| VFloat (repr : string)
| VBool (b : bool)
| VStr (s : string)
| VOther (repr : string).

(** Modelled from the spec: the attributes every expression node of [ast]
    carries: its location and the two attributes the checker assigns, absent
    until then. *)
Record ann : Type := mk_ann {
  a_loc : location;
  a_typ : option ctype;
  a_lvalue : option bool }.

Definition new_ann (l : location) : ann := mk_ann l None None.
Definition set_typ (n : ann) (t : ctype) : ann :=
  mk_ann (a_loc n) (Some t) (a_lvalue n).
Definition set_lvalue (n : ann) (v : bool) : ann :=
  mk_ann (a_loc n) (a_typ n) (Some v).

(** Modelled from the spec: the expression classes of [ast], with the
    children the checker visits. *)
Inductive expr : Type :=
| Binop (n : ann) (a : expr) (op : string) (b : expr)
| Unop (n : ann) (op : string) (a : expr)
| Identifier (n : ann) (target : string)
| Deref (n : ann) (ptr : expr)
| Member (n : ann) (base : expr) (field : string)
| Index (n : ann) (base : expr) (i : expr)
| Literal (n : ann) (val : value)
| TypeCast (n : ann) (to_type : ctype) (a : expr)
| Sizeof (n : ann) (query_typ : ctype)
| FunctionCall (n : ann) (proc : expr) (args : list expr).

Definition ann_of (e : expr) : ann :=
  match e with
  | Binop n _ _ _ | Unop n _ _ | Identifier n _ | Deref n _ | Member n _ _
  | Index n _ _ | Literal n _ | TypeCast n _ _ | Sizeof n _
  | FunctionCall n _ _ => n
  end.

Definition with_ann (f : ann -> ann) (e : expr) : expr :=
  match e with
  | Binop n a op b => Binop (f n) a op b
  | Unop n op a => Unop (f n) op a
  | Identifier n t => Identifier (f n) t
  | Deref n p => Deref (f n) p
  | Member n b fl => Member (f n) b fl
  | Index n b i => Index (f n) b i
  | Literal n v => Literal (f n) v
  | TypeCast n t a => TypeCast (f n) t a
  | Sizeof n t => Sizeof (f n) t
  | FunctionCall n p args => FunctionCall (f n) p args
  end.

Definition loc (e : expr) : location := a_loc (ann_of e).
Definition typ (e : expr) : option ctype := a_typ (ann_of e).
Definition lvalue (e : expr) : option bool := a_lvalue (ann_of e).
Definition assign_typ (e : expr) (t : ctype) : expr :=
  with_ann (fun n => set_typ n t) e.
Definition assign_lvalue (e : expr) (v : bool) : expr :=
  with_ann (fun n => set_lvalue n v) e.

(** The class of a node, what [isinstance] looks at. *)
Inductive kind : Type :=
| KBinop | KUnop | KIdentifier | KDeref | KMember | KIndex | KLiteral
| KTypeCast | KSizeof | KFunctionCall.

Definition kind_of (e : expr) : kind :=
  match e with
  | Binop _ _ _ _ => KBinop
  | Unop _ _ _ => KUnop
  | Identifier _ _ => KIdentifier
  | Deref _ _ => KDeref
  | Member _ _ _ => KMember
  | Index _ _ _ => KIndex
  | Literal _ _ => KLiteral
  | TypeCast _ _ _ => KTypeCast
  | Sizeof _ _ => KSizeof
  | FunctionCall _ _ _ => KFunctionCall
  end.

(** Modelled from the spec: the statement classes of [ast]. *)
Inductive stmt : Type :=
| Compound (l : location) (statements : list stmt)
| Empty (l : location)
| Assignment (l : location) (lval rval : expr)
| ExpressionStatement (l : location) (ex : expr)
| If (l : location) (condition : expr) (truestatement falsestatement : stmt)
| Return (l : location) (e : option expr)
| While (l : location) (condition : expr) (statement : stmt)
| For (l : location) (init : stmt) (condition : expr) (statement final : stmt)
| Switch (l : location) (expression : expr)
         (options : list (option expr * stmt)).

(** Modelled from the spec: variables, functions and modules of [ast],
    with what the checker reads of them. *)
Record Variable_ : Type := mk_var {
  v_name : string;
  v_typ : ctype;
  isLocal : bool }.

Record Function_ : Type := mk_function {
  f_name : string;
  f_loc : location;
  parameters : list Variable_;
  returntype : ctype;
  inner_scope : list Variable_;
  body : option stmt }.

Record Module_ : Type := mk_module {
  m_name : string;
  types : list ctype;
  variables : list Variable_;
  functions : list Function_ }.

(** Modelled from the spec: the symbols of [ast] that [resolve_symbol]
    can hand back. *)
Inductive symbol : Type :=
| SymVariable (t : ctype)
| SymConstant (t : ctype)
| SymFunction (package name : string) (parametertypes : list ctype)
              (ret : ctype)
| SymModule (name : string)
| SymOther (repr : string).

(** ** Errors *)

(** The messages of the checker: the format string of each [SemanticError],
    with the values formatted into it.  [FromContext] is for the errors the
    context raises. *)
Inductive message : Type :=
| ErrorsOccurred
| ParametersOnlySimple
| ReturnOnlySimple
| NotACallExpression
| OnlyVoidCalls
| SwitchConditionInteger
| NoDefaultCase
| CannotAssignComplex (t : ctype)
| NoValidLvalueOf (e : expr)
| NonBool (op : string)
| ConditionMustBeBoolean
| CannotDeref (t : ctype)
| NoValidLvalue
| CannotUseOperator (op : string)
| CannotUseInExpression (s : symbol)
| NoSuchField (t : ctype) (field : string)
| CannotSelect (field : string) (t : ctype)
| CannotIndex (t : ctype)
| UnknownLiteralType (v : value)
| CannotCall (s : symbol)
| WrongArgumentCount (fname : string) (required given : nat)
| ReturnValueOnlySimple
| CannotUseAs (have want : ctype)
| FromContext (text : string).

(** Modelled from the spec: [SemanticError], declared with the scopes,
    carries a message and a location.  The other exceptions are Python's; a
    read of [typ] or [lvalue] on a node that has none yet is an
    [AttributeError]. *)
Inductive exn : Type :=
| SemanticError (msg : message) (l : option location)
| AssertionError
| NotImplementedError
| AttributeError.

Inductive outcome (A : Type) : Type :=
| Done (v : A)
| Raise (x : exn)
| OutOfFuel.
Arguments Done {A} v.
Arguments Raise {A} x.
Arguments OutOfFuel {A}.

(** ** The collaborators *)

(** Modelled from the spec: the context ([self.context]) is not part of
    the checker.  Its operations are parameters, with the interface the
    specification gives them: [resolve_symbol] and [check_type] may raise a
    [SemanticError], the others return. *)
Record Context : Type := mk_context {
  resolve_symbol : expr -> symbol + message * option location;
  get_type : ctype -> ctype;
  context_check_type : ctype -> option (message * option location);
  equal_types : ctype -> ctype -> bool;
  get_common_type : expr -> expr -> ctype;
  is_simple_type : ctype -> bool }.

(** The state of the checker: [self.module_ok] and what [self.diag] has been
    told. *)
Record cstate : Type := mk_cstate {
  module_ok : bool;
  diag : list (message * option location) }.

(** [TypeChecker.error] *)
Definition error (msg : message) (l : option location) (st : cstate)
  : cstate :=
  mk_cstate false (diag st ++ [(msg, l)])%list.

(** A call on a node of type [N] returning an [A]. *)
Definition R (N A : Type) : Type := (N * cstate * outcome A)%type.

Definition node {N A} (r : R N A) : N := fst (fst r).
Definition state {N A} (r : R N A) : cstate := snd (fst r).
Definition result {N A} (r : R N A) : outcome A := snd r.

(** Run a call on a child; when it returns go on with [k], when it raises
    put the child back as the call left it and let the exception through. *)
Definition step {C N A B} (r : R C A) (put : C -> N)
  (k : C -> A -> cstate -> R N B) : R N B :=
  match r with
  | (c, s, Done v) => k c v s
  | (c, s, Raise x) => (put c, s, Raise x)
  | (c, s, OutOfFuel) => (put c, s, OutOfFuel)
  end.

(** Read an attribute that may not have been assigned yet. *)
Definition attr {N A B} (o : option A) (cur : N) (s : cstate)
  (k : A -> R N B) : R N B :=
  match o with
  | Some v => k v
  | None => (cur, s, Raise AttributeError)
  end.

Definition in_list (s : string) (l : list string) : bool :=
  existsb (String.eqb s) l.

(** Modelled from the spec: the operator tables [ast.Binop.cond_ops] and
    [ast.Unop.cond_ops], declared with the node classes. *)
Definition Binop_cond_ops : list string :=
  ["and"; "or"; "=="; "!="; "<"; ">"; "<="; ">="].
Definition Unop_cond_ops : list string := ["not"].

Definition is_pointer (t : ctype) : bool :=
  match t with PointerType _ => true | _ => false end.
Definition is_base (t : ctype) : bool :=
  match t with BaseType _ => true | _ => false end.

(** Modelled from the spec: [StructureType.has_field] and [field_type],
    declared with the type classes, look the field up by name. *)
Fixpoint field_type (fields : list (string * ctype)) (f : string)
  : option ctype :=
  match fields with
  | [] => None
  | (name, t) :: rest => if String.eqb name f then Some t
                         else field_type rest f
  end.

Definition cast_child (c : expr) (default : expr) : expr :=
  match c with TypeCast _ _ a => a | _ => default end.

(** [typemap] of [check_literal_expr] *)
Definition typemap (v : value) : option string :=
  match v with
  | VInt _ => Some "int"
  | VFloat _ => Some "double"
  | VBool _ => Some "bool"
  | VStr _ => Some "string"
  | VOther _ => None
  end.

(** ** Expressions *)

Section Expressions.

Variable ctx : Context.

(** The recursive calls [self.check_expr] and [self.check_condition]. *)
Variable rec_expr : expr -> bool -> cstate -> R expr unit.
Variable rec_cond : expr -> cstate -> R expr unit.

(** [self.check_type]: the context's check, raising its error. *)
Definition check_type {N B} (t : ctype) (cur : N) (s : cstate)
  (k : R N B) : R N B :=
  match context_check_type ctx t with
  | None => k
  | Some (m, l) => (cur, s, Raise (SemanticError m l))
  end.

Definition is_bool (e : expr) : bool :=
  match e with
  | Binop _ _ op _ => in_list op Binop_cond_ops
  | Unop _ op _ => in_list op Unop_cond_ops
  | _ => false
  end.

(** [do_coerce] returns the node to put in the parent's slot: [expr] itself
    or a new [TypeCast] around it.  The node component of the result is
    [expr] as the call leaves it. *)
Definition do_coerce (e : expr) (t : ctype) (st : cstate) : R expr expr :=
  attr (typ e) e st (fun have =>
    let no_cast :=
      step (rec_expr e false st) (fun e1 => e1)
           (fun e1 _ s1 => (e1, s1, Done e1)) in
    let cast :=
      match rec_expr (TypeCast (new_ann (loc e)) t e) false st with
      | (c, s1, Done _) => (cast_child c e, s1, Done c)
      | (c, s1, Raise x) => (cast_child c e, s1, Raise x)
      | (c, s1, OutOfFuel) => (cast_child c e, s1, OutOfFuel)
      end in
    if equal_types ctx have t then no_cast
    else if is_pointer have && is_pointer t then cast
    else if equal_types ctx (NamedType "int") have && is_pointer t then cast
    else if equal_types ctx (NamedType "int") have
            && equal_types ctx (NamedType "byte") t then cast
    else if equal_types ctx (NamedType "int") have
            && equal_types ctx (NamedType "double") t then cast
    else if equal_types ctx (NamedType "double") have
            && equal_types ctx (NamedType "float") t then cast
    else if equal_types ctx (NamedType "float") have
            && equal_types ctx (NamedType "double") t then cast
    else if equal_types ctx (NamedType "byte") have
            && equal_types ctx (NamedType "int") t then cast
    else (e, st, Raise (SemanticError (CannotUseAs have t) (Some (loc e))))).

Definition check_sizeof (n : ann) (query_typ : ctype) (st : cstate)
  : R expr unit :=
  let n1 := set_lvalue n false in
  let n2 := set_typ n1 (get_type ctx (NamedType "int")) in
  check_type query_typ (Sizeof n2 query_typ) st
    (Sizeof n2 query_typ, st, Done tt).

Definition check_dereference (n : ann) (ptr : expr) (st : cstate)
  : R expr unit :=
  step (rec_expr ptr true st) (fun p => Deref n p) (fun p _ s1 =>
    let n1 := set_lvalue n true in
    attr (typ p) (Deref n1 p) s1 (fun t =>
      let ptr_typ := get_type ctx t in
      match ptr_typ with
      | PointerType ptype => (Deref (set_typ n1 ptype) p, s1, Done tt)
      | _ => (Deref n1 p, s1,
              Raise (SemanticError (CannotDeref ptr_typ) (Some (a_loc n))))
      end)).

Definition check_unop (n : ann) (op : string) (a : expr) (st : cstate)
  : R expr unit :=
  if String.eqb op "&" then
    step (rec_expr a false st) (fun a1 => Unop n op a1) (fun a1 _ s1 =>
      attr (lvalue a1) (Unop n op a1) s1 (fun lv =>
        if negb lv then
          (Unop n op a1, s1,
           Raise (SemanticError NoValidLvalue (Some (loc a1))))
        else
          attr (typ a1) (Unop n op a1) s1 (fun t =>
            let n1 := set_typ n (PointerType t) in
            (Unop (set_lvalue n1 false) op a1, s1, Done tt))))
  else if in_list op ["+"; "-"] then
    step (rec_expr a true st) (fun a1 => Unop n op a1) (fun a1 _ s1 =>
      attr (typ a1) (Unop n op a1) s1 (fun t =>
        let n1 := set_typ n t in
        (Unop (set_lvalue n1 false) op a1, s1, Done tt)))
  else (Unop n op a, st, Raise NotImplementedError).

(** The error for an operator that is not arithmetic is raised without a
    location. *)
Definition check_binop (n : ann) (a : expr) (op : string) (b : expr)
  (st : cstate) : R expr unit :=
  if in_list op Binop_cond_ops then (Binop n a op b, st, Raise AssertionError)
  else
    let n1 := set_lvalue n false in
    step (rec_expr a true st) (fun a1 => Binop n1 a1 op b) (fun a1 _ s1 =>
    step (rec_expr b true s1) (fun b1 => Binop n1 a1 op b1) (fun b1 _ s2 =>
      let common_type := get_common_type ctx a1 b1 in
      let n2 := set_typ n1 common_type in
      if negb (in_list op ["+"; "-"; "*"; "/"; "%"; "<<"; ">>"; "|"; "&"; "^"])
      then (Binop n2 a1 op b1, s2,
            Raise (SemanticError (CannotUseOperator op) None))
      else
        step (do_coerce a1 common_type s2) (fun a2 => Binop n2 a2 op b1)
          (fun _ ca s3 =>
        step (do_coerce b1 common_type s3) (fun b2 => Binop n2 ca op b2)
          (fun _ cb s4 => (Binop n2 ca op cb, s4, Done tt))))).

Definition check_identifier (n : ann) (target : string) (st : cstate)
  : R expr unit :=
  match resolve_symbol ctx (Identifier n target) with
  | inr (m, l) => (Identifier n target, st, Raise (SemanticError m l))
  | inl (SymVariable t) =>
      (Identifier (set_typ (set_lvalue n true) t) target, st, Done tt)
  | inl (SymConstant t) =>
      (Identifier (set_typ (set_lvalue n false) t) target, st, Done tt)
  | inl s =>
      (Identifier n target, st,
       Raise (SemanticError (CannotUseInExpression s) (Some (a_loc n))))
  end.

Fixpoint is_module_ref (e : expr) : bool + message * option location :=
  match e with
  | Member _ base _ =>
      match base with
      | Identifier _ _ =>
          match resolve_symbol ctx base with
          | inl (SymModule _) => inl true
          | inl _ => inl false
          | inr err => inr err
          end
      | _ => is_module_ref base
      end
  | _ => inl false
  end.

Definition check_member_expr (n : ann) (base : expr) (field : string)
  (st : cstate) : R expr unit :=
  match is_module_ref (Member n base field) with
  | inr (m, l) => (Member n base field, st, Raise (SemanticError m l))
  | inl true =>
      match resolve_symbol ctx (Member n base field) with
      | inr (m, l) => (Member n base field, st, Raise (SemanticError m l))
      | inl (SymVariable t) =>
          (Member (set_typ (set_lvalue n true) t) base field, st, Done tt)
      | inl _ => (Member n base field, st, Raise NotImplementedError)
      end
  | inl false =>
      step (rec_expr base false st) (fun b1 => Member n b1 field)
        (fun b1 _ s1 =>
        attr (lvalue b1) (Member n b1 field) s1 (fun lv =>
          let n1 := set_lvalue n lv in
          attr (typ b1) (Member n1 b1 field) s1 (fun t =>
            let basetype := get_type ctx t in
            match basetype with
            | StructureType fields =>
                check_type basetype (Member n1 b1 field) s1
                  match field_type fields field with
                  | Some ft =>
                      let n2 := set_typ n1 ft in
                      if lv then (Member n2 b1 field, s1, Done tt)
                      else (Member n2 b1 field, s1, Raise AssertionError)
                  | None =>
                      (Member n1 b1 field, s1,
                       Raise (SemanticError (NoSuchField basetype field)
                                            (Some (a_loc n))))
                  end
            | _ =>
                (Member n1 b1 field, s1,
                 Raise (SemanticError (CannotSelect field basetype)
                                      (Some (a_loc n))))
            end)))
  end.

Definition check_index_expr (n : ann) (base : expr) (i : expr)
  (st : cstate) : R expr unit :=
  step (rec_expr base false st) (fun b1 => Index n b1 i) (fun b1 _ s1 =>
  step (rec_expr i true s1) (fun i1 => Index n b1 i1) (fun i1 _ s2 =>
    attr (typ b1) (Index n b1 i1) s2 (fun t =>
      let base_typ := get_type ctx t in
      match base_typ with
      | ArrayType element_type _ =>
          step (do_coerce i1 (NamedType "int") s2) (fun i2 => Index n b1 i2)
            (fun _ ci s3 =>
              attr (lvalue b1) (Index n b1 ci) s3 (fun lv =>
                if lv then
                  let n1 := set_typ n element_type in
                  (Index (set_lvalue n1 true) b1 ci, s3, Done tt)
                else (Index n b1 ci, s3, Raise AssertionError)))
      | _ =>
          (Index n b1 i1, s2,
           Raise (SemanticError (CannotIndex base_typ) (Some (loc b1))))
      end))).

Definition check_literal_expr (n : ann) (val : value) (st : cstate)
  : R expr unit :=
  let n1 := set_lvalue n false in
  match typemap val with
  | Some name =>
      (Literal (set_typ n1 (get_type ctx (NamedType name))) val, st, Done tt)
  | None =>
      (Literal n1 val, st,
       Raise (SemanticError (UnknownLiteralType val) (Some (a_loc n))))
  end.

Definition check_type_cast (n : ann) (to_type : ctype) (a : expr)
  (st : cstate) : R expr unit :=
  step (rec_expr a true st) (fun a1 => TypeCast n to_type a1) (fun a1 _ s1 =>
    let n1 := set_lvalue n false in
    (TypeCast (set_typ n1 to_type) to_type a1, s1, Done tt)).

(** The loop of [check_function_call] over [zip(expr.args, ptypes)].  The
    node component is [expr.args] as the loop leaves it, the value is
    [new_args]. *)
Fixpoint check_arguments (args : list expr) (ptypes : list ctype)
  (st : cstate) : R (list expr) (list expr) :=
  match args, ptypes with
  | arg_expr :: rest, arg_typ :: ptypes' =>
      step (rec_expr arg_expr true st) (fun a1 => a1 :: rest) (fun a1 _ s1 =>
      step (do_coerce a1 arg_typ s1) (fun a2 => a2 :: rest) (fun a2 c s2 =>
      step (check_arguments rest ptypes' s2) (fun r => a2 :: r)
        (fun r cs s3 => (a2 :: r, s3, Done (c :: cs)))))
  | _, _ => (args, st, Done [])
  end.

Definition check_function_call (n : ann) (proc : expr) (args : list expr)
  (st : cstate) : R expr unit :=
  match resolve_symbol ctx proc with
  | inr (m, l) => (FunctionCall n proc args, st, Raise (SemanticError m l))
  | inl (SymFunction package name ptypes ret) =>
      let fname := package ++ "_" ++ name in
      if negb (Nat.eqb (List.length args) (List.length ptypes)) then
        (FunctionCall n proc args, st,
         Raise (SemanticError
                  (WrongArgumentCount fname (List.length ptypes) (List.length args))
                  (Some (a_loc n))))
      else
        step (check_arguments args ptypes st)
          (fun args1 => FunctionCall n proc args1)
          (fun _ new_args s1 =>
            let n1 := set_typ n ret in
            let n2 := set_lvalue n1 false in
            if negb (is_simple_type ctx ret) then
              (FunctionCall n2 proc new_args, s1,
               Raise (SemanticError ReturnValueOnlySimple (Some (a_loc n))))
            else (FunctionCall n2 proc new_args, s1, Done tt))
  | inl s =>
      (FunctionCall n proc args, st,
       Raise (SemanticError (CannotCall s) (Some (a_loc n))))
  end.

(** The branches of [check_condition], before the final test. *)
Definition check_condition_kind (e : expr) (st : cstate) : R expr unit :=
  match e with
  | Binop n a op b =>
      let set_bool (r : R expr unit) : R expr unit :=
        step r (fun e1 => e1) (fun e1 _ s1 =>
          (assign_typ e1 (get_type ctx (NamedType "bool")), s1, Done tt)) in
      if in_list op ["and"; "or"] then
        set_bool
          (step (rec_cond a st) (fun a1 => Binop n a1 op b) (fun a1 _ s1 =>
           step (rec_cond b s1) (fun b1 => Binop n a1 op b1) (fun b1 _ s2 =>
             (Binop n a1 op b1, s2, Done tt))))
      else if in_list op ["=="; ">"; "<"; "!="; "<="; ">="] then
        set_bool
          (step (rec_expr a true st) (fun a1 => Binop n a1 op b)
             (fun a1 _ s1 =>
           step (rec_expr b true s1) (fun b1 => Binop n a1 op b1)
             (fun b1 _ s2 =>
             attr (typ a1) (Binop n a1 op b1) s2 (fun ta =>
               step (do_coerce b1 ta s2) (fun b2 => Binop n a1 op b2)
                 (fun _ cb s3 => (Binop n a1 op cb, s3, Done tt))))))
      else (e, st, Raise (SemanticError (NonBool op) (Some (a_loc n))))
  | Literal _ _ => rec_expr e false st
  | Unop n op a =>
      if String.eqb op "not" then
        step (rec_cond a st) (fun a1 => Unop n op a1) (fun a1 _ s1 =>
          (Unop (set_typ n (get_type ctx (NamedType "bool"))) op a1, s1,
           Done tt))
      else rec_expr e true st
  | _ => rec_expr e true st
  end.

Definition check_condition_body (e : expr) (st : cstate) : R expr unit :=
  step (check_condition_kind e st) (fun e1 => e1) (fun e1 _ s1 =>
    attr (typ e1) e1 s1 (fun t =>
      if negb (equal_types ctx t (NamedType "bool")) then
        (e1, error ConditionMustBeBoolean (Some (loc e1)) s1, Done tt)
      else (e1, s1, Done tt))).

Definition check_bool_expr (e : expr) (st : cstate) : R expr unit :=
  step (rec_cond e st) (fun e1 => e1) (fun e1 _ s1 =>
    (assign_lvalue e1 false, s1, Done tt)).

(** The dispatch of [check_expr] over the class of the node. *)
Definition check_expr_kind (e : expr) (st : cstate) : R expr unit :=
  if is_bool e then check_bool_expr e st
  else
    match e with
    | Binop n a op b => check_binop n a op b st
    | Unop n op a => check_unop n op a st
    | Identifier n target => check_identifier n target st
    | Deref n ptr => check_dereference n ptr st
    | Member n base field => check_member_expr n base field st
    | Index n base i => check_index_expr n base i st
    | Literal n val => check_literal_expr n val st
    | TypeCast n to_type a => check_type_cast n to_type a st
    | Sizeof n query_typ => check_sizeof n query_typ st
    | FunctionCall n proc args => check_function_call n proc args st
    end.

(** The end of [check_expr]: an lvalue becomes an rvalue when one is
    required. *)
Definition make_rvalue (rvalue : bool) (e1 : expr) (s1 : cstate)
  : R expr unit :=
  if rvalue then
    attr (lvalue e1) e1 s1 (fun lv =>
      if lv then
        attr (typ e1) e1 s1 (fun t =>
          let val_typ := get_type ctx t in
          if negb (is_pointer val_typ || is_base val_typ) then
            (e1, s1,
             Raise (SemanticError (CannotDeref val_typ) (Some (loc e1))))
          else (assign_lvalue e1 false, s1, Done tt))
      else (e1, s1, Done tt))
  else (e1, s1, Done tt).

Definition check_expr_body (e : expr) (rvalue : bool) (st : cstate)
  : R expr unit :=
  step (check_expr_kind e st) (fun e1 => e1) (fun e1 _ s1 =>
    make_rvalue rvalue e1 s1).

End Expressions.

(** [check_expr] and [check_condition] call each other, and [do_coerce]
    checks again a node that was checked before, so neither follows the
    structure of the tree: both take the depth of calls they may use. *)
Fixpoint check_expr (ctx : Context) (fuel : nat) (e : expr) (rvalue : bool)
  (st : cstate) {struct fuel} : R expr unit :=
  match fuel with
  | O => (e, st, OutOfFuel)
  | S n =>
      check_expr_body ctx (check_expr ctx n) (check_condition ctx n)
        e rvalue st
  end
with check_condition (ctx : Context) (fuel : nat) (e : expr) (st : cstate)
  {struct fuel} : R expr unit :=
  match fuel with
  | O => (e, st, OutOfFuel)
  | S n =>
      check_condition_body ctx (check_expr ctx n) (check_condition ctx n)
        e st
  end.

(** ** Statements *)

(** [except SemanticError as ex: self.error(ex.msg, ex.loc)]: a semantic
    error is reported and the call returns; anything else goes through. *)
Definition catch {N} (r : R N unit) : R N unit :=
  match r with
  | (n, s, Raise (SemanticError m l)) => (n, error m l s, Done tt)
  | _ => r
  end.

Section Statements.

Variable ctx : Context.
Variable fuel : nat.

(** The recursive call [self.check_stmt]. *)
Variable rec_stmt : stmt -> cstate -> R stmt unit.

(** [for statement in code.statements: self.check_stmt(statement)] *)
Fixpoint check_statements (statements : list stmt) (st : cstate)
  : R (list stmt) unit :=
  match statements with
  | [] => ([], st, Done tt)
  | statement :: rest =>
      step (rec_stmt statement st) (fun s1 => s1 :: rest) (fun s1 _ st1 =>
      step (check_statements rest st1) (fun r => s1 :: r) (fun r _ st2 =>
        (s1 :: r, st2, Done tt)))
  end.

Definition check_if_stmt (l : location) (condition : expr)
  (truestatement falsestatement : stmt) (st : cstate) : R stmt unit :=
  step (check_condition ctx fuel condition st)
    (fun c => If l c truestatement falsestatement) (fun c _ s1 =>
  step (rec_stmt truestatement s1) (fun t => If l c t falsestatement)
    (fun t _ s2 =>
  step (rec_stmt falsestatement s2) (fun f => If l c t f) (fun f _ s3 =>
    (If l c t f, s3, Done tt)))).

Definition check_while (l : location) (condition : expr) (statement : stmt)
  (st : cstate) : R stmt unit :=
  step (check_condition ctx fuel condition st)
    (fun c => While l c statement) (fun c _ s1 =>
  step (rec_stmt statement s1) (fun b => While l c b) (fun b _ s2 =>
    (While l c b, s2, Done tt))).

Definition check_for_stmt (l : location) (init : stmt) (condition : expr)
  (statement final : stmt) (st : cstate) : R stmt unit :=
  step (rec_stmt init st) (fun i => For l i condition statement final)
    (fun i _ s1 =>
  step (check_condition ctx fuel condition s1)
    (fun c => For l i c statement final) (fun c _ s2 =>
  step (rec_stmt statement s2) (fun b => For l i c b final) (fun b _ s3 =>
  step (rec_stmt final s3) (fun f => For l i c b f) (fun f _ s4 =>
    (For l i c b f, s4, Done tt))))).

(** The loop of [check_switch_stmt] over [switch.options]; the value is
    [default_block]. *)
Fixpoint check_options (options : list (option expr * stmt))
  (default_block : bool) (st : cstate)
  : R (list (option expr * stmt)) bool :=
  match options with
  | [] => ([], st, Done default_block)
  | (option_val, option_code) :: rest =>
      step (rec_stmt option_code st) (fun c => (option_val, c) :: rest)
        (fun c _ s1 =>
        match option_val with
        | None =>
            step (check_options rest true s1) (fun r => (None, c) :: r)
              (fun r d s2 => ((None, c) :: r, s2, Done d))
        | Some v =>
            step (check_expr ctx fuel v false s1)
              (fun v1 => (Some v1, c) :: rest) (fun v1 _ s2 =>
            step (check_options rest default_block s2)
              (fun r => (Some v1, c) :: r)
              (fun r d s3 => ((Some v1, c) :: r, s3, Done d)))
        end)
  end.

Definition check_switch_stmt (l : location) (expression : expr)
  (options : list (option expr * stmt)) (st : cstate) : R stmt unit :=
  step (check_expr ctx fuel expression true st)
    (fun e => Switch l e options) (fun e _ s1 =>
    attr (typ e) (Switch l e options) s1 (fun t =>
      if negb (equal_types ctx (NamedType "int") t) then
        (Switch l e options, s1,
         Raise (SemanticError SwitchConditionInteger (Some (loc e))))
      else
        step (check_options options false s1) (fun o => Switch l e o)
          (fun o default_block s2 =>
            if negb default_block then
              (Switch l e o, s2, Raise (SemanticError NoDefaultCase (Some l)))
            else (Switch l e o, s2, Done tt)))).

Definition check_return_stmt (l : location) (e : option expr) (st : cstate)
  : R stmt unit :=
  match e with
  | Some ex =>
      step (check_expr ctx fuel ex true st) (fun e1 => Return l (Some e1))
        (fun e1 _ s1 => (Return l (Some e1), s1, Done tt))
  | None => (Return l None, st, Done tt)
  end.

Definition check_assignment_stmt (l : location) (lval rval : expr)
  (st : cstate) : R stmt unit :=
  step (check_expr ctx fuel lval false st)
    (fun lv => Assignment l lv rval) (fun lv _ s1 =>
    attr (typ lv) (Assignment l lv rval) s1 (fun t =>
      if negb (is_simple_type ctx t) then
        (Assignment l lv rval, s1,
         Raise (SemanticError (CannotAssignComplex t) (Some l)))
      else
        attr (lvalue lv) (Assignment l lv rval) s1 (fun is_lvalue =>
          if negb is_lvalue then
            (Assignment l lv rval, s1,
             Raise (SemanticError (NoValidLvalueOf lv) (Some (loc lv))))
          else
            step (check_expr ctx fuel rval true s1)
              (fun rv => Assignment l lv rv) (fun rv _ s2 =>
            step (do_coerce ctx (check_expr ctx fuel) rv t s2)
              (fun rv1 => Assignment l lv rv1)
              (fun _ c s3 => (Assignment l lv c, s3, Done tt)))))).

Definition check_expression_stmt (l : location) (ex : expr) (st : cstate)
  : R stmt unit :=
  match ex with
  | FunctionCall n proc args =>
      step (check_function_call ctx (check_expr ctx fuel) n proc args st)
        (fun e1 => ExpressionStatement l e1) (fun e1 _ s1 =>
        attr (typ e1) (ExpressionStatement l e1) s1 (fun t =>
          if negb (equal_types ctx (NamedType "void") t) then
            (ExpressionStatement l e1, s1,
             Raise (SemanticError OnlyVoidCalls (Some (loc e1))))
          else (ExpressionStatement l e1, s1, Done tt)))
  | _ =>
      (ExpressionStatement l ex, st,
       Raise (SemanticError NotACallExpression (Some (loc ex))))
  end.

(** The body of the [try] of [check_stmt]. *)
Definition check_stmt_kind (code : stmt) (st : cstate) : R stmt unit :=
  match code with
  | Compound l statements =>
      step (check_statements statements st) (fun ss => Compound l ss)
        (fun ss _ s1 => (Compound l ss, s1, Done tt))
  | Empty l => (Empty l, st, Done tt)
  | Assignment l lval rval => check_assignment_stmt l lval rval st
  | ExpressionStatement l ex => check_expression_stmt l ex st
  | If l c t f => check_if_stmt l c t f st
  | Return l e => check_return_stmt l e st
  | While l c b => check_while l c b st
  | For l i c b f => check_for_stmt l i c b f st
  | Switch l e o => check_switch_stmt l e o st
  end.

End Statements.

Fixpoint check_stmt (ctx : Context) (fuel : nat) (code : stmt) (st : cstate)
  {struct code} : R stmt unit :=
  catch (check_stmt_kind ctx fuel (check_stmt ctx fuel) code st).

(** ** Functions and modules *)

Section Units.

Variable ctx : Context.
Variable fuel : nat.

(** [for x in xs: self.check_type(x.typ)], nothing of the tree assigned. *)
Fixpoint check_types (ts : list ctype) : option (message * option location) :=
  match ts with
  | [] => None
  | t :: rest =>
      match context_check_type ctx t with
      | Some err => Some err
      | None => check_types rest
      end
  end.

(** The loop of [check_function] over the parameters. *)
Fixpoint check_parameters (l : location) (params : list Variable_)
  : option (message * option location) :=
  match params with
  | [] => None
  | param :: rest =>
      match context_check_type ctx (v_typ param) with
      | Some err => Some err
      | None =>
          if negb (is_simple_type ctx (v_typ param)) then
            Some (ParametersOnlySimple, Some l)
          else check_parameters l rest
      end
  end.

Definition check_function (function : Function_) (st : cstate)
  : R Function_ unit :=
  match check_parameters (f_loc function) (parameters function) with
  | Some (m, l) => (function, st, Raise (SemanticError m l))
  | None =>
      if negb (is_simple_type ctx (returntype function)) then
        (function, st,
         Raise (SemanticError ReturnOnlySimple (Some (f_loc function))))
      else
        match check_types (map v_typ (inner_scope function)) with
        | Some (m, l) => (function, st, Raise (SemanticError m l))
        | None =>
            match body function with
            | Some code =>
                step (check_stmt ctx fuel code st)
                  (fun c => mk_function (f_name function) (f_loc function)
                              (parameters function) (returntype function)
                              (inner_scope function) (Some c))
                  (fun c _ s1 =>
                    (mk_function (f_name function) (f_loc function)
                       (parameters function) (returntype function)
                       (inner_scope function) (Some c), s1, Done tt))
            | None => (function, st, Done tt)
            end
        end
  end.

(** The loop of [check_module] over the global variables. *)
Fixpoint check_variables (vars : list Variable_) : outcome unit :=
  match vars with
  | [] => Done tt
  | var :: rest =>
      if isLocal var then Raise AssertionError
      else
        match context_check_type ctx (v_typ var) with
        | Some (m, l) => Raise (SemanticError m l)
        | None => check_variables rest
        end
  end.

(** The first [try] of [check_module]: the defined types, then the global
    variables. *)
Definition check_declarations (module : Module_) (st : cstate)
  : R Module_ unit :=
  catch
    match check_types (types module) with
    | Some (m, l) => (module, st, Raise (SemanticError m l))
    | None => (module, st, check_variables (variables module))
    end.

(** [for func in module.functions], each in its own [try]. *)
Fixpoint check_functions (funcs : list Function_) (st : cstate)
  : R (list Function_) unit :=
  match funcs with
  | [] => ([], st, Done tt)
  | func :: rest =>
      step (catch (check_function func st)) (fun f1 => f1 :: rest)
        (fun f1 _ s1 =>
      step (check_functions rest s1) (fun r => f1 :: r) (fun r _ s2 =>
        (f1 :: r, s2, Done tt)))
  end.

Definition with_functions (module : Module_) (fs : list Function_)
  : Module_ :=
  mk_module (m_name module) (types module) (variables module) fs.

Definition check_module (module : Module_) (st : cstate) : R Module_ unit :=
  let st0 := mk_cstate true (diag st) in
  step (check_declarations module st0) (fun m => m) (fun _ _ s1 =>
  step (check_functions (functions module) s1) (with_functions module)
    (fun fs _ s2 =>
      if negb (module_ok s2) then
        (with_functions module fs, s2,
         Raise (SemanticError ErrorsOccurred None))
      else (with_functions module fs, s2, Done tt))).

(** [for module in self.context.modules: self.check_module(module)] *)
Fixpoint check (modules : list Module_) (st : cstate)
  : R (list Module_) unit :=
  match modules with
  | [] => ([], st, Done tt)
  | module :: rest =>
      step (check_module module st) (fun m1 => m1 :: rest) (fun m1 _ s1 =>
      step (check rest s1) (fun r => m1 :: r) (fun r _ s2 =>
        (m1 :: r, s2, Done tt)))
  end.

End Units.

(** ** A small context to run the checker on *)

Module Example.

(** Modelled from the spec: the context of the compiler, which resolves
    symbols and compares types, lives outside the checker.  This one knows
    the base types by name, compares types by structure, promotes numbers
    to the wider operand and resolves a handful of names. *)
Definition base_names : list string :=
  ["int"; "byte"; "bool"; "double"; "float"; "string"; "void"].

Definition get_type (t : ctype) : ctype :=
  match t with
  | NamedType name => if in_list name base_names then BaseType name else t
  | _ => t
  end.

Fixpoint resolve (t : ctype) : ctype :=
  match t with
  | PointerType p => PointerType (resolve p)
  | ArrayType e n => ArrayType (resolve e) n
  | _ => get_type t
  end.

Fixpoint type_eqb (a b : ctype) : bool :=
  match a, b with
  | BaseType x, BaseType y => String.eqb x y
  | PointerType x, PointerType y => type_eqb x y
  | ArrayType x n, ArrayType y m => type_eqb x y && Nat.eqb n m
  | _, _ => false
  end.

Definition same_type (a b : ctype) : bool := type_eqb (resolve a) (resolve b).

Definition is_simple_type (t : ctype) : bool :=
  is_base (get_type t) || is_pointer (get_type t).

Definition check_type (t : ctype) : option (message * option location) :=
  match get_type t with
  | NamedType name => Some (FromContext ("undefined type " ++ name), None)
  | _ => None
  end.

Definition get_common_type (a b : expr) : ctype :=
  match typ a, typ b with
  | Some ta, Some tb =>
      if same_type ta tb then ta
      else if same_type ta (NamedType "double") then ta
      else if same_type tb (NamedType "double") then tb
      else if is_pointer (get_type ta) then ta
      else NamedType "int"
  | _, _ => NamedType "int"
  end.

Definition int_type : ctype := BaseType "int".
Definition point : ctype := StructureType [("x", int_type); ("y", int_type)].

Definition globals (name : string) : option symbol :=
  if String.eqb name "x" then Some (SymVariable int_type)
  else if String.eqb name "y" then Some (SymVariable int_type)
  else if String.eqb name "b" then Some (SymVariable (BaseType "byte"))
  else if String.eqb name "p" then Some (SymVariable (PointerType int_type))
  else if String.eqb name "q"
  then Some (SymVariable (PointerType (BaseType "byte")))
  else if String.eqb name "pt" then Some (SymVariable point)
  else if String.eqb name "arr"
  then Some (SymVariable (ArrayType int_type 4))
  else if String.eqb name "c" then Some (SymConstant int_type)
  else if String.eqb name "f"
  then Some (SymFunction "main" "f" [int_type] (BaseType "void"))
  else if String.eqb name "io" then Some (SymModule "io")
  else None.

Definition resolve_symbol (e : expr) : symbol + message * option location :=
  match e with
  | Identifier n name =>
      match globals name with
      | Some s => inl s
      | None => inr (FromContext ("undefined reference " ++ name),
                     Some (a_loc n))
      end
  | Member n (Identifier _ "io") "count" => inl (SymVariable int_type)
  | _ => inr (FromContext "undefined reference", Some (loc e))
  end.

Definition ctx : Context :=
  mk_context resolve_symbol get_type check_type same_type get_common_type
    is_simple_type.

Definition st0 : cstate := mk_cstate true [].

Definition ident (l : location) (name : string) : expr :=
  Identifier (new_ann l) name.
Definition int_lit (l : location) (z : Z) : expr :=
  Literal (new_ann l) (VInt z).
Definition str_lit (l : location) (s : string) : expr :=
  Literal (new_ann l) (VStr s).

End Example.

(** ** Example programs *)

Definition returns_text : Function_ :=
  mk_function "f" 0 [] (NamedType "int") []
    (Some (Compound 1 [Return 2 (Some (Example.str_lit 3 "abc"))])).

Definition returns_struct : Function_ :=
  mk_function "origin" 10 [] Example.point [] None.

Definition returns_x : Function_ :=
  mk_function "get" 20 [] (NamedType "int") []
    (Some (Return 21 (Some (Example.ident 22 "x")))).

Definition returns_x_checked : Function_ :=
  mk_function "get" 20 [] (NamedType "int") []
    (Some (Return 21
       (Some (Identifier (mk_ann 22 (Some (BaseType "int")) (Some false))
                         "x")))).

Definition first_module : Module_ := mk_module "first" [] [] [returns_struct].
Definition returns_array : Function_ :=
  mk_function "table" 30 [] (ArrayType Example.int_type 4) [] None.
Definition second_module : Module_ :=
  mk_module "second" [] [] [returns_array; returns_x].

Definition as_array (l : location) (e : expr) : expr :=
  TypeCast (new_ann l) (ArrayType Example.int_type 4) e.

Definition x_as_rvalue : expr :=
  Identifier (mk_ann 2 (Some (BaseType "int")) (Some false)) "x".
Definition x_as_lvalue : expr :=
  Identifier (mk_ann 2 (Some (BaseType "int")) (Some true)) "x".

Definition x_less_than_y : expr :=
  Binop (new_ann 1) (Example.ident 2 "x") "<" (Example.ident 3 "y").

Definition x_less_than_y_as_condition : expr :=
  Binop (mk_ann 1 (Some (BaseType "bool")) None)
    (Identifier (mk_ann 2 (Some (BaseType "int")) (Some false)) "x") "<"
    (Identifier (mk_ann 3 (Some (BaseType "int")) (Some true)) "y").

Definition call_f_of_b : expr :=
  FunctionCall (new_ann 1) (Example.ident 2 "f") [Example.ident 3 "b"].

Definition valid_module : Module_ := mk_module "ok" [] [] [returns_x].

Definition undeclared_global : Module_ :=
  mk_module "globals" [] [mk_var "g" (NamedType "MyStruct") false]
    [returns_x].

Definition asserting_function : Function_ :=
  mk_function "broken" 40 [] (NamedType "int") []
    (Some (Assignment 41
             (Index (new_ann 42) (as_array 43 (Example.ident 44 "x"))
                (Example.int_lit 45 0))
             (Example.int_lit 46 7))).

Definition asserting_module : Module_ :=
  mk_module "m" [] [] [returns_x; asserting_function; returns_x].

(** [switch (x) { case 1: switch (y) { case 2: ; }; case zz: ; case 3: ; }],
    where [zz] is not declared, and what the check leaves of it. *)
Definition switch_in_switch : stmt :=
  Switch 0 (Example.ident 1 "x")
    [(Some (Example.int_lit 2 1),
      Switch 3 (Example.ident 4 "y") [(Some (Example.int_lit 5 2), Empty 6)]);
     (Some (Example.ident 8 "zz"), Empty 7);
     (Some (Example.int_lit 9 3), Empty 10)].

Definition switch_in_switch_checked : stmt :=
  Switch 0 (Identifier (mk_ann 1 (Some (BaseType "int")) (Some false)) "x")
    [(Some (Literal (mk_ann 2 (Some (BaseType "int")) (Some false)) (VInt 1)),
      Switch 3
        (Identifier (mk_ann 4 (Some (BaseType "int")) (Some false)) "y")
        [(Some (Literal (mk_ann 5 (Some (BaseType "int")) (Some false))
                  (VInt 2)), Empty 6)]);
     (Some (Example.ident 8 "zz"), Empty 7);
     (Some (Example.int_lit 9 3), Empty 10)].

Definition not_five : expr := Unop (new_ann 1) "not" (Example.int_lit 2 5).
Definition not_five_checked : expr :=
  Unop (mk_ann 1 (Some (BaseType "bool")) (Some false)) "not"
    (Literal (mk_ann 2 (Some (BaseType "int")) (Some false)) (VInt 5)).

Definition io_count : expr :=
  Member (new_ann 1) (Example.ident 2 "io") "count".

(** The example context with a stricter check of types, which takes no
    structure for complete. *)
Definition strict_ctx : Context :=
  mk_context Example.resolve_symbol Example.get_type
    (fun t => match t with
              | StructureType _ =>
                  Some (FromContext "incomplete structure", None)
              | _ => Example.check_type t
              end)
    Example.same_type Example.get_common_type Example.is_simple_type.

Definition x_as_point (l : location) : expr :=
  TypeCast (new_ann l) Example.point (Example.ident (S l) "x").

(** [(array) x [0]], which fails the assertion on its base. *)
Definition asserting_index (l : location) : expr :=
  Index (new_ann l) (as_array (S l) (Example.ident (S (S l)) "x"))
    (Example.int_lit (S (S (S l))) 0).

(** ** The vocabulary of the properties *)

Definition is_NoDefaultCase (m : message) : bool :=
  match m with NoDefaultCase => true | _ => false end.

(** How many of the reported errors satisfy [p]. *)
Definition count_errors (p : message -> bool) (st : cstate) : nat :=
  List.length (filter (fun d => p (fst d)) (diag st)).

Definition with_returntype (function : Function_) (t : ctype) : Function_ :=
  mk_function (f_name function) (f_loc function) (parameters function) t
    (inner_scope function) (body function).

Definition checked (e : expr) : Prop :=
  (exists t, typ e = Some t) /\ (exists v, lvalue e = Some v).

(** The rule table of the coercion, in the words of the specification:
    pointer to pointer, int to pointer, int to byte, int to double, double
    to float, float to double, byte to int. *)
Definition coercion_rule (ctx : Context) (have want : ctype) : Prop :=
  (is_pointer have = true /\ is_pointer want = true)
  \/ (equal_types ctx (NamedType "int") have = true
      /\ is_pointer want = true)
  \/ (equal_types ctx (NamedType "int") have = true
      /\ equal_types ctx (NamedType "byte") want = true)
  \/ (equal_types ctx (NamedType "int") have = true
      /\ equal_types ctx (NamedType "double") want = true)
  \/ (equal_types ctx (NamedType "double") have = true
      /\ equal_types ctx (NamedType "float") want = true)
  \/ (equal_types ctx (NamedType "float") have = true
      /\ equal_types ctx (NamedType "double") want = true)
  \/ (equal_types ctx (NamedType "byte") have = true
      /\ equal_types ctx (NamedType "int") want = true).

Definition coercible (ctx : Context) (have want : ctype) : bool :=
  is_pointer have && is_pointer want
  || equal_types ctx (NamedType "int") have && is_pointer want
  || equal_types ctx (NamedType "int") have
     && equal_types ctx (NamedType "byte") want
  || equal_types ctx (NamedType "int") have
     && equal_types ctx (NamedType "double") want
  || equal_types ctx (NamedType "double") have
     && equal_types ctx (NamedType "float") want
  || equal_types ctx (NamedType "float") have
     && equal_types ctx (NamedType "double") want
  || equal_types ctx (NamedType "byte") have
     && equal_types ctx (NamedType "int") want.

(** [r'] is [r] unless [r] ran out of fuel. *)
Definition refines {N A} (r r' : R N A) : Prop :=
  result r <> OutOfFuel -> r' = r.

(** How deep the nodes whose children get coerced are nested.  A cast
    adds nothing to it. *)
Fixpoint nesting (e : expr) : nat :=
  match e with
  | Binop _ a _ b => S (Nat.max (nesting a) (nesting b))
  | Unop _ _ a => nesting a
  | Identifier _ _ => 0
  | Deref _ ptr => nesting ptr
  | Member _ base _ => nesting base
  | Index _ base i => S (Nat.max (nesting base) (nesting i))
  | Literal _ _ => 0
  | TypeCast _ _ a => nesting a
  | Sizeof _ _ => 0
  | FunctionCall _ _ args => S (list_max (map nesting args))
  end.

Fixpoint size (e : expr) : nat :=
  match e with
  | Binop _ a _ b => S (size a + size b)
  | Unop _ _ a => S (size a)
  | Identifier _ _ => 1
  | Deref _ ptr => S (size ptr)
  | Member _ base _ => S (size base)
  | Index _ base i => S (size base + size i)
  | Literal _ _ => 1
  | TypeCast _ _ a => S (size a)
  | Sizeof _ _ => 1
  | FunctionCall _ _ args => S (list_sum (map size args))
  end.

(** The order the checks follow: less nesting, or no more nesting and a
    smaller tree. *)
Definition smaller (e' e : expr) : Prop :=
  nesting e' < nesting e \/ (nesting e' <= nesting e /\ size e' < size e).

(** From some fuel on the call gives one result, which is not to have run
    out of fuel. *)
Definition settles {N A} (f : nat -> R N A) : Prop :=
  exists n, result (f n) <> OutOfFuel /\ forall m, n <= m -> f m = f n.

(** The checks of an expression, as a condition, of a statement settle. *)
Definition expr_settles (ctx : Context) (e : expr) : Prop :=
  forall rv st, settles (fun m => check_expr ctx m e rv st).
Definition cond_settles (ctx : Context) (e : expr) : Prop :=
  forall st, settles (fun m => check_condition ctx m e st).
Definition stmt_settles (ctx : Context) (code : stmt) : Prop :=
  forall st, settles (fun m => check_stmt ctx m code st).

(** The reports of [s'] are those of [s], then maybe more. *)
Definition grows (s s' : cstate) : Prop :=
  exists tail, diag s' = (diag s ++ tail)%list.

Definition stmt_grows (ctx : Context) (fuel : nat) (code : stmt) : Prop :=
  forall st, grows st (state (check_stmt ctx fuel code st)).

(** The node at the root of a chain of member expressions. *)
Fixpoint module_root (e : expr) : expr :=
  match e with
  | Member _ base _ => module_root base
  | _ => e
  end.

(** What is left of an expression without the two attributes the checker
    assigns and without the casts. *)
Fixpoint bare (e : expr) : expr :=
  match e with
  | Binop n a op b => Binop (new_ann (a_loc n)) (bare a) op (bare b)
  | Unop n op a => Unop (new_ann (a_loc n)) op (bare a)
  | Identifier n target => Identifier (new_ann (a_loc n)) target
  | Deref n ptr => Deref (new_ann (a_loc n)) (bare ptr)
  | Member n base field => Member (new_ann (a_loc n)) (bare base) field
  | Index n base i => Index (new_ann (a_loc n)) (bare base) (bare i)
  | Literal n val => Literal (new_ann (a_loc n)) val
  | TypeCast _ _ a => bare a
  | Sizeof n query_typ => Sizeof (new_ann (a_loc n)) query_typ
  | FunctionCall n proc args =>
      FunctionCall (new_ann (a_loc n)) proc (map bare args)
  end.

Fixpoint bare_stmt (code : stmt) : stmt :=
  match code with
  | Compound l statements => Compound l (map bare_stmt statements)
  | Empty l => Empty l
  | Assignment l lval rval => Assignment l (bare lval) (bare rval)
  | ExpressionStatement l ex => ExpressionStatement l (bare ex)
  | If l c t f => If l (bare c) (bare_stmt t) (bare_stmt f)
  | Return l e => Return l (option_map bare e)
  | While l c b => While l (bare c) (bare_stmt b)
  | For l i c b f => For l (bare_stmt i) (bare c) (bare_stmt b) (bare_stmt f)
  | Switch l e options =>
      Switch l (bare e)
        (map (fun o : option expr * stmt =>
                (option_map bare (fst o), bare_stmt (snd o))) options)
  end.

Definition bare_function (function : Function_) : Function_ :=
  mk_function (f_name function) (f_loc function) (parameters function)
    (returntype function) (inner_scope function)
    (option_map bare_stmt (body function)).

Definition bare_module (module : Module_) : Module_ :=
  mk_module (m_name module) (types module) (variables module)
    (map bare_function (functions module)).

(** The signature of a function as [check_function] wants it, in the words
    of the specification: every parameter type well formed and simple, the
    return type simple, every type of the inner scope well formed. *)
Definition well_formed (ctx : Context) (t : ctype) : bool :=
  match context_check_type ctx t with None => true | Some _ => false end.

Definition signature_ok (ctx : Context) (function : Function_) : bool :=
  forallb (fun p => well_formed ctx (v_typ p) && is_simple_type ctx (v_typ p))
          (parameters function)
  && is_simple_type ctx (returntype function)
  && forallb (fun v => well_formed ctx (v_typ v)) (inner_scope function).

(** Nothing was reported between [s] and [s'], or something was and the
    module is marked invalid. *)
Definition flagged (s s' : cstate) : Prop :=
  s' = s
  \/ (module_ok s' = false
      /\ exists m l tail, diag s' = (diag s ++ (m, l) :: tail)%list).

Definition is_semantic (x : exn) : bool :=
  match x with SemanticError _ _ => true | _ => false end.

(** The messages of the errors the checks of expressions raise: those of
    the checker for expressions, and the context's. *)
Definition expression_message (m : message) : bool :=
  match m with
  | NonBool _ | CannotDeref _ | NoValidLvalue | CannotUseOperator _
  | CannotUseInExpression _ | NoSuchField _ _ | CannotSelect _ _
  | CannotIndex _ | UnknownLiteralType _ | CannotCall _
  | WrongArgumentCount _ _ _ | ReturnValueOnlySimple | CannotUseAs _ _
  | FromContext _ => true
  | _ => false
  end.

(** The context raises errors with messages of its own, none of the
    checker's. *)
Definition context_errors_own (ctx : Context) : Prop :=
  (forall e m l, resolve_symbol ctx e = inr (m, l) ->
                 exists text, m = FromContext text)
  /\ (forall t m l, context_check_type ctx t = Some (m, l) ->
                    exists text, m = FromContext text).

(** A semantic error that comes out of the call has a message in [p]. *)
Definition raises_only {N A} (p : message -> bool) (r : R N A) : Prop :=
  match result r with
  | Raise (SemanticError m _) => p m = true
  | _ => True
  end.

(** The states a statement is checked from and ends in are related. *)
Definition stmt_tracked (rel : cstate -> cstate -> Prop) (ctx : Context)
  (fuel : nat) (code : stmt) : Prop :=
  forall st, rel st (state (check_stmt ctx fuel code st)).

(** Checking a statement leaves it as it was, attributes and casts apart. *)
Definition stmt_bare (ctx : Context) (fuel : nat) (code : stmt) : Prop :=
  forall st, bare_stmt (node (check_stmt ctx fuel code st)) = bare_stmt code.

(** ** General properties *)

(** *** Attributes and results *)

Lemma assign_lvalue_typ : forall e v, typ (assign_lvalue e v) = typ e.
Proof. destruct e; reflexivity. Qed.

Lemma assign_lvalue_lvalue : forall e v, lvalue (assign_lvalue e v) = Some v.
Proof. destruct e; reflexivity. Qed.

Lemma assign_lvalue_loc : forall e v, loc (assign_lvalue e v) = loc e.
Proof. destruct e; reflexivity. Qed.

Lemma assign_lvalue_kind : forall e v, kind_of (assign_lvalue e v) = kind_of e.
Proof. destruct e; reflexivity. Qed.

Lemma assign_typ_typ : forall e t, typ (assign_typ e t) = Some t.
Proof. destruct e; reflexivity. Qed.

Lemma assign_typ_lvalue : forall e t, lvalue (assign_typ e t) = lvalue e.
Proof. destruct e; reflexivity. Qed.

Lemma assign_typ_kind : forall e t, kind_of (assign_typ e t) = kind_of e.
Proof. destruct e; reflexivity. Qed.

Lemma result_eta : forall {N A} (r : R N A), r = (node r, state r, result r).
Proof. intros N A [[n s] o]. reflexivity. Qed.

Lemma catch_not_semantic :
  forall {N} (r : R N unit) msg l, result (catch r) <> Raise (SemanticError msg l).
Proof.
  intros N [[n s] [[]|[m0 l0| | |]|]] msg l; cbn; congruence.
Qed.

(** *** What a check leaves of a node *)

Ltac break_call :=
  match goal with
  | |- context [step ?r _ _] =>
      let E := fresh "E" in
      destruct r as [[? ?] [?| |]] eqn:E; cbn [step]
  | |- context [attr ?o _ _ _] =>
      let E := fresh "E" in destruct o eqn:E; cbn [attr]
  | |- context [if ?b then _ else _] =>
      let E := fresh "E" in destruct b eqn:E
  | |- context [match ?x with _ => _ end] =>
      let E := fresh "E" in destruct x eqn:E
  end.

Section NodeKind.

Variable ctx : Context.
Variable rec_expr : expr -> bool -> cstate -> R expr unit.
Variable rec_cond : expr -> cstate -> R expr unit.

Hypothesis rec_expr_kind :
  forall e rv st, kind_of (node (rec_expr e rv st)) = kind_of e.
Hypothesis rec_cond_kind :
  forall e st, kind_of (node (rec_cond e st)) = kind_of e.

Lemma check_expr_kind_keeps_kind :
  forall e st,
    kind_of (node (check_expr_kind ctx rec_expr rec_cond e st)) = kind_of e.
Proof.
  intros e st. unfold check_expr_kind.
  destruct (is_bool e).
  - unfold check_bool_expr. pose proof (rec_cond_kind e st) as H.
    destruct (rec_cond e st) as [[e1 s1] [[]| |]]; cbn [step];
      cbn [node fst] in *; try assumption.
    now rewrite assign_lvalue_kind.
  - destruct e; unfold check_binop, check_unop, check_identifier,
      check_dereference, check_member_expr, check_index_expr,
      check_literal_expr, check_type_cast, check_sizeof, check_function_call,
      check_type;
      repeat break_call; reflexivity.
Qed.

Lemma check_expr_body_keeps_kind :
  forall e rv st,
    kind_of (node (check_expr_body ctx rec_expr rec_cond e rv st)) = kind_of e.
Proof.
  intros e rv st. unfold check_expr_body.
  pose proof (check_expr_kind_keeps_kind e st) as H.
  destruct (check_expr_kind ctx rec_expr rec_cond e st)
    as [[e1 s1] [[]| |]]; cbn [step]; cbn [node fst] in *; try assumption.
  unfold make_rvalue. repeat break_call; cbn [node fst];
    rewrite ?assign_lvalue_kind; assumption.
Qed.

Lemma check_condition_body_keeps_kind :
  forall e st,
    kind_of (node (check_condition_body ctx rec_expr rec_cond e st))
    = kind_of e.
Proof.
  intros e st. unfold check_condition_body.
  assert (H : kind_of (node (check_condition_kind ctx rec_expr rec_cond e st))
              = kind_of e).
  { unfold check_condition_kind.
    destruct e; try apply rec_expr_kind.
    - repeat break_call; cbn [node fst]; rewrite ?assign_typ_kind;
        try reflexivity.
      all: match goal with
           | H : _ = (?e, _, _) |- kind_of ?e = _ =>
               apply (f_equal node) in H; cbn [node fst] in H; subst e
           end.
      all: repeat break_call; reflexivity.
    - repeat break_call; try reflexivity; apply rec_expr_kind. }
  destruct (check_condition_kind ctx rec_expr rec_cond e st)
    as [[e1 s1] [[]| |]]; cbn [step]; cbn [node fst] in *; try assumption.
  repeat break_call; assumption.
Qed.

End NodeKind.

(** A check never replaces the node it is given by a node of another
    class: casts are put around children, by their parent. *)
Lemma check_keeps_kind :
  forall ctx fuel,
    (forall e rv st, kind_of (node (check_expr ctx fuel e rv st)) = kind_of e)
    /\ (forall e st, kind_of (node (check_condition ctx fuel e st)) = kind_of e).
Proof.
  intros ctx fuel. induction fuel as [|n [IHe IHc]].
  - split; reflexivity.
  - split; intros; cbn [check_expr check_condition].
    + now apply check_expr_body_keeps_kind.
    + now apply check_condition_body_keeps_kind.
Qed.

Lemma checked_assign_lvalue :
  forall e v, (exists t, typ e = Some t) -> checked (assign_lvalue e v).
Proof.
  intros e v H. split.
  - now rewrite assign_lvalue_typ.
  - rewrite assign_lvalue_lvalue. eauto.
Qed.

Section NodeChecked.

Variable ctx : Context.
Variable rec_expr : expr -> bool -> cstate -> R expr unit.
Variable rec_cond : expr -> cstate -> R expr unit.

Hypothesis rec_expr_checked :
  forall e rv st e1 s1, rec_expr e rv st = (e1, s1, Done tt) -> checked e1.
Hypothesis rec_cond_typed :
  forall e st e1 s1,
    rec_cond e st = (e1, s1, Done tt) -> exists t, typ e1 = Some t.

Ltac finish_checked :=
  intros H; inversion H; subst;
  (split; cbn; eauto) || (cbn; eauto).

Lemma check_expr_kind_checked :
  forall e st e1 s1,
    check_expr_kind ctx rec_expr rec_cond e st = (e1, s1, Done tt) ->
    checked e1.
Proof.
  intros e st e1 s1. unfold check_expr_kind.
  destruct (is_bool e).
  - unfold check_bool_expr.
    destruct (rec_cond e st) as [[e2 s2] [[]| |]] eqn:E; cbn [step];
      try discriminate.
    intros H; inversion H; subst.
    apply checked_assign_lvalue. eapply rec_cond_typed; eauto.
  - destruct e; unfold check_binop, check_unop, check_identifier,
      check_dereference, check_member_expr, check_index_expr,
      check_literal_expr, check_type_cast, check_sizeof, check_function_call,
      check_type;
      repeat break_call; try discriminate; finish_checked.
Qed.

Lemma check_expr_body_checked :
  forall e rv st e1 s1,
    check_expr_body ctx rec_expr rec_cond e rv st = (e1, s1, Done tt) ->
    checked e1.
Proof.
  intros e rv st e1 s1. unfold check_expr_body.
  destruct (check_expr_kind ctx rec_expr rec_cond e st)
    as [[e2 s2] [[]| |]] eqn:E; cbn [step]; try discriminate.
  apply check_expr_kind_checked in E.
  unfold make_rvalue. repeat break_call; try discriminate;
    intros H; inversion H; subst; try assumption.
  apply checked_assign_lvalue. apply E.
Qed.

Lemma check_condition_body_typed :
  forall e st e1 s1,
    check_condition_body ctx rec_expr rec_cond e st = (e1, s1, Done tt) ->
    exists t, typ e1 = Some t.
Proof.
  intros e st e1 s1. unfold check_condition_body.
  destruct (check_condition_kind ctx rec_expr rec_cond e st)
    as [[e2 s2] [[]| |]] eqn:E; cbn [step]; try discriminate.
  destruct (typ e2) as [t|] eqn:Ht; cbn [attr]; try discriminate.
  destruct (negb (equal_types ctx t (NamedType "bool")));
    intros H; inversion H; subst; eauto.
Qed.

End NodeChecked.

(** When [check_expr] returns, the node has its type and its lvalue flag;
    when [check_condition] returns, the node has its type. *)
Lemma check_sets_attributes :
  forall ctx fuel,
    (forall e rv st e1 s1,
       check_expr ctx fuel e rv st = (e1, s1, Done tt) -> checked e1)
    /\ (forall e st e1 s1,
       check_condition ctx fuel e st = (e1, s1, Done tt) ->
       exists t, typ e1 = Some t).
Proof.
  intros ctx fuel. induction fuel as [|n [IHe IHc]].
  - split; intros; discriminate.
  - split; intros; cbn [check_expr check_condition] in *.
    + eapply check_expr_body_checked; eauto.
    + eapply check_condition_body_typed; eauto.
Qed.

Lemma in_list_cond_ops :
  forall op,
    in_list op Binop_cond_ops
    = in_list op ["and"; "or"]
      || in_list op ["=="; ">"; "<"; "!="; "<="; ">="].
Proof.
  intros op. unfold in_list, Binop_cond_ops. cbn [existsb].
  repeat match goal with
         | |- context [String.eqb op ?s] => destruct (String.eqb op s)
         end; reflexivity.
Qed.

Ltac break_hyp H :=
  match type of H with
  | context [step ?r _ _] =>
      let E := fresh "E" in
      destruct r as [[? ?] [?| |]] eqn:E; cbn [step] in H
  | context [attr ?o _ _ _] =>
      let E := fresh "E" in destruct o eqn:E; cbn [attr] in H
  | context [if ?b then _ else _] =>
      let E := fresh "E" in destruct b eqn:E
  | context [match ?x with _ => _ end] =>
      let E := fresh "E" in destruct x eqn:E
  end.

Ltac inner_node :=
  match goal with
  | H : _ = (?e, _, _) |- lvalue ?e = _ =>
      apply (f_equal node) in H; cbn [node fst] in H; subst e;
      repeat break_call; reflexivity
  end.

(** [check_condition] assigns the type of a comparison, of an [and], an
    [or] or a [not], and leaves the lvalue flag to [check_bool_expr]; any
    other node it hands to [check_expr]. *)
Lemma check_condition_lvalue :
  forall ctx fuel e st e1 s1,
    check_condition ctx fuel e st = (e1, s1, Done tt) ->
    (is_bool e = true -> lvalue e1 = lvalue e)
    /\ (is_bool e = false -> checked e1).
Proof.
  intros ctx fuel e st e1 s1 H. destruct fuel as [|fuel]; [discriminate|].
  cbn [check_condition] in H. unfold check_condition_body in H.
  destruct (check_condition_kind ctx (check_expr ctx fuel)
              (check_condition ctx fuel) e st) as [[e2 s2] [[]| |]] eqn:Ek;
    cbn [step] in H; try discriminate.
  assert (He : e1 = e2).
  { destruct (typ e2); cbn [attr] in H; try discriminate.
    destruct (negb _); now inversion H. }
  subst e2. clear H.
  pose proof (proj1 (check_sets_attributes ctx fuel)) as Hc.
  unfold check_condition_kind in Ek.
  destruct e; try (split; [discriminate|intros _; eapply Hc; eassumption]).
  - cbn [is_bool]. rewrite in_list_cond_ops.
    destruct (in_list op ["and"; "or"]) eqn:E1.
    + split; [intros _|discriminate].
      repeat break_hyp Ek; try discriminate.
      inversion Ek; subst. rewrite assign_typ_lvalue. inner_node.
    + destruct (in_list op ["=="; ">"; "<"; "!="; "<="; ">="]) eqn:E2.
      * split; [intros _|discriminate].
        repeat break_hyp Ek; try discriminate.
        inversion Ek; subst. rewrite assign_typ_lvalue. inner_node.
      * discriminate.
  - cbn [is_bool]. unfold in_list, Unop_cond_ops. cbn [existsb].
    rewrite orb_false_r.
    destruct (String.eqb op "not") eqn:E1.
    + split; [intros _|discriminate].
      repeat break_hyp Ek; try discriminate.
      inversion Ek; subst. reflexivity.
    + split; [discriminate|intros _; eapply Hc; eassumption].
Qed.

Lemma make_rvalue_node :
  forall ctx rv e s,
    node (make_rvalue ctx rv e s) = e
    \/ node (make_rvalue ctx rv e s) = assign_lvalue e false.
Proof.
  intros ctx rv e s. unfold make_rvalue.
  repeat break_call; cbn [node fst]; auto.
Qed.

(** The callee of a call and the base of a member expression that names
    something in a module are handed to the context, not checked: they stay
    as they were. *)
Lemma check_expr_keeps_callee :
  forall ctx fuel n proc args rv st,
    exists n' args',
      node (check_expr ctx fuel (FunctionCall n proc args) rv st)
      = FunctionCall n' proc args'.
Proof.
  intros ctx fuel n proc args rv st. destruct fuel as [|fuel]; [cbn; eauto|].
  cbn [check_expr]. unfold check_expr_body, check_expr_kind. cbn [is_bool].
  assert (H : exists n' args',
             node (check_function_call ctx (check_expr ctx fuel) n proc args st)
             = FunctionCall n' proc args').
  { unfold check_function_call. repeat break_call; cbn [node fst]; eauto. }
  destruct H as [n' [args' H]].
  destruct (check_function_call ctx (check_expr ctx fuel) n proc args st)
    as [[e1 s1] [[]| |]]; cbn [step node fst] in *; subst e1; eauto.
  destruct (make_rvalue_node ctx rv (FunctionCall n' proc args') s1) as [E|E];
    rewrite E; cbn; eauto.
Qed.

Lemma check_expr_keeps_module_base :
  forall ctx fuel n base field rv st,
    is_module_ref ctx (Member n base field) = inl true ->
    exists n',
      node (check_expr ctx fuel (Member n base field) rv st)
      = Member n' base field.
Proof.
  intros ctx fuel n base field rv st Hm. destruct fuel as [|fuel];
    [cbn; eauto|].
  cbn [check_expr]. unfold check_expr_body, check_expr_kind. cbn [is_bool].
  assert (H : exists n',
             node (check_member_expr ctx (check_expr ctx fuel) n base field st)
             = Member n' base field).
  { unfold check_member_expr. rewrite Hm.
    repeat break_call; cbn [node fst]; eauto. }
  destruct H as [n' H].
  destruct (check_member_expr ctx (check_expr ctx fuel) n base field st)
    as [[e1 s1] [[]| |]]; cbn [step node fst] in *; subst e1; eauto.
  destruct (make_rvalue_node ctx rv (Member n' base field) s1) as [E|E];
    rewrite E; cbn; eauto.
Qed.

Lemma make_rvalue_typ :
  forall ctx rv e s, typ (node (make_rvalue ctx rv e s)) = typ e.
Proof.
  intros ctx rv e s. unfold make_rvalue.
  repeat break_call; cbn [node fst]; rewrite ?assign_lvalue_typ; congruence.
Qed.

(** Checking a cast node again leaves its type, the type it casts to. *)
Lemma check_cast_keeps_typ :
  forall ctx fuel n t a rv st,
    a_typ n = Some t ->
    typ (node (check_expr ctx fuel (TypeCast n t a) rv st)) = Some t.
Proof.
  intros ctx fuel n t a rv st Hn. destruct fuel as [|fuel]; [exact Hn|].
  cbn [check_expr]. unfold check_expr_body, check_expr_kind.
  cbn [is_bool]. unfold check_type_cast.
  destruct (check_expr ctx fuel a true st) as [[a1 s1] [[]| |]];
    cbn [step]; try exact Hn.
  rewrite make_rvalue_typ. reflexivity.
Qed.

Lemma check_cast_done_typ :
  forall ctx fuel n t a rv st c s,
    check_expr ctx fuel (TypeCast n t a) rv st = (c, s, Done tt) ->
    typ c = Some t.
Proof.
  intros ctx fuel n t a rv st c s H. destruct fuel as [|fuel];
    [discriminate|].
  cbn [check_expr] in H. unfold check_expr_body, check_expr_kind in H.
  cbn [is_bool] in H. unfold check_type_cast in H.
  destruct (check_expr ctx fuel a true st) as [[a1 s1] [[]| |]];
    cbn [step] in H; try discriminate.
  apply (f_equal node) in H. cbn [node fst] in H. subst c.
  rewrite make_rvalue_typ. reflexivity.
Qed.

Lemma check_cast_child :
  forall ctx fuel n t a rv st,
    cast_child (node (check_expr ctx fuel (TypeCast n t a) rv st)) a
    = match fuel with
      | O => a
      | S fuel' => node (check_expr ctx fuel' a true st)
      end.
Proof.
  intros ctx fuel n t a rv st. destruct fuel as [|fuel]; [reflexivity|].
  cbn [check_expr]. unfold check_expr_body, check_expr_kind.
  cbn [is_bool]. unfold check_type_cast.
  destruct (check_expr ctx fuel a true st) as [[a1 s1] [[]| |]];
    cbn [step]; try reflexivity.
  unfold make_rvalue. repeat break_call; reflexivity.
Qed.

(** *** The rule chain of the coercion *)

Lemma coercible_rule :
  forall ctx have want,
    coercible ctx have want = true <-> coercion_rule ctx have want.
Proof.
  intros ctx have want. unfold coercible, coercion_rule.
  repeat rewrite orb_true_iff. repeat rewrite andb_true_iff. tauto.
Qed.

Lemma chain_of_rules :
  forall (A : Type) (x y : A) (b1 b2 b3 b4 b5 b6 b7 : bool),
    (if b1 then x else if b2 then x else if b3 then x else if b4 then x
     else if b5 then x else if b6 then x else if b7 then x else y)
    = if b1 || b2 || b3 || b4 || b5 || b6 || b7 then x else y.
Proof. intros A x y [] [] [] [] [] [] []; reflexivity. Qed.

(** [do_coerce] on a node whose type is there. *)
Lemma do_coerce_typed :
  forall ctx rec e want have st,
    typ e = Some have ->
    do_coerce ctx rec e want st
    = if equal_types ctx have want then
        step (rec e false st) (fun e1 => e1) (fun e1 _ s1 => (e1, s1, Done e1))
      else if coercible ctx have want then
        match rec (TypeCast (new_ann (loc e)) want e) false st with
        | (c, s1, Done _) => (cast_child c e, s1, Done c)
        | (c, s1, Raise x) => (cast_child c e, s1, Raise x)
        | (c, s1, OutOfFuel) => (cast_child c e, s1, OutOfFuel)
        end
      else (e, st,
            Raise (SemanticError (CannotUseAs have want) (Some (loc e)))).
Proof.
  intros ctx rec e want have st Ht. unfold do_coerce. rewrite Ht.
  cbn [attr]. destruct (equal_types ctx have want); [reflexivity|].
  unfold coercible. apply chain_of_rules.
Qed.

(** ** Enough fuel *)

Lemma refines_refl : forall {N A} (r : R N A), refines r r.
Proof. intros N A r _. reflexivity. Qed.

Lemma step_refines :
  forall {C N A B} (r r' : R C A) (put : C -> N)
         (k k' : C -> A -> cstate -> R N B),
    refines r r' ->
    (forall c v s, refines (k c v s) (k' c v s)) ->
    refines (step r put k) (step r' put k').
Proof.
  intros C N A B r r' put k k' Hr Hk H.
  destruct r as [[c s] [v| |]]; cbn [step] in *.
  - rewrite Hr by discriminate. cbn [step]. now apply Hk.
  - rewrite Hr by discriminate. reflexivity.
  - now contradiction H.
Qed.

Lemma attr_refines :
  forall {N A B} (o : option A) (cur : N) (s : cstate) (k k' : A -> R N B),
    (forall v, refines (k v) (k' v)) ->
    refines (attr o cur s k) (attr o cur s k').
Proof.
  intros N A B [v|] cur s k k' Hk; cbn [attr]; [apply Hk|apply refines_refl].
Qed.

Lemma check_type_refines :
  forall {N B} ctx t (cur : N) s (k k' : R N B),
    refines k k' ->
    refines (check_type ctx t cur s k) (check_type ctx t cur s k').
Proof.
  intros N B ctx t cur s k k' Hk. unfold check_type.
  destruct (context_check_type ctx t) as [[m l]|];
    [apply refines_refl|exact Hk].
Qed.

Ltac refines_cases known :=
  cbv zeta;
  repeat first
    [ apply refines_refl
    | assumption
    | known
    | apply step_refines; [|intros ? ? ?]
    | apply attr_refines; intros ?
    | apply check_type_refines
    | match goal with
      | |- refines (if ?b then _ else _) _ => destruct b
      | |- refines (match ?x with _ => _ end) _ => destruct x
      end ].

Section MoreFuel.

Variable ctx : Context.
Variables rec_expr rec_expr' : expr -> bool -> cstate -> R expr unit.
Variables rec_cond rec_cond' : expr -> cstate -> R expr unit.

Hypothesis rec_expr_refines :
  forall e rv st, refines (rec_expr e rv st) (rec_expr' e rv st).
Hypothesis rec_cond_refines :
  forall e st, refines (rec_cond e st) (rec_cond' e st).

Lemma do_coerce_refines :
  forall e t st,
    refines (do_coerce ctx rec_expr e t st) (do_coerce ctx rec_expr' e t st).
Proof.
  intros e t st. destruct (typ e) as [have|] eqn:Ht.
  - rewrite !(do_coerce_typed _ _ _ _ _ _ Ht).
    destruct (equal_types ctx have t).
    + apply step_refines; [apply rec_expr_refines|intros; apply refines_refl].
    + destruct (coercible ctx have t); [|apply refines_refl].
      pose proof (rec_expr_refines (TypeCast (new_ann (loc e)) t e) false st)
        as H.
      intros Hr.
      destruct (rec_expr (TypeCast (new_ann (loc e)) t e) false st)
        as [[c s] [v| |]]; cbn in Hr;
        try (rewrite H by discriminate; reflexivity).
      now contradiction Hr.
  - unfold do_coerce. rewrite Ht. apply refines_refl.
Qed.

Lemma check_arguments_refines :
  forall args ptypes st,
    refines (check_arguments ctx rec_expr args ptypes st)
            (check_arguments ctx rec_expr' args ptypes st).
Proof.
  induction args as [|a rest IH]; intros ptypes st; cbn [check_arguments];
    [apply refines_refl|].
  destruct ptypes as [|t ptypes]; [apply refines_refl|].
  apply step_refines; [apply rec_expr_refines|intros a1 _ s1].
  apply step_refines; [apply do_coerce_refines|intros a2 c s2].
  apply step_refines; [apply IH|intros; apply refines_refl].
Qed.

Lemma check_expr_body_refines :
  forall e rv st,
    refines (check_expr_body ctx rec_expr rec_cond e rv st)
            (check_expr_body ctx rec_expr' rec_cond' e rv st).
Proof.
  intros e rv st. unfold check_expr_body.
  apply step_refines; [|intros; apply refines_refl].
  unfold check_expr_kind. destruct (is_bool e).
  - unfold check_bool_expr.
    apply step_refines; [apply rec_cond_refines|intros; apply refines_refl].
  - pose proof do_coerce_refines as Hc.
    pose proof check_arguments_refines as Ha.
    destruct e; unfold check_binop, check_unop, check_identifier,
      check_dereference, check_member_expr, check_index_expr,
      check_literal_expr, check_type_cast, check_sizeof, check_function_call;
      refines_cases
        ltac:(first [apply rec_expr_refines | apply Hc | apply Ha]).
Qed.

Lemma check_condition_body_refines :
  forall e st,
    refines (check_condition_body ctx rec_expr rec_cond e st)
            (check_condition_body ctx rec_expr' rec_cond' e st).
Proof.
  intros e st. unfold check_condition_body.
  apply step_refines; [|intros; apply refines_refl].
  pose proof do_coerce_refines as Hc.
  unfold check_condition_kind.
  destruct e; try apply rec_expr_refines;
    refines_cases
      ltac:(first [apply rec_expr_refines | apply rec_cond_refines
                  | apply Hc]).
Qed.

End MoreFuel.

(** A check that did not run out of fuel gives the same with more fuel. *)
Lemma check_more_fuel :
  forall ctx n,
    (forall e rv st,
       refines (check_expr ctx n e rv st) (check_expr ctx (S n) e rv st))
    /\ (forall e st,
       refines (check_condition ctx n e st) (check_condition ctx (S n) e st)).
Proof.
  intros ctx n. induction n as [|n [IHe IHc]].
  - split; intros; intros H; now contradiction H.
  - split; intros.
    + change (refines
        (check_expr_body ctx (check_expr ctx n) (check_condition ctx n)
           e rv st)
        (check_expr_body ctx (check_expr ctx (S n))
           (check_condition ctx (S n)) e rv st)).
      now apply check_expr_body_refines.
    + change (refines
        (check_condition_body ctx (check_expr ctx n) (check_condition ctx n)
           e st)
        (check_condition_body ctx (check_expr ctx (S n))
           (check_condition ctx (S n)) e st)).
      now apply check_condition_body_refines.
Qed.

Lemma check_fuel_le :
  forall ctx n m,
    n <= m ->
    (forall e rv st,
       refines (check_expr ctx n e rv st) (check_expr ctx m e rv st))
    /\ (forall e st,
       refines (check_condition ctx n e st) (check_condition ctx m e st)).
Proof.
  intros ctx n m Hle. induction Hle as [|m Hle [IHe IHc]].
  - split; intros; apply refines_refl.
  - destruct (check_more_fuel ctx m) as [He Hc].
    split; intros; intros H.
    + rewrite <- (IHe e rv st H). apply He. now rewrite (IHe e rv st H).
    + rewrite <- (IHc e st H). apply Hc. now rewrite (IHc e st H).
Qed.

Lemma nesting_with_ann : forall f e, nesting (with_ann f e) = nesting e.
Proof. destruct e; reflexivity. Qed.

Lemma list_max_cons :
  forall a l, list_max (a :: l) = Nat.max a (list_max l).
Proof. reflexivity. Qed.

Section Nesting.

Variable ctx : Context.
Variable rec_expr : expr -> bool -> cstate -> R expr unit.
Variable rec_cond : expr -> cstate -> R expr unit.

Hypothesis rec_expr_nesting :
  forall e rv st, nesting (node (rec_expr e rv st)) <= nesting e.
Hypothesis rec_cond_nesting :
  forall e st, nesting (node (rec_cond e st)) <= nesting e.

Lemma do_coerce_nesting :
  forall e t st,
    nesting (node (do_coerce ctx rec_expr e t st)) <= nesting e
    /\ (forall v, result (do_coerce ctx rec_expr e t st) = Done v ->
                  nesting v <= nesting e).
Proof.
  intros e t st. destruct (typ e) as [have|] eqn:Ht.
  - rewrite (do_coerce_typed _ _ _ _ _ _ Ht).
    destruct (equal_types ctx have t).
    + pose proof (rec_expr_nesting e false st) as H.
      destruct (rec_expr e false st) as [[e1 s1] [[]| |]];
        cbn [step node result fst snd] in *; split; auto; try discriminate.
      intros v Hv. now inversion Hv; subst.
    + destruct (coercible ctx have t);
        [|cbn [node result fst snd]; split; [lia|discriminate]].
      pose proof (rec_expr_nesting (TypeCast (new_ann (loc e)) t e) false st)
        as H. cbn [nesting] in H.
      destruct (rec_expr (TypeCast (new_ann (loc e)) t e) false st)
        as [[c s1] [[]| |]]; cbn [node result fst snd] in *.
      all: split; [|try discriminate].
      all: try (destruct c; cbn [cast_child nesting] in *; lia).
      intros v Hv. now inversion Hv; subst.
  - unfold do_coerce. rewrite Ht. cbn. split; [lia|discriminate].
Qed.

Lemma check_arguments_nesting :
  forall args ptypes st,
    list_max (map nesting (node (check_arguments ctx rec_expr args ptypes st)))
      <= list_max (map nesting args)
    /\ (forall vs,
          result (check_arguments ctx rec_expr args ptypes st) = Done vs ->
          list_max (map nesting vs) <= list_max (map nesting args)).
Proof.
  induction args as [|a rest IH]; intros ptypes st; cbn [check_arguments].
  - cbn. split; [lia|]. intros vs H. inversion H. cbn. lia.
  - destruct ptypes as [|t ptypes].
    { cbn [node result fst snd]. split; [lia|].
      intros vs H. inversion H. cbn. lia. }
    cbn [map]; rewrite list_max_cons.
    pose proof (rec_expr_nesting a true st) as Ha.
    destruct (rec_expr a true st) as [[a1 s1] [[]| |]];
      cbn [step node result fst snd map] in *;
      rewrite ?list_max_cons in *;
      try (split; [lia|discriminate]).
    destruct (do_coerce_nesting a1 t s1) as [Hn Hv].
    destruct (do_coerce ctx rec_expr a1 t s1) as [[a2 s2] [c| |]];
      cbn [step node result fst snd map] in *;
      rewrite ?list_max_cons in *;
      try (split; [lia|discriminate]).
    specialize (Hv c eq_refl).
    destruct (IH ptypes s2) as [Hr Hvs].
    destruct (check_arguments ctx rec_expr rest ptypes s2)
      as [[r s3] [cs| |]];
      cbn [step node result fst snd map] in *;
      rewrite ?list_max_cons in *;
      try (split; [lia|discriminate]).
    specialize (Hvs cs eq_refl).
    split; [lia|]. intros vs H. inversion H; subst.
    cbn [map]. rewrite list_max_cons. lia.
Qed.

Ltac nesting_call :=
  match goal with
  | |- context [step (rec_expr ?a ?rv ?s) _ _] =>
      let H := fresh "H" in
      pose proof (rec_expr_nesting a rv s) as H;
      destruct (rec_expr a rv s) as [[? ?] [[]| |]];
      cbn [step node result fst snd] in *
  | |- context [step (rec_cond ?a ?s) _ _] =>
      let H := fresh "H" in
      pose proof (rec_cond_nesting a s) as H;
      destruct (rec_cond a s) as [[? ?] [[]| |]];
      cbn [step node result fst snd] in *
  | |- context [step (do_coerce ctx rec_expr ?a ?t ?s) _ _] =>
      let H := fresh "H" in
      let Hv := fresh "Hv" in
      destruct (do_coerce_nesting a t s) as [H Hv];
      destruct (do_coerce ctx rec_expr a t s) as [[? ?] [?| |]];
      cbn [step node result fst snd] in *;
      try specialize (Hv _ eq_refl)
  | |- context [step (check_arguments ctx rec_expr ?a ?t ?s) _ _] =>
      let H := fresh "H" in
      let Hv := fresh "Hv" in
      destruct (check_arguments_nesting a t s) as [H Hv];
      destruct (check_arguments ctx rec_expr a t s) as [[? ?] [?| |]];
      cbn [step node result fst snd] in *;
      try specialize (Hv _ eq_refl)
  | |- context [attr ?o _ _ _] => destruct o; cbn [attr]
  | |- context [if ?b then _ else _] => destruct b
  | |- context [match ?x with _ => _ end] => destruct x
  end.

Lemma check_expr_body_nesting :
  forall e rv st,
    nesting (node (check_expr_body ctx rec_expr rec_cond e rv st))
    <= nesting e.
Proof.
  intros e rv st. unfold check_expr_body.
  assert (H : nesting (node (check_expr_kind ctx rec_expr rec_cond e st))
              <= nesting e).
  { unfold check_expr_kind. destruct (is_bool e).
    - unfold check_bool_expr. nesting_call; try assumption.
      unfold assign_lvalue. now rewrite nesting_with_ann.
    - destruct e; unfold check_binop, check_unop, check_identifier,
        check_dereference, check_member_expr, check_index_expr,
        check_literal_expr, check_type_cast, check_sizeof,
        check_function_call, check_type; cbv zeta;
        repeat nesting_call; cbn [node fst nesting]; lia. }
  destruct (check_expr_kind ctx rec_expr rec_cond e st)
    as [[e1 s1] [[]| |]]; cbn [step node fst] in *; try assumption.
  unfold make_rvalue. repeat nesting_call; cbn [node fst];
    unfold assign_lvalue; rewrite ?nesting_with_ann; assumption.
Qed.

Lemma check_condition_body_nesting :
  forall e st,
    nesting (node (check_condition_body ctx rec_expr rec_cond e st))
    <= nesting e.
Proof.
  intros e st. unfold check_condition_body.
  assert (H : nesting (node (check_condition_kind ctx rec_expr rec_cond e st))
              <= nesting e).
  { unfold check_condition_kind.
    destruct e; try apply rec_expr_nesting; cbv zeta;
      repeat first [progress cbn [step] | nesting_call];
      cbn [node fst nesting];
      unfold assign_typ; rewrite ?nesting_with_ann; cbn [nesting];
      try lia;
      match goal with
      | |- nesting (node (rec_expr ?a ?r ?s)) <= _ =>
          pose proof (rec_expr_nesting a r s); cbn [nesting] in *; lia
      end. }
  destruct (check_condition_kind ctx rec_expr rec_cond e st)
    as [[e1 s1] [[]| |]]; cbn [step node fst] in *; try assumption.
  repeat nesting_call; assumption.
Qed.

End Nesting.

Lemma check_nesting :
  forall ctx fuel,
    (forall e rv st,
       nesting (node (check_expr ctx fuel e rv st)) <= nesting e)
    /\ (forall e st,
       nesting (node (check_condition ctx fuel e st)) <= nesting e).
Proof.
  intros ctx fuel. induction fuel as [|n [IHe IHc]].
  - split; intros; cbn; lia.
  - split; intros; cbn [check_expr check_condition].
    + now apply check_expr_body_nesting.
    + now apply check_condition_body_nesting.
Qed.

Lemma settles_const :
  forall {N A} (r : R N A), result r <> OutOfFuel -> settles (fun _ => r).
Proof. intros N A r H. exists 0. split; auto. Qed.

Lemma settles_shift :
  forall {N A} (f : nat -> R N A), settles (fun m => f (S m)) -> settles f.
Proof.
  intros N A f [n [Hn Hm]]. exists (S n). split; [exact Hn|].
  intros m Hle. destruct m as [|m]; [lia|]. apply Hm. lia.
Qed.

Lemma settles_step :
  forall {C N A B} (f : nat -> R C A) (put : C -> N)
         (k : nat -> C -> A -> cstate -> R N B),
    settles f ->
    (forall n c v s, f n = (c, s, Done v) -> settles (fun m => k m c v s)) ->
    settles (fun m => step (f m) put (k m)).
Proof.
  intros C N A B f put k [n [Hn Hm]] Hk.
  destruct (f n) as [[c s] [v| |]] eqn:E.
  - destruct (Hk n c v s E) as [n1 [Hn1 Hm1]].
    exists (Nat.max n n1). split.
    + rewrite Hm by lia. cbn [step]. rewrite Hm1 by lia. exact Hn1.
    + intros m Hle. rewrite (Hm m) by lia. rewrite (Hm (Nat.max n n1)) by lia.
      cbn [step]. rewrite (Hm1 m) by lia. now rewrite (Hm1 (Nat.max n n1)) by lia.
  - exists n. split.
    + rewrite E. cbn. discriminate.
    + intros m Hle. rewrite (Hm m Hle), E. reflexivity.
  - now contradiction Hn.
Qed.

Lemma settles_ext :
  forall {N A} (f g : nat -> R N A),
    (forall m, f m = g m) -> settles g -> settles f.
Proof.
  intros N A f g H [n [Hn Hm]]. exists n. split.
  - now rewrite H.
  - intros m Hle. rewrite !H. now apply Hm.
Qed.

Lemma settles_map :
  forall {N A M B} (f : nat -> R N A) (g : R N A -> R M B),
    settles f ->
    (forall r, result r <> OutOfFuel -> result (g r) <> OutOfFuel) ->
    settles (fun m => g (f m)).
Proof.
  intros N A M B f g [n [Hn Hm]] Hg. exists n. split.
  - now apply Hg.
  - intros m Hle. now rewrite (Hm m Hle).
Qed.

Lemma settles_attr :
  forall {N A B} (o : option A) (cur : N) (s : cstate)
         (k : nat -> A -> R N B),
    (forall v, settles (fun m => k m v)) ->
    settles (fun m => attr o cur s (k m)).
Proof.
  intros N A B [v|] cur s k Hk; cbn [attr]; [apply Hk|].
  apply settles_const. discriminate.
Qed.

Lemma make_rvalue_returns :
  forall ctx rv e s, result (make_rvalue ctx rv e s) <> OutOfFuel.
Proof.
  intros ctx rv e s. unfold make_rvalue. repeat break_call; discriminate.
Qed.

Lemma nesting_in :
  forall a l, In a l -> nesting a <= list_max (map nesting l).
Proof.
  intros a l. induction l as [|x l IH]; intros H; [destruct H|].
  cbn [map]. rewrite list_max_cons. destruct H as [->|H]; [lia|].
  specialize (IH H). lia.
Qed.

Lemma size_in : forall a l, In a l -> size a <= list_sum (map size l).
Proof.
  intros a l. induction l as [|x l IH]; intros H; [destruct H|].
  cbn [map list_sum fold_right]. destruct H as [->|H]; [lia|].
  specialize (IH H). unfold list_sum in IH. lia.
Qed.

Section Settles.

Variable ctx : Context.

Lemma do_coerce_settles :
  forall e t st,
    (expr_settles ctx) e ->
    (expr_settles ctx) (TypeCast (new_ann (loc e)) t e) ->
    settles (fun m => do_coerce ctx (check_expr ctx m) e t st).
Proof.
  intros e t st He Hc. destruct (typ e) as [have|] eqn:Ht.
  - eapply settles_ext;
      [intros m; apply (do_coerce_typed _ _ _ _ _ _ Ht)|].
    destruct (equal_types ctx have t).
    + apply settles_step; [apply He|].
      intros. apply settles_const. discriminate.
    + destruct (coercible ctx have t);
        [|apply settles_const; discriminate].
      apply (settles_map (fun m => check_expr ctx m
                                     (TypeCast (new_ann (loc e)) t e) false st)
               (fun r : R expr unit =>
                  match r with
                  | (c, s1, Done _) => (cast_child c e, s1, Done c)
                  | (c, s1, Raise x) => (cast_child c e, s1, Raise x)
                  | (c, s1, OutOfFuel) => (cast_child c e, s1, OutOfFuel)
                  end)); [apply Hc|].
      intros [[c s1] [v| |]] H; cbn in *; congruence.
  - apply (settles_ext _ (fun _ => (e, st, Raise AttributeError))).
    + intros m. unfold do_coerce. rewrite Ht. reflexivity.
    + apply settles_const. discriminate.
Qed.

Lemma check_arguments_settles :
  forall args ptypes st,
    (forall a, In a args -> (expr_settles ctx) a) ->
    (forall x, nesting x <= list_max (map nesting args) -> (expr_settles ctx) x) ->
    settles (fun m => check_arguments ctx (check_expr ctx m) args ptypes st).
Proof.
  induction args as [|a rest IH]; intros ptypes st Hin Hnest;
    cbn [check_arguments]; [apply settles_const; discriminate|].
  destruct ptypes as [|t ptypes]; [apply settles_const; discriminate|].
  cbn [map] in Hnest. rewrite list_max_cons in Hnest.
  apply settles_step; [apply Hin; now left|].
  intros n a1 v s1 Ha.
  pose proof (proj1 (check_nesting ctx n) a true st) as Hn.
  rewrite Ha in Hn. cbn [node fst] in Hn.
  apply (settles_step
           (fun m => do_coerce ctx (check_expr ctx m) a1 t s1)
           (fun a2 => a2 :: rest)
           (fun m a2 c s2 =>
              step (check_arguments ctx (check_expr ctx m) rest ptypes s2)
                (fun r => a2 :: r)
                (fun r cs s3 => (a2 :: r, s3, Done (c :: cs))))).
  - apply do_coerce_settles; apply Hnest; cbn [nesting]; lia.
  - intros n2 a2 c s2 _.
    apply settles_step.
    + apply IH; [intros; apply Hin; now right|].
      intros x Hx. apply Hnest. lia.
    + intros. apply settles_const. discriminate.
Qed.

Ltac note_nesting H :=
  match type of H with
  | check_expr _ ?n ?a ?rv ?s = _ =>
      let Hn := fresh "Hn" in
      pose proof (proj1 (check_nesting ctx n) a rv s) as Hn;
      rewrite H in Hn; cbn [node fst] in Hn
  | check_condition _ ?n ?a ?s = _ =>
      let Hn := fresh "Hn" in
      pose proof (proj2 (check_nesting ctx n) a s) as Hn;
      rewrite H in Hn; cbn [node fst] in Hn
  end.

Ltac solve_smaller :=
  unfold smaller; cbn [nesting size]; lia.

Ltac settle IHe IHc :=
  cbv zeta;
  repeat first
    [ apply settles_const; discriminate
    | match goal with
      | |- settles (fun m => step (check_expr ctx m ?a ?rv ?s) _ _) =>
          let H := fresh "H" in
          apply settles_step;
          [apply IHe; solve_smaller|intros ? ? ? ? H; note_nesting H]
      | |- settles (fun m => step (check_condition ctx m ?a ?s) _ _) =>
          let H := fresh "H" in
          apply settles_step;
          [apply IHc; solve_smaller|intros ? ? ? ? H; note_nesting H]
      | |- settles (fun m => step (do_coerce ctx (check_expr ctx m) _ _ _)
                                  _ _) =>
          apply settles_step;
          [apply do_coerce_settles; apply IHe; solve_smaller
          |intros ? ? ? ? _]
      | |- settles (fun m => attr ?o _ _ _) => destruct o; cbn [attr]
      | |- settles (fun m => if ?b then _ else _) => destruct b
      | |- settles (fun m => match ?x with _ => _ end) => destruct x
      | |- settles (fun m => step (step _ _ _) _ _) =>
          apply settles_step; [|intros ? ? ? ? _]
      end ].

Lemma expr_kind_settles :
  forall e,
    (forall e', smaller e' e -> (expr_settles ctx) e') ->
    (is_bool e = true -> (cond_settles ctx) e) ->
    forall st,
      settles (fun m => check_expr_kind ctx (check_expr ctx m)
                          (check_condition ctx m) e st).
Proof.
  intros e IHe Hcond st. unfold check_expr_kind.
  destruct (is_bool e) eqn:Hb.
  - unfold check_bool_expr.
    apply settles_step; [now apply Hcond|].
    intros. apply settles_const. discriminate.
  - clear Hcond Hb.
    destruct e; unfold check_binop, check_unop, check_identifier,
      check_dereference, check_member_expr, check_index_expr,
      check_literal_expr, check_type_cast, check_sizeof, check_function_call,
      check_type; settle IHe IHe.
    apply settles_step.
    + apply check_arguments_settles.
      * intros a Ha. apply IHe. left. cbn [nesting].
        pose proof (nesting_in a args Ha). lia.
      * intros x Hx. apply IHe. left. cbn [nesting]. lia.
    + intros. settle IHe IHe.
Qed.

Lemma expr_settles_of_kind :
  forall e,
    (forall st,
       settles (fun m => check_expr_kind ctx (check_expr ctx m)
                           (check_condition ctx m) e st)) ->
    (expr_settles ctx) e.
Proof.
  intros e H rv st. apply settles_shift. cbn [check_expr].
  unfold check_expr_body. apply settles_step; [apply H|].
  intros. apply settles_const. apply make_rvalue_returns.
Qed.

Lemma cond_kind_settles :
  forall e,
    (forall e', smaller e' e -> (expr_settles ctx) e') ->
    (forall e', smaller e' e -> (cond_settles ctx) e') ->
    (is_bool e = false -> (expr_settles ctx) e) ->
    forall st,
      settles (fun m => check_condition_kind ctx (check_expr ctx m)
                          (check_condition ctx m) e st).
Proof.
  intros e IHe IHc Hexpr st. unfold check_condition_kind.
  destruct e; try (apply Hexpr; reflexivity).
  - clear Hexpr. settle IHe IHc.
  - destruct (String.eqb op "not") eqn:Hop.
    + clear Hexpr. settle IHe IHc.
    + apply Hexpr. cbn. now rewrite Hop.
Qed.

Lemma cond_settles_of_kind :
  forall e,
    (forall st,
       settles (fun m => check_condition_kind ctx (check_expr ctx m)
                           (check_condition ctx m) e st)) ->
    (cond_settles ctx) e.
Proof.
  intros e H st. apply settles_shift. cbn [check_condition].
  unfold check_condition_body. apply settles_step; [apply H|].
  intros n c v s _. destruct (typ c); cbn [attr];
    [destruct (negb _)|]; apply settles_const; discriminate.
Qed.

Lemma settles_by_order :
  forall k s e,
    nesting e <= k -> size e <= s -> (expr_settles ctx) e /\ (cond_settles ctx) e.
Proof.
  induction k as [k IHk] using lt_wf_ind.
  induction s as [s IHs] using lt_wf_ind.
  intros e Hk Hs.
  assert (IH : forall e', smaller e' e -> (expr_settles ctx) e' /\ (cond_settles ctx) e').
  { intros e' [Hn|[Hn Hsz]].
    - apply (IHk (nesting e')) with (s := size e'); lia.
    - apply (IHs (size e')); lia. }
  assert (IHe : forall e', smaller e' e -> (expr_settles ctx) e')
    by (intros e' H; apply (IH e' H)).
  assert (IHc : forall e', smaller e' e -> (cond_settles ctx) e')
    by (intros e' H; apply (IH e' H)).
  destruct (is_bool e) eqn:Hb.
  - assert (Hc : (cond_settles ctx) e).
    { apply cond_settles_of_kind. apply cond_kind_settles; auto.
      congruence. }
    split; [|exact Hc].
    apply expr_settles_of_kind. apply expr_kind_settles; auto.
  - assert (He : (expr_settles ctx) e).
    { apply expr_settles_of_kind. apply expr_kind_settles; auto.
      congruence. }
    split; [exact He|].
    apply cond_settles_of_kind. apply cond_kind_settles; auto.
Qed.

End Settles.

(** The checks of expressions end: for every expression, every state and
    either way of checking there is an amount of fuel from which on
    [check_expr] and [check_condition] give one result, a return or an
    exception. *)
Lemma check_expr_settles :
  forall ctx e rv st, settles (fun m => check_expr ctx m e rv st).
Proof.
  intros ctx e rv st.
  apply (proj1 (settles_by_order ctx (nesting e) (size e) e
                  (le_n _) (le_n _))).
Qed.

Lemma check_condition_settles :
  forall ctx e st, settles (fun m => check_condition ctx m e st).
Proof.
  intros ctx e st.
  apply (proj2 (settles_by_order ctx (nesting e) (size e) e
                  (le_n _) (le_n _))).
Qed.

(** Induction over statements, through the lists of statements they hold. *)
Lemma stmt_induction :
  forall P : stmt -> Prop,
    (forall l ss, Forall P ss -> P (Compound l ss)) ->
    (forall l, P (Empty l)) ->
    (forall l a b, P (Assignment l a b)) ->
    (forall l e, P (ExpressionStatement l e)) ->
    (forall l c t f, P t -> P f -> P (If l c t f)) ->
    (forall l e, P (Return l e)) ->
    (forall l c b, P b -> P (While l c b)) ->
    (forall l i c b f, P i -> P b -> P f -> P (For l i c b f)) ->
    (forall l e options,
       Forall (fun o : option expr * stmt => P (snd o)) options ->
       P (Switch l e options)) ->
    forall s, P s.
Proof.
  intros P HC HE HA HX HI HR HW HF HS.
  fix IH 1. intros s. destruct s.
  - apply HC.
    exact ((fix all (ss : list stmt) : Forall P ss :=
              match ss with
              | [] => Forall_nil P
              | x :: r => Forall_cons x (IH x) (all r)
              end) statements).
  - apply HE.
  - apply HA.
  - apply HX.
  - apply HI; apply IH.
  - apply HR.
  - apply HW; apply IH.
  - apply HF; apply IH.
  - apply HS.
    exact ((fix all (os : list (option expr * stmt))
              : Forall (fun o => P (snd o)) os :=
              match os with
              | [] => Forall_nil _
              | o :: r => Forall_cons o (IH (snd o)) (all r)
              end) options).
Qed.

Lemma catch_settles :
  forall {N} (f : nat -> R N unit), settles f -> settles (fun m => catch (f m)).
Proof.
  intros N f H. apply (settles_map f catch H).
  intros [[n s] [[]|[m l| | |]|]] Hr; cbn in *; congruence.
Qed.

Section StatementsSettle.

Variable ctx : Context.

Ltac settle_stmt :=
  cbv zeta;
  repeat first
    [ apply settles_const; discriminate
    | apply check_expr_settles
    | apply check_condition_settles
    | apply do_coerce_settles
    | assumption
    | match goal with
      | |- expr_settles _ _ => intros ? ?; apply check_expr_settles
      | H : (stmt_settles ctx) ?c |- settles (fun m => check_stmt ctx m ?c _) =>
          apply H
      | |- settles (fun m => attr ?o _ _ _) => destruct o; cbn [attr]
      | |- settles (fun m => if ?b then _ else _) => destruct b
      | |- settles (fun m => match ?x with _ => _ end) => destruct x
      | |- settles (fun m => step _ _ _) =>
          apply settles_step; [|intros ? ? ? ? _]
      end ].

Lemma check_statements_settles :
  forall ss,
    Forall (stmt_settles ctx) ss ->
    forall st,
      settles (fun m => check_statements (check_stmt ctx m) ss st).
Proof.
  induction 1 as [|x r Hx Hr IH]; intros st; cbn [check_statements].
  - apply settles_const. discriminate.
  - apply settles_step; [apply Hx|]. intros n c v s _.
    apply settles_step; [apply IH|]. intros. apply settles_const. discriminate.
Qed.

Lemma check_options_settles :
  forall options,
    Forall (fun o : option expr * stmt => (stmt_settles ctx) (snd o)) options ->
    forall d st,
      settles (fun m => check_options ctx m (check_stmt ctx m) options d st).
Proof.
  induction 1 as [|[v c] r Hx Hr IH]; intros d st; cbn [check_options].
  - apply settles_const. discriminate.
  - cbn [snd] in Hx. apply settles_step; [apply Hx|]. intros n c1 u s _.
    destruct v as [v|].
    + apply settles_step; [apply check_expr_settles|]. intros n2 v1 u2 s2 _.
      apply settles_step; [apply IH|].
      intros. apply settles_const. discriminate.
    + apply settles_step; [apply IH|].
      intros. apply settles_const. discriminate.
Qed.

Lemma check_function_call_settles :
  forall n proc args st,
    settles (fun m => check_function_call ctx (check_expr ctx m) n proc args st).
Proof.
  intros n proc args st.
  apply (expr_kind_settles ctx (FunctionCall n proc args)).
  - intros e' _ rv st'. apply check_expr_settles.
  - discriminate.
Qed.

Lemma check_stmt_settles : forall code, (stmt_settles ctx) code.
Proof.
  induction code using stmt_induction; intros st;
    cbn [check_stmt]; apply catch_settles; cbn [check_stmt_kind].
  - apply settles_step; [now apply check_statements_settles|].
    intros. apply settles_const. discriminate.
  - apply settles_const. discriminate.
  - unfold check_assignment_stmt. settle_stmt.
  - unfold check_expression_stmt. destruct e; settle_stmt.
    apply check_function_call_settles.
  - unfold check_if_stmt. settle_stmt.
  - unfold check_return_stmt. settle_stmt.
  - unfold check_while. settle_stmt.
  - unfold check_for_stmt. settle_stmt.
  - unfold check_switch_stmt.
    apply settles_step; [apply check_expr_settles|]. intros n c v s _.
    destruct (typ c); cbn [attr]; [|apply settles_const; discriminate].
    destruct (negb _); [apply settles_const; discriminate|].
    apply settles_step; [now apply check_options_settles|].
    intros. settle_stmt.
Qed.

Lemma check_function_settles :
  forall function st, settles (fun m => check_function ctx m function st).
Proof.
  intros function st. unfold check_function.
  destruct (check_parameters ctx (f_loc function) (parameters function))
    as [[msg l]|]; [apply settles_const; discriminate|].
  destruct (negb _); [apply settles_const; discriminate|].
  destruct (check_types ctx (map v_typ (inner_scope function)))
    as [[msg l]|]; [apply settles_const; discriminate|].
  destruct (body function) as [code|]; [|apply settles_const; discriminate].
  apply settles_step; [apply check_stmt_settles|].
  intros. apply settles_const. discriminate.
Qed.

Lemma check_functions_settles :
  forall funcs st, settles (fun m => check_functions ctx m funcs st).
Proof.
  induction funcs as [|f rest IH]; intros st; cbn [check_functions].
  - apply settles_const. discriminate.
  - apply settles_step;
      [apply catch_settles; apply check_function_settles|].
    intros n c v s _. apply settles_step; [apply IH|].
    intros. apply settles_const. discriminate.
Qed.

Lemma check_variables_returns :
  forall vars, check_variables ctx vars <> OutOfFuel.
Proof.
  induction vars as [|v rest IH]; cbn [check_variables]; [discriminate|].
  destruct (isLocal v); [discriminate|].
  destruct (context_check_type ctx (v_typ v)) as [[m l]|];
    [discriminate|exact IH].
Qed.

Lemma check_module_settles :
  forall module st, settles (fun m => check_module ctx m module st).
Proof.
  intros module st. unfold check_module. cbv zeta.
  apply settles_step.
  - apply settles_const. unfold check_declarations.
    destruct (check_types ctx (types module)) as [[m l]|];
      [cbn; discriminate|].
    pose proof (check_variables_returns (variables module)) as H.
    destruct (check_variables ctx (variables module)) as [[]|[m l| | |]|];
      cbn; congruence.
  - intros n c v s _. apply settles_step; [apply check_functions_settles|].
    intros n2 fs v2 s2 _. destruct (negb _); apply settles_const; discriminate.
Qed.

End StatementsSettle.

(** The pass ends: for every context, every list of modules and every
    state there is an amount of fuel from which on [check] gives one result,
    a return or an exception. *)
Lemma check_settles :
  forall ctx modules st, settles (fun m => check ctx m modules st).
Proof.
  intros ctx modules. induction modules as [|module rest IH]; intros st;
    cbn [check].
  - apply settles_const. discriminate.
  - apply settles_step; [apply check_module_settles|].
    intros n c v s _. apply settles_step; [apply IH|].
    intros. apply settles_const. discriminate.
Qed.

(** ** What has been reported stays reported *)

Lemma grows_refl : forall s, grows s s.
Proof. intros s. exists []. now rewrite app_nil_r. Qed.

Lemma grows_trans : forall a b c, grows a b -> grows b c -> grows a c.
Proof.
  intros a b c [t1 H1] [t2 H2]. exists (t1 ++ t2)%list.
  now rewrite H2, H1, app_assoc.
Qed.

Lemma grows_error : forall a b m l, grows a b -> grows a (error m l b).
Proof.
  intros a b m l [t H]. exists (t ++ [(m, l)])%list.
  cbn. now rewrite H, app_assoc.
Qed.

Ltac grows_chain :=
  cbn [state fst snd];
  repeat first
    [ assumption
    | apply grows_refl
    | apply grows_error
    | match goal with
      | H : grows ?y ?z |- grows _ ?z =>
          apply (fun p => grows_trans _ y z p H)
      end ].

Section Grows.

Variable ctx : Context.
Variable rec_expr : expr -> bool -> cstate -> R expr unit.
Variable rec_cond : expr -> cstate -> R expr unit.

Hypothesis rec_expr_grows :
  forall e rv st, grows st (state (rec_expr e rv st)).
Hypothesis rec_cond_grows :
  forall e st, grows st (state (rec_cond e st)).

Lemma do_coerce_grows :
  forall e t st, grows st (state (do_coerce ctx rec_expr e t st)).
Proof.
  intros e t st. destruct (typ e) as [have|] eqn:Ht.
  - rewrite (do_coerce_typed _ _ _ _ _ _ Ht).
    destruct (equal_types ctx have t).
    + pose proof (rec_expr_grows e false st) as H.
      destruct (rec_expr e false st) as [[e1 s1] [[]| |]]; exact H.
    + destruct (coercible ctx have t); [|apply grows_refl].
      pose proof (rec_expr_grows (TypeCast (new_ann (loc e)) t e) false st)
        as H.
      destruct (rec_expr (TypeCast (new_ann (loc e)) t e) false st)
        as [[c s1] [[]| |]]; exact H.
  - unfold do_coerce. rewrite Ht. apply grows_refl.
Qed.

Ltac grows_call :=
  match goal with
  | |- context [attr ?o _ _ _] => destruct o; cbn [attr]
  | |- context [if ?b then _ else _] => destruct b
  | |- context [match ?x with _ => _ end] => destruct x
  | |- context [step (rec_expr ?a ?rv ?s) _ _] =>
      let H := fresh "H" in
      pose proof (rec_expr_grows a rv s) as H;
      destruct (rec_expr a rv s) as [[? ?] [[]| |]];
      cbn [step state fst snd] in *
  | |- context [step (rec_cond ?a ?s) _ _] =>
      let H := fresh "H" in
      pose proof (rec_cond_grows a s) as H;
      destruct (rec_cond a s) as [[? ?] [[]| |]];
      cbn [step state fst snd] in *
  | |- context [step (do_coerce ctx rec_expr ?a ?t ?s) _ _] =>
      let H := fresh "H" in
      pose proof (do_coerce_grows a t s) as H;
      destruct (do_coerce ctx rec_expr a t s) as [[? ?] [?| |]];
      cbn [step state fst snd] in *
  end.

Lemma check_arguments_grows :
  forall args ptypes st,
    grows st (state (check_arguments ctx rec_expr args ptypes st)).
Proof.
  induction args as [|a rest IH]; intros ptypes st; cbn [check_arguments];
    [apply grows_refl|].
  destruct ptypes as [|t ptypes]; [apply grows_refl|].
  repeat grows_call; try solve [grows_chain].
  match goal with
  | |- context [check_arguments ctx rec_expr rest ptypes ?s] =>
      pose proof (IH ptypes s) as Hr;
      destruct (check_arguments ctx rec_expr rest ptypes s)
        as [[? ?] [?| |]]; cbn [step state fst snd] in *
  end; grows_chain.
Qed.

Lemma check_expr_body_grows :
  forall e rv st,
    grows st (state (check_expr_body ctx rec_expr rec_cond e rv st)).
Proof.
  intros e rv st. unfold check_expr_body.
  assert (H : grows st (state (check_expr_kind ctx rec_expr rec_cond e st))).
  { unfold check_expr_kind. destruct (is_bool e).
    - unfold check_bool_expr. grows_call; grows_chain.
    - destruct e; unfold check_binop, check_unop, check_identifier,
        check_dereference, check_member_expr, check_index_expr,
        check_literal_expr, check_type_cast, check_sizeof,
        check_function_call, check_type; cbv zeta;
        repeat grows_call; try solve [grows_chain].
      all: match goal with
           | |- context [check_arguments ctx rec_expr ?a ?p ?s] =>
               pose proof (check_arguments_grows a p s) as Hr;
               destruct (check_arguments ctx rec_expr a p s)
                 as [[? ?] [?| |]]; cbn [step state fst snd] in *
           end; repeat grows_call; grows_chain. }
  destruct (check_expr_kind ctx rec_expr rec_cond e st)
    as [[e1 s1] [[]| |]]; cbn [step state fst snd] in *; try assumption.
  unfold make_rvalue. repeat grows_call; grows_chain.
Qed.

Lemma check_condition_body_grows :
  forall e st,
    grows st (state (check_condition_body ctx rec_expr rec_cond e st)).
Proof.
  intros e st. unfold check_condition_body.
  assert (H : grows st
                (state (check_condition_kind ctx rec_expr rec_cond e st))).
  { unfold check_condition_kind.
    destruct e; try apply rec_expr_grows; cbv zeta;
      repeat first [progress cbn [step] | grows_call];
      try solve [grows_chain]; apply rec_expr_grows. }
  destruct (check_condition_kind ctx rec_expr rec_cond e st)
    as [[e1 s1] [[]| |]]; cbn [step state fst snd] in *; try assumption.
  repeat grows_call; grows_chain.
Qed.

End Grows.

Lemma check_expr_grows :
  forall ctx fuel,
    (forall e rv st, grows st (state (check_expr ctx fuel e rv st)))
    /\ (forall e st, grows st (state (check_condition ctx fuel e st))).
Proof.
  intros ctx fuel. induction fuel as [|n [IHe IHc]].
  - split; intros; apply grows_refl.
  - split; intros; cbn [check_expr check_condition].
    + now apply check_expr_body_grows.
    + now apply check_condition_body_grows.
Qed.

Lemma catch_grows :
  forall {N} st (r : R N unit),
    grows st (state r) -> grows st (state (catch r)).
Proof.
  intros N st [[n s] [[]|[m l| | |]|]] H; cbn in *; try assumption.
  now apply grows_error.
Qed.

Section StatementsGrow.

Variable ctx : Context.
Variable fuel : nat.

Ltac known_grows :=
  first
    [ apply (proj1 (check_expr_grows ctx fuel))
    | apply (proj2 (check_expr_grows ctx fuel))
    | apply do_coerce_grows; apply (proj1 (check_expr_grows ctx fuel))
    | apply check_arguments_grows; apply (proj1 (check_expr_grows ctx fuel))
    | match goal with
      | H : (stmt_grows ctx fuel) ?c |- grows _ (state (check_stmt ctx fuel ?c _)) =>
          apply H
      end ].

Ltac grows_stmt_call :=
  match goal with
  | |- context [attr ?o _ _ _] => destruct o; cbn [attr]
  | |- context [if ?b then _ else _] => destruct b
  | |- context [match ?x with _ => _ end] => destruct x
  | |- context [step ?r _ _] =>
      let H := fresh "H" in
      eassert (H : grows _ (state r)) by known_grows;
      destruct r as [[? ?] [?| |]]; cbn [step state fst snd] in *
  end.

Lemma check_statements_grows :
  forall ss,
    Forall (stmt_grows ctx fuel) ss ->
    forall st,
      grows st (state (check_statements (check_stmt ctx fuel) ss st)).
Proof.
  induction 1 as [|x r Hx Hr IH]; intros st; cbn [check_statements].
  - apply grows_refl.
  - pose proof (Hx st) as H1.
    destruct (check_stmt ctx fuel x st) as [[x1 s1] [[]| |]];
      cbn [step state fst snd] in *; try assumption.
    pose proof (IH s1) as H2.
    destruct (check_statements (check_stmt ctx fuel) r s1)
      as [[r1 s2] [[]| |]]; grows_chain.
Qed.

Lemma check_options_grows :
  forall options,
    Forall (fun o : option expr * stmt => (stmt_grows ctx fuel) (snd o)) options ->
    forall d st,
      grows st
        (state (check_options ctx fuel (check_stmt ctx fuel) options d st)).
Proof.
  induction 1 as [|[v c] r Hx Hr IH]; intros d st; cbn [check_options].
  - apply grows_refl.
  - cbn [snd] in Hx. pose proof (Hx st) as H1.
    destruct (check_stmt ctx fuel c st) as [[c1 s1] [[]| |]];
      cbn [step state fst snd] in *; try assumption.
    destruct v as [v|].
    + pose proof (proj1 (check_expr_grows ctx fuel) v false s1) as H2.
      destruct (check_expr ctx fuel v false s1) as [[v1 s2] [[]| |]];
        cbn [step state fst snd] in *; try solve [grows_chain].
      pose proof (IH d s2) as H3.
      destruct (check_options ctx fuel (check_stmt ctx fuel) r d s2)
        as [[r1 s3] [d1| |]]; grows_chain.
    + pose proof (IH true s1) as H3.
      destruct (check_options ctx fuel (check_stmt ctx fuel) r true s1)
        as [[r1 s3] [d1| |]]; grows_chain.
Qed.

Lemma check_stmt_grows : forall code, (stmt_grows ctx fuel) code.
Proof.
  induction code using stmt_induction; intros st;
    cbn [check_stmt]; apply catch_grows; cbn [check_stmt_kind].
  - pose proof (check_statements_grows ss H st) as H1.
    destruct (check_statements (check_stmt ctx fuel) ss st)
      as [[r1 s1] [[]| |]]; grows_chain.
  - apply grows_refl.
  - unfold check_assignment_stmt. repeat grows_stmt_call; grows_chain.
  - unfold check_expression_stmt. destruct e; try apply grows_refl.
    pose proof (check_expr_body_grows ctx (check_expr ctx fuel)
                  (check_condition ctx fuel)
                  (proj1 (check_expr_grows ctx fuel))
                  (proj2 (check_expr_grows ctx fuel))
                  (FunctionCall n e args) false st) as H1.
    unfold check_expr_body, check_expr_kind in H1. cbn [is_bool] in H1.
    destruct (check_function_call ctx (check_expr ctx fuel) n e args st)
      as [[e1 s1] [[]| |]]; cbn [step state fst snd make_rvalue] in *;
      repeat grows_stmt_call; grows_chain.
  - unfold check_if_stmt. repeat grows_stmt_call; grows_chain.
  - unfold check_return_stmt. repeat grows_stmt_call; grows_chain.
  - unfold check_while. repeat grows_stmt_call; grows_chain.
  - unfold check_for_stmt. repeat grows_stmt_call; grows_chain.
  - unfold check_switch_stmt.
    pose proof (proj1 (check_expr_grows ctx fuel) e true st) as H1.
    destruct (check_expr ctx fuel e true st) as [[e1 s1] [[]| |]];
      cbn [step state fst snd] in *; try assumption.
    destruct (typ e1); cbn [attr]; [|assumption].
    destruct (negb _); [assumption|].
    pose proof (check_options_grows options H false s1) as H2.
    destruct (check_options ctx fuel (check_stmt ctx fuel) options false s1)
      as [[o1 s2] [d| |]]; cbn [step state fst snd] in *;
      try destruct (negb d); grows_chain.
Qed.

Lemma check_function_grows :
  forall function st, grows st (state (check_function ctx fuel function st)).
Proof.
  intros function st. unfold check_function.
  destruct (check_parameters ctx (f_loc function) (parameters function))
    as [[msg l]|]; [apply grows_refl|].
  destruct (negb _); [apply grows_refl|].
  destruct (check_types ctx (map v_typ (inner_scope function)))
    as [[msg l]|]; [apply grows_refl|].
  destruct (body function) as [code|]; [|apply grows_refl].
  pose proof (check_stmt_grows code st) as H.
  destruct (check_stmt ctx fuel code st) as [[c s1] [[]| |]]; exact H.
Qed.

Lemma check_functions_grows :
  forall funcs st, grows st (state (check_functions ctx fuel funcs st)).
Proof.
  induction funcs as [|f rest IH]; intros st; cbn [check_functions].
  - apply grows_refl.
  - pose proof (catch_grows st _ (check_function_grows f st)) as H1.
    destruct (catch (check_function ctx fuel f st)) as [[f1 s1] [[]| |]];
      cbn [step state fst snd] in *; try assumption.
    pose proof (IH s1) as H2.
    destruct (check_functions ctx fuel rest s1) as [[r1 s2] [[]| |]];
      grows_chain.
Qed.

Lemma check_module_grows :
  forall module st, grows st (state (check_module ctx fuel module st)).
Proof.
  intros module st. unfold check_module. cbv zeta.
  assert (H0 : grows st (mk_cstate true (diag st)))
    by (exists []; cbn; now rewrite app_nil_r).
  assert (H1 : grows (mk_cstate true (diag st))
                 (state (check_declarations ctx module
                           (mk_cstate true (diag st))))).
  { unfold check_declarations. apply catch_grows.
    destruct (check_types ctx (types module)) as [[m l]|]; apply grows_refl. }
  destruct (check_declarations ctx module (mk_cstate true (diag st)))
    as [[m1 s1] [[]| |]]; cbn [step state fst snd] in *;
    try solve [grows_chain].
  pose proof (check_functions_grows (functions module) s1) as H2.
  destruct (check_functions ctx fuel (functions module) s1)
    as [[fs s2] [[]| |]]; cbn [step state fst snd] in *;
    try destruct (negb _); grows_chain.
Qed.

Lemma check_grows :
  forall modules st, grows st (state (check ctx fuel modules st)).
Proof.
  induction modules as [|m rest IH]; intros st; cbn [check].
  - apply grows_refl.
  - pose proof (check_module_grows m st) as H1.
    destruct (check_module ctx fuel m st) as [[m1 s1] [[]| |]];
      cbn [step state fst snd] in *; try assumption.
    pose proof (IH s1) as H2.
    destruct (check ctx fuel rest s1) as [[r1 s2] [[]| |]]; grows_chain.
Qed.

End StatementsGrow.


(** ** What the checks of expressions raise *)

(** The semantic errors that come out of [check_expr] and
    [check_condition] are those of the checker for expressions and those of
    the context, none of those the statements raise. *)
Section Raising.

Variable ctx : Context.
Hypothesis ctx_own : context_errors_own ctx.
Variable rec_expr : expr -> bool -> cstate -> R expr unit.
Variable rec_cond : expr -> cstate -> R expr unit.

Hypothesis rec_expr_raises :
  forall e rv st, raises_only expression_message (rec_expr e rv st).
Hypothesis rec_cond_raises :
  forall e st, raises_only expression_message (rec_cond e st).

Lemma resolve_symbol_raises :
  forall e m l, resolve_symbol ctx e = inr (m, l) -> expression_message m = true.
Proof.
  intros e m l H. destruct (proj1 ctx_own e m l H) as [text ->]. reflexivity.
Qed.

Lemma context_check_type_raises :
  forall t m l,
    context_check_type ctx t = Some (m, l) -> expression_message m = true.
Proof.
  intros t m l H. destruct (proj2 ctx_own t m l H) as [text ->]. reflexivity.
Qed.

Lemma is_module_ref_raises :
  forall e m l, is_module_ref ctx e = inr (m, l) -> expression_message m = true.
Proof.
  induction e; intros m l H; try discriminate.
  cbn [is_module_ref] in H. destruct e; try discriminate; try (eapply IHe; eassumption).
  destruct (resolve_symbol ctx (Identifier n0 target)) as [[]|[m0 l0]] eqn:E;
    try discriminate.
  inversion H; subst. eapply resolve_symbol_raises; eauto.
Qed.

Lemma do_coerce_raises :
  forall e t st, raises_only expression_message (do_coerce ctx rec_expr e t st).
Proof.
  intros e t st. destruct (typ e) as [have|] eqn:Ht.
  - rewrite (do_coerce_typed _ _ _ _ _ _ Ht).
    destruct (equal_types ctx have t).
    + pose proof (rec_expr_raises e false st) as H.
      destruct (rec_expr e false st) as [[e1 s1] [[]| |]]; exact H.
    + destruct (coercible ctx have t); [|reflexivity].
      pose proof (rec_expr_raises (TypeCast (new_ann (loc e)) t e) false st)
        as H.
      destruct (rec_expr (TypeCast (new_ann (loc e)) t e) false st)
        as [[c s1] [[]| |]]; exact H.
  - unfold do_coerce. rewrite Ht. exact I.
Qed.

Ltac raises_done :=
  first
    [ assumption
    | exact I
    | reflexivity
    | match goal with
      | H : resolve_symbol ctx _ = inr (?m, _) |- _ =>
          exact (resolve_symbol_raises _ _ _ H)
      | H : context_check_type ctx _ = Some (?m, _) |- _ =>
          exact (context_check_type_raises _ _ _ H)
      | H : is_module_ref ctx _ = inr (?m, _) |- _ =>
          exact (is_module_ref_raises _ _ _ H)
      end ].

Ltac raises_call :=
  match goal with
  | |- context [attr ?o _ _ _] => destruct o; cbn [attr]
  | |- context [if ?b then _ else _] => destruct b
  | |- context [step (rec_expr ?a ?rv ?s) _ _] =>
      let H := fresh "H" in
      pose proof (rec_expr_raises a rv s) as H;
      destruct (rec_expr a rv s) as [[? ?] [[]| |]];
      cbn [step] in *
  | |- context [step (rec_cond ?a ?s) _ _] =>
      let H := fresh "H" in
      pose proof (rec_cond_raises a s) as H;
      destruct (rec_cond a s) as [[? ?] [[]| |]];
      cbn [step] in *
  | |- context [step (do_coerce ctx rec_expr ?a ?t ?s) _ _] =>
      let H := fresh "H" in
      pose proof (do_coerce_raises a t s) as H;
      destruct (do_coerce ctx rec_expr a t s) as [[? ?] [?| |]];
      cbn [step] in *
  | |- context [match ?x with _ => _ end] =>
      let E := fresh "E" in destruct x eqn:E
  end.

Lemma check_arguments_raises :
  forall args ptypes st,
    raises_only expression_message (check_arguments ctx rec_expr args ptypes st).
Proof.
  induction args as [|a rest IH]; intros ptypes st; cbn [check_arguments];
    [exact I|].
  destruct ptypes as [|t ptypes]; [exact I|].
  repeat raises_call; try solve [raises_done].
  match goal with
  | |- context [check_arguments ctx rec_expr rest ptypes ?s] =>
      pose proof (IH ptypes s) as Hr;
      destruct (check_arguments ctx rec_expr rest ptypes s)
        as [[? ?] [?| |]]; cbn [step] in *
  end; raises_done.
Qed.

Lemma check_function_call_raises :
  forall n proc args st,
    raises_only expression_message
      (check_function_call ctx rec_expr n proc args st).
Proof.
  intros n proc args st. unfold check_function_call. cbv zeta.
  destruct (resolve_symbol ctx proc) as [[]|[m l]] eqn:E; try reflexivity.
  - destruct (negb _); [reflexivity|].
    pose proof (check_arguments_raises args parametertypes st) as Hr.
    destruct (check_arguments ctx rec_expr args parametertypes st)
      as [[? ?] [?| |]]; cbn [step] in *; try assumption.
    destruct (negb _); reflexivity.
  - unfold raises_only. cbn. eapply resolve_symbol_raises; eauto.
Qed.

Lemma check_expr_body_raises :
  forall e rv st,
    raises_only expression_message
      (check_expr_body ctx rec_expr rec_cond e rv st).
Proof.
  intros e rv st. unfold check_expr_body.
  assert (H : raises_only expression_message
                (check_expr_kind ctx rec_expr rec_cond e st)).
  { unfold check_expr_kind. destruct (is_bool e).
    - unfold check_bool_expr. raises_call; raises_done.
    - destruct e; try apply check_function_call_raises;
        unfold check_binop, check_unop, check_identifier,
        check_dereference, check_member_expr, check_index_expr,
        check_literal_expr, check_type_cast, check_sizeof, check_type;
        cbv zeta; repeat raises_call; unfold raises_only in *;
        cbn [result snd] in *; raises_done. }
  destruct (check_expr_kind ctx rec_expr rec_cond e st)
    as [[e1 s1] [[]| |]]; cbn [step] in *; try assumption.
  unfold make_rvalue. repeat raises_call; raises_done.
Qed.

Lemma check_condition_body_raises :
  forall e st,
    raises_only expression_message
      (check_condition_body ctx rec_expr rec_cond e st).
Proof.
  intros e st. unfold check_condition_body.
  assert (H : raises_only expression_message
                (check_condition_kind ctx rec_expr rec_cond e st)).
  { unfold check_condition_kind.
    destruct e; try apply rec_expr_raises; cbv zeta;
      repeat first [progress cbn [step] | raises_call];
      try solve [raises_done]; apply rec_expr_raises. }
  destruct (check_condition_kind ctx rec_expr rec_cond e st)
    as [[e1 s1] [[]| |]]; cbn [step] in *; try assumption.
  repeat raises_call; raises_done.
Qed.

End Raising.

Lemma check_expr_raises :
  forall ctx,
    context_errors_own ctx ->
    forall fuel,
      (forall e rv st,
         raises_only expression_message (check_expr ctx fuel e rv st))
      /\ (forall e st,
         raises_only expression_message (check_condition ctx fuel e st)).
Proof.
  intros ctx Hctx fuel. induction fuel as [|n [IHe IHc]].
  - split; intros; exact I.
  - split; intros; cbn [check_expr check_condition].
    + now apply check_expr_body_raises.
    + now apply check_condition_body_raises.
Qed.

Lemma example_context_errors : context_errors_own Example.ctx.
Proof.
  split.
  - intros e m l H. cbn [resolve_symbol Example.ctx] in H.
    unfold Example.resolve_symbol in H.
    repeat match type of H with
           | context [match ?x with _ => _ end] => destruct x
           end;
      inversion H; eauto.
  - intros t m l H. cbn [context_check_type Example.ctx] in H.
    unfold Example.check_type in H.
    destruct (Example.get_type t); inversion H; eauto.
Qed.

Lemma count_errors_error :
  forall p m l s,
    count_errors p (error m l s)
    = count_errors p s + (if p m then 1 else 0).
Proof.
  intros p m l s. unfold count_errors, error. cbn [diag].
  rewrite filter_app, length_app. cbn [filter fst].
  destruct (p m); reflexivity.
Qed.

Lemma check_options_case_value_error :
  forall ctx fuel rec pre v body post d st pre' sa d' body' sb v1 sc x,
    check_options ctx fuel rec pre d st = (pre', sa, Done d') ->
    rec body sa = (body', sb, Done tt) ->
    check_expr ctx fuel v false sb = (v1, sc, Raise x) ->
    check_options ctx fuel rec (pre ++ (Some v, body) :: post) d st
    = ((pre' ++ (Some v1, body') :: post)%list, sc, Raise x).
Proof.
  intros ctx fuel rec pre v body post.
  induction pre as [|[w c] pre IH];
    intros d st pre' sa d' body' sb v1 sc x Hp Hb Hv.
  - cbn in Hp. inversion Hp; subst. cbn [app check_options].
    rewrite Hb; cbn [step]. rewrite Hv. reflexivity.
  - cbn [app check_options] in *.
    destruct (rec c st) as [[c1 s1] [[]| |]]; cbn [step] in *;
      try discriminate.
    destruct w as [w|].
    + destruct (check_expr ctx fuel w false s1) as [[w1 s2] [[]| |]];
        cbn [step] in *; try discriminate.
      destruct (check_options ctx fuel rec pre d s2)
        as [[r s3] [d2| |]] eqn:E; cbn [step] in Hp; try discriminate.
      inversion Hp; subst.
      rewrite (IH _ _ _ _ _ _ _ _ _ _ E Hb Hv). reflexivity.
    + destruct (check_options ctx fuel rec pre true s1)
        as [[r s3] [d2| |]] eqn:E; cbn [step] in Hp; try discriminate.
      inversion Hp; subst.
      rewrite (IH _ _ _ _ _ _ _ _ _ _ E Hb Hv). reflexivity.
Qed.

(** *** The loops over cases, functions and modules *)

Lemma check_options_flag :
  forall ctx fuel rec options d st o s d',
    Forall (fun c : option expr * stmt => fst c <> None) options ->
    check_options ctx fuel rec options d st = (o, s, Done d') ->
    d' = d.
Proof.
  intros ctx fuel rec options.
  induction options as [|[v c] rest IH]; intros d st o s d' Hall H.
  - cbn in H. now inversion H.
  - inversion Hall as [|? ? Hv Hrest]; subst. cbn [fst] in Hv.
    destruct v as [v|]; [|congruence].
    cbn [check_options] in H.
    destruct (rec c st) as [[c1 s1] [[]| |]]; cbn [step] in H;
      try discriminate.
    destruct (check_expr ctx fuel v false s1) as [[v1 s2] [[]| |]];
      cbn [step] in H; try discriminate.
    destruct (check_options ctx fuel rec rest d s2) as [[r s3] [d2| |]] eqn:E;
      cbn [step] in H; try discriminate.
    inversion H; subst. eapply IH; eauto.
Qed.

Lemma check_functions_app :
  forall ctx fuel pre rest st pre' s1,
    check_functions ctx fuel pre st = (pre', s1, Done tt) ->
    check_functions ctx fuel (pre ++ rest) st
    = ((pre' ++ node (check_functions ctx fuel rest s1))%list,
       state (check_functions ctx fuel rest s1),
       result (check_functions ctx fuel rest s1)).
Proof.
  intros ctx fuel pre rest. induction pre as [|f pre IH]; intros st pre' s1 H.
  - cbn in H. inversion H; subst. cbn [app]. apply result_eta.
  - cbn [check_functions app] in *.
    destruct (catch (check_function ctx fuel f st)) as [[f1 sf] [[]| |]];
      cbn [step] in *; try discriminate.
    destruct (check_functions ctx fuel pre sf) as [[r sr] [[]| |]] eqn:E;
      cbn [step] in H; try discriminate.
    inversion H; subst. rewrite (IH _ _ _ E).
    destruct (check_functions ctx fuel rest s1) as [[r2 s2] [[]| |]];
      reflexivity.
Qed.

Lemma check_functions_not_semantic :
  forall ctx fuel funcs st msg l,
    result (check_functions ctx fuel funcs st) <> Raise (SemanticError msg l).
Proof.
  intros ctx fuel funcs. induction funcs as [|f rest IH]; intros st msg l.
  - cbn. congruence.
  - cbn [check_functions].
    pose proof (@catch_not_semantic _ (check_function ctx fuel f st) msg l)
      as Hc.
    destruct (catch (check_function ctx fuel f st)) as [[f1 sf] [[]| |]];
      cbn [step]; cbn in Hc |- *; try congruence.
    specialize (IH sf msg l).
    destruct (check_functions ctx fuel rest sf) as [[r sr] [[]| |]];
      cbn [step]; cbn in IH |- *; congruence.
Qed.

Lemma check_app :
  forall ctx fuel pre rest st pre' s1,
    check ctx fuel pre st = (pre', s1, Done tt) ->
    check ctx fuel (pre ++ rest) st
    = ((pre' ++ node (check ctx fuel rest s1))%list,
       state (check ctx fuel rest s1), result (check ctx fuel rest s1)).
Proof.
  intros ctx fuel pre rest. induction pre as [|m pre IH]; intros st pre' s1 H.
  - cbn in H. inversion H; subst. cbn [app]. apply result_eta.
  - cbn [check app] in *.
    destruct (check_module ctx fuel m st) as [[m1 sm] [[]| |]];
      cbn [step] in *; try discriminate.
    destruct (check ctx fuel pre sm) as [[r sr] [[]| |]] eqn:E;
      cbn [step] in H; try discriminate.
    inversion H; subst. rewrite (IH _ _ _ E).
    destruct (check ctx fuel rest s1) as [[r2 s2] [[]| |]]; reflexivity.
Qed.

(** A semantic error comes out of [check_module] only as the generic one
    raised at its end, after the loop over the functions has finished. *)
Lemma check_module_semantic_error :
  forall ctx fuel m st m' s2 msg l,
    check_module ctx fuel m st = (m', s2, Raise (SemanticError msg l)) ->
    msg = ErrorsOccurred /\ l = None /\ module_ok s2 = false
    /\ exists s0 fs,
         check_functions ctx fuel (functions m) s0 = (fs, s2, Done tt)
         /\ m' = with_functions m fs.
Proof.
  intros ctx fuel m st m' s2 msg l H. unfold check_module in H.
  pose proof (@catch_not_semantic _
    match check_types ctx (types m) with
    | Some (m0, l0) =>
        (m, mk_cstate true (diag st), Raise (SemanticError m0 l0))
    | None =>
        (m, mk_cstate true (diag st), check_variables ctx (variables m))
    end msg l) as Hd.
  fold (check_declarations ctx m (mk_cstate true (diag st))) in Hd.
  destruct (check_declarations ctx m (mk_cstate true (diag st)))
    as [[m1 s1] [[]| |]]; cbn [step] in H; cbn in Hd;
    try (inversion H; subst; congruence).
  pose proof (check_functions_not_semantic ctx fuel (functions m) s1 msg l)
    as Hf.
  destruct (check_functions ctx fuel (functions m) s1)
    as [[fs sf] [[]| |]] eqn:E; cbn [step] in H; cbn in Hf;
    try (inversion H; subst; congruence).
  destruct (module_ok sf) eqn:Hok; cbn [negb] in H; inversion H; subst.
  repeat split; auto. exists s1, fs. auto.
Qed.

(** ** The checker against its specification *)

(** *** The pass, module by module *)

(** C1 (as amended): [check] goes through the modules in order and stops
    at the first module whose check raises: the modules after it are not
    checked.  The semantic error it raises is the generic one, raised at the
    end of that module, after every function of that module was attempted. *)
Theorem check_stops_at_first_invalid_module :
  forall ctx fuel pre m post st pre' s1 m' s2 msg l,
    check ctx fuel pre st = (pre', s1, Done tt) ->
    check_module ctx fuel m s1 = (m', s2, Raise (SemanticError msg l)) ->
    check ctx fuel (pre ++ m :: post) st
      = ((pre' ++ m' :: post)%list, s2, Raise (SemanticError msg l))
    /\ msg = ErrorsOccurred /\ l = None /\ module_ok s2 = false
    /\ exists s0 fs,
         check_functions ctx fuel (functions m) s0 = (fs, s2, Done tt)
         /\ m' = with_functions m fs.
Proof.
  intros ctx fuel pre m post st pre' s1 m' s2 msg l Hpre Hm.
  split; [|eapply check_module_semantic_error; eauto].
  rewrite (check_app _ _ _ (m :: post) _ _ _ Hpre).
  cbn [check]. rewrite Hm. reflexivity.
Qed.

Lemma check_stops_at_first_invalid_module_witness :
  check Example.ctx 2 [first_module; second_module] Example.st0
  = ([first_module; second_module],
     mk_cstate false [(ReturnOnlySimple, Some 10)],
     Raise (SemanticError ErrorsOccurred None)).
Proof.
  exact (proj1 (check_stops_at_first_invalid_module Example.ctx 2 []
                  first_module [second_module] Example.st0 [] Example.st0
                  first_module (mk_cstate false [(ReturnOnlySimple, Some 10)])
                  ErrorsOccurred None eq_refl eq_refl)).
Defined.

(** C1 as stated fails: with two invalid modules, [check] raises at the
    end of the first one; the second module is left as it was and its error,
    which its own check reports, is never reported. *)
Lemma later_modules_not_checked :
  check Example.ctx 2 [first_module; second_module] Example.st0
  = ([first_module; second_module],
     mk_cstate false [(ReturnOnlySimple, Some 10)],
     Raise (SemanticError ErrorsOccurred None))
  /\ check_module Example.ctx 2 second_module Example.st0
     = (mk_module "second" [] [] [returns_array; returns_x_checked],
        mk_cstate false [(ReturnOnlySimple, Some 30)],
        Raise (SemanticError ErrorsOccurred None)).
Proof. repeat split. Qed.

(** *** Return statements *)

(** C2 (as amended): a return statement is checked by checking its
    expression as an rvalue, and nothing compares the type of that
    expression with the declared return type: when the expression checks,
    the statement reports nothing more, and the check of a function does the
    same for every simple declared return type. *)
Theorem return_checks_expression_only :
  forall ctx fuel function rt st,
    is_simple_type ctx (returntype function) = true ->
    is_simple_type ctx rt = true ->
    (forall l e e1 s1,
       check_expr ctx fuel e true st = (e1, s1, Done tt) ->
       check_stmt ctx fuel (Return l (Some e)) st
         = (Return l (Some e1), s1, Done tt))
    /\ check_function ctx fuel (with_returntype function rt) st
       = (with_returntype (node (check_function ctx fuel function st)) rt,
          state (check_function ctx fuel function st),
          result (check_function ctx fuel function st)).
Proof.
  intros ctx fuel function rt st Hf Hrt. split.
  - intros l e e1 s1 He.
    destruct fuel; cbn [check_stmt check_stmt_kind];
      unfold check_return_stmt; rewrite He; reflexivity.
  - unfold check_function, with_returntype; cbn [f_loc parameters returntype
      inner_scope body f_name].
    rewrite Hf, Hrt; cbn [negb].
    destruct (check_parameters ctx (f_loc function) (parameters function))
      as [[m l]|]; [reflexivity|].
    destruct (check_types ctx (map v_typ (inner_scope function)))
      as [[m l]|]; [reflexivity|].
    destruct (body function) as [code|] eqn:Hb;
      [|unfold node, state, result; cbn [fst snd]; now rewrite Hb].
    destruct (check_stmt ctx fuel code st) as [[c s1] [[]| |]]; reflexivity.
Qed.

Lemma return_checks_expression_only_witness :
  check_stmt Example.ctx 1 (Return 2 (Some (Example.str_lit 3 "abc")))
    Example.st0
  = (Return 2 (Some (Literal (mk_ann 3 (Some (BaseType "string")) (Some false))
                             (VStr "abc"))),
     Example.st0, Done tt).
Proof.
  exact (proj1 (return_checks_expression_only Example.ctx 1 returns_text
                  (NamedType "string") Example.st0 eq_refl eq_refl)
           2 (Example.str_lit 3 "abc") _ Example.st0 eq_refl).
Defined.

(** C2 as stated fails: a function declared to return [int] whose body
    returns a string literal is checked without any error. *)
Lemma return_of_other_type_accepted :
  typ (Literal (mk_ann 3 (Some (BaseType "string")) (Some false))
               (VStr "abc")) = Some (BaseType "string")
  /\ equal_types Example.ctx (BaseType "string") (returntype returns_text)
     = false
  /\ check_function Example.ctx 2 returns_text Example.st0
     = (mk_function "f" 0 [] (NamedType "int") []
          (Some (Compound 1
             [Return 2
                (Some (Literal
                         (mk_ann 3 (Some (BaseType "string")) (Some false))
                         (VStr "abc")))])),
        mk_cstate true [], Done tt).
Proof. repeat split. Qed.

(** *** The functions of a module *)

(** C3: when the check of one function of a module raises a semantic
    error, the error is reported and the loop goes on with the functions
    after it, from the state that holds the report; the report is still
    there when the loop ends. *)
Theorem function_errors_are_contained :
  forall ctx fuel pre f post st pre' s1 f' s2 msg l,
    check_functions ctx fuel pre st = (pre', s1, Done tt) ->
    check_function ctx fuel f s1 = (f', s2, Raise (SemanticError msg l)) ->
    check_functions ctx fuel (pre ++ f :: post) st
    = ((pre' ++ f'
          :: node (check_functions ctx fuel post (error msg l s2)))%list,
       state (check_functions ctx fuel post (error msg l s2)),
       result (check_functions ctx fuel post (error msg l s2)))
    /\ module_ok (error msg l s2) = false
    /\ In (msg, l)
         (diag (state (check_functions ctx fuel (pre ++ f :: post) st))).
Proof.
  intros ctx fuel pre f post st pre' s1 f' s2 msg l Hpre Hf.
  assert (E : check_functions ctx fuel (pre ++ f :: post) st
              = ((pre' ++ f'
                    :: node (check_functions ctx fuel post
                               (error msg l s2)))%list,
                 state (check_functions ctx fuel post (error msg l s2)),
                 result (check_functions ctx fuel post (error msg l s2)))).
  { rewrite (check_functions_app _ _ _ (f :: post) _ _ _ Hpre).
    cbn [check_functions]. rewrite Hf. cbn [catch step].
    destruct (check_functions ctx fuel post (error msg l s2))
      as [[r sr] [[]| |]]; reflexivity. }
  split; [exact E|split; [reflexivity|]].
  rewrite E.
  change (In (msg, l)
            (diag (state (check_functions ctx fuel post (error msg l s2))))).
  destruct (check_functions_grows ctx fuel post (error msg l s2))
    as [tail Ht].
  rewrite Ht. apply in_or_app. left.
  cbn. apply in_or_app. right. now left.
Qed.

Lemma function_errors_are_contained_witness :
  check_functions Example.ctx 2 [returns_struct; returns_x] Example.st0
  = ([returns_struct; returns_x_checked],
     mk_cstate false [(ReturnOnlySimple, Some 10)], Done tt).
Proof.
  exact (proj1 (function_errors_are_contained Example.ctx 2 [] returns_struct
                  [returns_x] Example.st0 [] Example.st0 returns_struct
                  Example.st0 ReturnOnlySimple (Some 10) eq_refl eq_refl)).
Defined.

(** *** Coercion *)

(** C4: for a node whose type is not the wanted one, [do_coerce] puts the
    node in a cast to the wanted type exactly for the pairs of the rule
    table, and the call returns that cast, the node checking as an rvalue as
    it did before; for every other pair it raises the "Cannot use ... as
    ..." error that names the type the node has and the wanted type. *)
Theorem do_coerce_rule_table :
  forall ctx fuel e want have st,
    typ e = Some have ->
    equal_types ctx have want = false ->
    (coercion_rule ctx have want ->
       forall e1 s1,
         check_expr ctx fuel e true st = (e1, s1, Done tt) ->
         do_coerce ctx (check_expr ctx (S fuel)) e want st
         = (e1, s1,
            Done (TypeCast (mk_ann (loc e) (Some want) (Some false)) want e1)))
    /\ (~ coercion_rule ctx have want ->
       forall fuel',
         do_coerce ctx (check_expr ctx fuel') e want st
         = (e, st,
            Raise (SemanticError (CannotUseAs have want) (Some (loc e)))))
    /\ (coercion_rule ctx have want \/ ~ coercion_rule ctx have want).
Proof.
  intros ctx fuel e want have st Ht Hne.
  repeat apply conj.
  - intros Hr e1 s1 He. apply coercible_rule in Hr.
    rewrite (do_coerce_typed _ _ _ _ _ _ Ht), Hne, Hr.
    cbn [check_expr]. unfold check_expr_body, check_expr_kind.
    cbn [is_bool]. unfold check_type_cast. rewrite He. reflexivity.
  - intros Hr fuel'.
    rewrite (do_coerce_typed _ _ _ _ _ _ Ht), Hne.
    destruct (coercible ctx have want) eqn:Hc; [|reflexivity].
    apply coercible_rule in Hc. contradiction.
  - destruct (coercible ctx have want) eqn:Hc.
    + left. now apply coercible_rule.
    + right. intros Hr. apply coercible_rule in Hr. congruence.
Qed.

Lemma do_coerce_rule_table_witness :
  do_coerce Example.ctx (check_expr Example.ctx 2)
       (Literal (mk_ann 1 (Some (BaseType "int")) (Some false)) (VInt 300))
       (NamedType "byte") Example.st0
     = (Literal (mk_ann 1 (Some (BaseType "int")) (Some false)) (VInt 300),
        Example.st0,
        Done (TypeCast (mk_ann 1 (Some (NamedType "byte")) (Some false))
                (NamedType "byte")
                (Literal (mk_ann 1 (Some (BaseType "int")) (Some false))
                   (VInt 300))))
  /\ do_coerce Example.ctx (check_expr Example.ctx 2)
       (Literal (mk_ann 1 (Some (BaseType "string")) (Some false))
          (VStr "abc"))
       (NamedType "int") Example.st0
     = (Literal (mk_ann 1 (Some (BaseType "string")) (Some false))
          (VStr "abc"),
        Example.st0,
        Raise (SemanticError
                 (CannotUseAs (BaseType "string") (NamedType "int"))
                 (Some 1))).
Proof.
  split.
  - refine (proj1 (do_coerce_rule_table Example.ctx 1
              (Literal (mk_ann 1 (Some (BaseType "int")) (Some false))
                 (VInt 300))
              (NamedType "byte") (BaseType "int") Example.st0
              eq_refl eq_refl) _ _ Example.st0 eq_refl).
    right; right; left. split; reflexivity.
  - refine (proj1 (proj2 (do_coerce_rule_table Example.ctx 1
              (Literal (mk_ann 1 (Some (BaseType "string")) (Some false))
                 (VStr "abc"))
              (NamedType "int") (BaseType "string") Example.st0
              eq_refl eq_refl)) _ 2).
    intros H. apply coercible_rule in H. discriminate H.
Defined.

(** *** Making an rvalue of an lvalue *)

(** C5: when an rvalue is required and the node is an lvalue after the
    dispatch over its class: if its type resolves to a pointer or a base
    type the node's lvalue flag becomes false and its type stays; if not,
    the check raises the "Cannot deref" error. *)
Theorem rvalue_of_lvalue :
  forall ctx fuel e st e1 s1 t,
    check_expr_kind ctx (check_expr ctx fuel) (check_condition ctx fuel) e st
      = (e1, s1, Done tt) ->
    lvalue e1 = Some true ->
    typ e1 = Some t ->
    (is_pointer (get_type ctx t) || is_base (get_type ctx t) = true ->
       check_expr ctx (S fuel) e true st = (assign_lvalue e1 false, s1, Done tt)
       /\ lvalue (assign_lvalue e1 false) = Some false
       /\ typ (assign_lvalue e1 false) = Some t)
    /\ (is_pointer (get_type ctx t) || is_base (get_type ctx t) = false ->
       check_expr ctx (S fuel) e true st
         = (e1, s1,
            Raise (SemanticError (CannotDeref (get_type ctx t))
                                 (Some (loc e1))))).
Proof.
  intros ctx fuel e st e1 s1 t Hk Hl Ht.
  split; intros Hp; cbn [check_expr]; unfold check_expr_body;
    rewrite Hk; cbn [step]; unfold make_rvalue;
    rewrite Hl; cbn [attr]; rewrite Ht; cbn [attr]; rewrite Hp; cbn [negb].
  - rewrite assign_lvalue_lvalue, assign_lvalue_typ. auto.
  - reflexivity.
Qed.

Lemma rvalue_of_lvalue_witness :
  check_expr Example.ctx 1 (Example.ident 1 "p") true Example.st0
    = (Identifier (mk_ann 1 (Some (PointerType (BaseType "int"))) (Some false))
         "p", Example.st0, Done tt)
  /\ check_expr Example.ctx 1 (Example.ident 1 "pt") true Example.st0
    = (Identifier (mk_ann 1 (Some Example.point) (Some true)) "pt",
       Example.st0,
       Raise (SemanticError (CannotDeref Example.point) (Some 1))).
Proof.
  split.
  - exact (proj1 (proj1 (rvalue_of_lvalue Example.ctx 0 (Example.ident 1 "p")
             Example.st0
             (Identifier
                (mk_ann 1 (Some (PointerType (BaseType "int"))) (Some true))
                "p")
             Example.st0 (PointerType (BaseType "int"))
             eq_refl eq_refl eq_refl) eq_refl)).
  - exact (proj2 (rvalue_of_lvalue Example.ctx 0 (Example.ident 1 "pt")
             Example.st0
             (Identifier (mk_ann 1 (Some Example.point) (Some true)) "pt")
             Example.st0 Example.point
             eq_refl eq_refl eq_refl) eq_refl).
Defined.

(** *** Assignment to something that is not an lvalue *)

(** C6: an assignment whose left-hand side checks to a simple type but is
    not an lvalue raises the "No valid lvalue" error, which [check_stmt]
    reports; the right-hand side is left as it was, never checked. *)
Theorem assignment_needs_lvalue :
  forall ctx fuel l lval rval st lv s1 t,
    check_expr ctx fuel lval false st = (lv, s1, Done tt) ->
    typ lv = Some t ->
    is_simple_type ctx t = true ->
    lvalue lv = Some false ->
    check_assignment_stmt ctx fuel l lval rval st
      = (Assignment l lv rval, s1,
         Raise (SemanticError (NoValidLvalueOf lv) (Some (loc lv))))
    /\ check_stmt ctx fuel (Assignment l lval rval) st
      = (Assignment l lv rval,
         error (NoValidLvalueOf lv) (Some (loc lv)) s1, Done tt).
Proof.
  intros ctx fuel l lval rval st lv s1 t Hl Ht Hs Hv.
  assert (E : check_assignment_stmt ctx fuel l lval rval st
              = (Assignment l lv rval, s1,
                 Raise (SemanticError (NoValidLvalueOf lv) (Some (loc lv))))).
  { unfold check_assignment_stmt. rewrite Hl. cbn [step].
    rewrite Ht. cbn [attr]. rewrite Hs. cbn [negb].
    rewrite Hv. reflexivity. }
  split; [exact E|].
  destruct fuel; cbn [check_stmt check_stmt_kind]; rewrite E; reflexivity.
Qed.

Lemma assignment_needs_lvalue_witness :
  check_stmt Example.ctx 2
    (Assignment 0 (Example.int_lit 1 5) (Example.ident 2 "x")) Example.st0
  = (Assignment 0
       (Literal (mk_ann 1 (Some (BaseType "int")) (Some false)) (VInt 5))
       (Example.ident 2 "x"),
     mk_cstate false
       [(NoValidLvalueOf
           (Literal (mk_ann 1 (Some (BaseType "int")) (Some false)) (VInt 5)),
         Some 1)],
     Done tt).
Proof.
  exact (proj2 (assignment_needs_lvalue Example.ctx 2 0 (Example.int_lit 1 5)
                  (Example.ident 2 "x") Example.st0
                  (Literal (mk_ann 1 (Some (BaseType "int")) (Some false))
                           (VInt 5))
                  Example.st0 (BaseType "int")
                  eq_refl eq_refl eq_refl eq_refl)).
Defined.

(** *** Switch without a default case *)

(** C7 (as amended): a switch whose scrutinee checks to [int], with no
    default case, and whose case bodies and case values are all checked
    without an exception coming out of the loop over the cases, reports one
    "No default case" error, at the switch, after what the cases reported,
    however many cases there are.

    When the check of a case value raises a semantic error, the check of
    the switch ends there: the cases after it are left unchecked, and
    [check_stmt] reports that error, after what the cases before reported,
    as the one report of the switch.  That error is no "No default case"
    error when the context raises messages of its own only, so the switch
    then adds none to those its case bodies have reported. *)
Theorem switch_without_default :
  (forall ctx fuel l e options st e1 s1 t o2 s2 d,
    check_expr ctx fuel e true st = (e1, s1, Done tt) ->
    typ e1 = Some t ->
    equal_types ctx (NamedType "int") t = true ->
    Forall (fun c : option expr * stmt => fst c <> None) options ->
    check_options ctx fuel (check_stmt ctx fuel) options false s1
      = (o2, s2, Done d) ->
    check_stmt ctx fuel (Switch l e options) st
      = (Switch l e1 o2, error NoDefaultCase (Some l) s2, Done tt)
    /\ diag (error NoDefaultCase (Some l) s2)
       = (diag s2 ++ [(NoDefaultCase, Some l)])%list)
  /\ (forall ctx fuel l e pre v body post st e1 s1 t pre' sa d body' sb
             v1 sc m l',
    check_expr ctx fuel e true st = (e1, s1, Done tt) ->
    typ e1 = Some t ->
    equal_types ctx (NamedType "int") t = true ->
    check_options ctx fuel (check_stmt ctx fuel) pre false s1
      = (pre', sa, Done d) ->
    check_stmt ctx fuel body sa = (body', sb, Done tt) ->
    check_expr ctx fuel v false sb = (v1, sc, Raise (SemanticError m l')) ->
    check_stmt ctx fuel (Switch l e (pre ++ (Some v, body) :: post)) st
      = (Switch l e1 (pre' ++ (Some v1, body') :: post), error m l' sc,
         Done tt)
    /\ diag (error m l' sc) = (diag sc ++ [(m, l')])%list
    /\ (context_errors_own ctx ->
        m <> NoDefaultCase
        /\ count_errors is_NoDefaultCase (error m l' sc)
           = count_errors is_NoDefaultCase sc)).
Proof.
  split.
  - intros ctx fuel l e options st e1 s1 t o2 s2 d He Ht Hi Hall Ho.
    split; [|reflexivity].
    assert (d = false) by (eapply check_options_flag; eauto). subst d.
    destruct fuel; cbn [check_stmt check_stmt_kind];
      unfold check_switch_stmt; rewrite He; cbn [step];
      rewrite Ht; cbn [attr]; rewrite Hi; cbn [negb];
      rewrite Ho; reflexivity.
  - intros ctx fuel l e pre v body post st e1 s1 t pre' sa d body' sb
      v1 sc m l' He Ht Hi Hp Hb Hv.
    split; [|split; [reflexivity|]].
    + pose proof (check_options_case_value_error ctx fuel (check_stmt ctx fuel)
                    pre v body post false s1 pre' sa d body' sb v1 sc _
                    Hp Hb Hv) as Ho.
      destruct fuel; cbn [check_stmt check_stmt_kind];
        unfold check_switch_stmt; rewrite He; cbn [step];
        rewrite Ht; cbn [attr]; rewrite Hi; cbn [negb];
        rewrite Ho; reflexivity.
    + intros Hctx.
      pose proof (proj1 (check_expr_raises ctx Hctx fuel) v false sb) as Hr.
      unfold raises_only in Hr. rewrite Hv in Hr. cbn [result snd] in Hr.
      assert (Hm : is_NoDefaultCase m = false)
        by (destruct m; try reflexivity; discriminate).
      split; [intros ->; discriminate|].
      rewrite count_errors_error, Hm. apply Nat.add_0_r.
Qed.

Lemma switch_without_default_witness :
  check_stmt Example.ctx 2
    (Switch 0 (Example.ident 1 "x")
       [(Some (Example.int_lit 2 1), Empty 3);
        (Some (Example.int_lit 4 2), Empty 5)]) Example.st0
  = (Switch 0 (Identifier (mk_ann 1 (Some (BaseType "int")) (Some false)) "x")
       [(Some (Literal (mk_ann 2 (Some (BaseType "int")) (Some false))
                 (VInt 1)), Empty 3);
        (Some (Literal (mk_ann 4 (Some (BaseType "int")) (Some false))
                 (VInt 2)), Empty 5)],
     mk_cstate false [(NoDefaultCase, Some 0)], Done tt)
  /\ check_stmt Example.ctx 2 switch_in_switch Example.st0
     = (switch_in_switch_checked,
        mk_cstate false
          [(NoDefaultCase, Some 3);
           (FromContext "undefined reference zz", Some 8)],
        Done tt)
  /\ FromContext "undefined reference zz" <> NoDefaultCase
  /\ count_errors is_NoDefaultCase
       (mk_cstate false
          [(NoDefaultCase, Some 3);
           (FromContext "undefined reference zz", Some 8)])
     = count_errors is_NoDefaultCase
         (mk_cstate false [(NoDefaultCase, Some 3)]).
Proof.
  split; [|split].
  - refine (proj1 (proj1 switch_without_default Example.ctx 2 0
             (Example.ident 1 "x")
             [(Some (Example.int_lit 2 1), Empty 3);
              (Some (Example.int_lit 4 2), Empty 5)]
             Example.st0 _ Example.st0 (BaseType "int") _ Example.st0 false
             eq_refl eq_refl eq_refl _ eq_refl)).
    repeat constructor; discriminate.
  - exact (proj1 (proj2 switch_without_default Example.ctx 2 0
             (Example.ident 1 "x")
             [(Some (Example.int_lit 2 1),
               Switch 3 (Example.ident 4 "y")
                 [(Some (Example.int_lit 5 2), Empty 6)])]
             (Example.ident 8 "zz") (Empty 7)
             [(Some (Example.int_lit 9 3), Empty 10)]
             Example.st0 _ Example.st0 (BaseType "int") _
             (mk_cstate false [(NoDefaultCase, Some 3)]) false _
             (mk_cstate false [(NoDefaultCase, Some 3)]) _
             (mk_cstate false [(NoDefaultCase, Some 3)]) _ _
             eq_refl eq_refl eq_refl eq_refl eq_refl eq_refl)).
  - exact (proj2 (proj2 (proj2 switch_without_default Example.ctx 2 0
             (Example.ident 1 "x")
             [(Some (Example.int_lit 2 1),
               Switch 3 (Example.ident 4 "y")
                 [(Some (Example.int_lit 5 2), Empty 6)])]
             (Example.ident 8 "zz") (Empty 7)
             [(Some (Example.int_lit 9 3), Empty 10)]
             Example.st0 _ Example.st0 (BaseType "int") _
             (mk_cstate false [(NoDefaultCase, Some 3)]) false _
             (mk_cstate false [(NoDefaultCase, Some 3)]) _
             (mk_cstate false [(NoDefaultCase, Some 3)]) _ _
             eq_refl eq_refl eq_refl eq_refl eq_refl eq_refl))
             example_context_errors).
Defined.

(** C7 as stated fails: the scrutinee is an [int] and there is no default
    case, but the value of the case does not resolve, the error of that
    value ends the check of the switch, and no "No default case" error is
    reported. *)
Lemma switch_case_value_error :
  check_expr Example.ctx 2 (Example.ident 1 "x") true Example.st0
    = (Identifier (mk_ann 1 (Some (BaseType "int")) (Some false)) "x",
       Example.st0, Done tt)
  /\ check_stmt Example.ctx 2
       (Switch 0 (Example.ident 1 "x")
          [(Some (Example.ident 2 "zz"), Empty 3)]) Example.st0
     = (Switch 0
          (Identifier (mk_ann 1 (Some (BaseType "int")) (Some false)) "x")
          [(Some (Example.ident 2 "zz"), Empty 3)],
        mk_cstate false [(FromContext "undefined reference zz", Some 2)],
        Done tt)
  /\ count_errors is_NoDefaultCase
       (state (check_stmt Example.ctx 2
                 (Switch 0 (Example.ident 1 "x")
                    [(Some (Example.ident 2 "zz"), Empty 3)]) Example.st0))
     = 0.
Proof. repeat split. Qed.

(** *** Coercion to the type the node has *)

(** C8 (as amended): when the type of the node already equals the wanted
    type, [do_coerce] puts the node in no cast and hands back the node it
    was given, but it does something: it checks that node once more, no
    rvalue required.  The node and the state after the call are those of
    that check, the call returns when that check returns and raises what it
    raises.  And coercing a cast node to the type it casts to leaves the
    type of that node, and the node handed back has that type. *)
Theorem do_coerce_same_type :
  forall ctx fuel,
    (forall e want have st,
       typ e = Some have ->
       equal_types ctx have want = true ->
       let r := do_coerce ctx (check_expr ctx fuel) e want st in
       node r = node (check_expr ctx fuel e false st)
       /\ state r = state (check_expr ctx fuel e false st)
       /\ kind_of (node r) = kind_of e
       /\ (forall v, result r = Done v -> v = node r)
       /\ (result (check_expr ctx fuel e false st) = Done tt ->
           result r = Done (node r))
       /\ (forall x, result (check_expr ctx fuel e false st) = Raise x ->
           result r = Raise x))
    /\ (forall n want a st,
       a_typ n = Some want ->
       let r := do_coerce ctx (check_expr ctx fuel) (TypeCast n want a)
                  want st in
       typ (node r) = Some want
       /\ (forall v, result r = Done v -> typ v = Some want)).
Proof.
  intros ctx fuel. split.
  - intros e want have st Ht He r. subst r.
    rewrite (do_coerce_typed _ _ _ _ _ _ Ht), He.
    pose proof (proj1 (check_keeps_kind ctx fuel) e false st) as Hk.
    destruct (check_expr ctx fuel e false st) as [[e1 s1] [[]| |]];
      cbn [step node state result fst snd] in *;
      repeat apply conj; auto; intros; congruence.
  - intros n want a st Hn r. subst r.
    assert (Ht : typ (TypeCast n want a) = Some want) by exact Hn.
    rewrite (do_coerce_typed _ _ _ _ _ _ Ht).
    destruct (equal_types ctx want want).
    + pose proof (check_cast_keeps_typ ctx fuel n want a false st Hn) as Hc.
      destruct (check_expr ctx fuel (TypeCast n want a) false st)
        as [[e1 s1] [[]| |]]; cbn [step node result fst snd] in *;
        split; auto; intros; congruence.
    + destruct (coercible ctx want want);
        [|cbn [node result fst snd]; split; [exact Hn|discriminate]].
      pose proof (check_cast_child ctx fuel (new_ann (a_loc n)) want
                    (TypeCast n want a) false st) as Hch.
      assert (Hin : typ (cast_child
                (node (check_expr ctx fuel
                         (TypeCast (new_ann (a_loc n)) want
                            (TypeCast n want a)) false st))
                (TypeCast n want a)) = Some want).
      { rewrite Hch. destruct fuel as [|fuel']; [exact Hn|].
        now apply check_cast_keeps_typ. }
      pose proof (check_cast_done_typ ctx fuel (new_ann (a_loc n)) want
                    (TypeCast n want a) false st) as Hd.
      unfold loc; cbn [ann_of].
      destruct (check_expr ctx fuel
                  (TypeCast (new_ann (a_loc n)) want (TypeCast n want a))
                  false st) as [[c s1] [[]| |]];
        cbn [node result fst snd] in *; split; auto; try discriminate.
      intros v Hv. inversion Hv; subst v. eapply Hd; reflexivity.
Qed.

Lemma do_coerce_same_type_witness :
  node (do_coerce Example.ctx (check_expr Example.ctx 2) x_as_rvalue
          (NamedType "int") Example.st0)
    = node (check_expr Example.ctx 2 x_as_rvalue false Example.st0)
  /\ typ (node (do_coerce Example.ctx (check_expr Example.ctx 2)
                  (TypeCast (mk_ann 1 (Some (NamedType "byte")) (Some false))
                     (NamedType "byte") x_as_rvalue)
                  (NamedType "byte") Example.st0))
     = Some (NamedType "byte").
Proof.
  split.
  - exact (proj1 (proj1 (do_coerce_same_type Example.ctx 2) x_as_rvalue
                    (NamedType "int") (BaseType "int") Example.st0
                    eq_refl eq_refl)).
  - exact (proj1 (proj2 (do_coerce_same_type Example.ctx 2)
                    (mk_ann 1 (Some (NamedType "byte")) (Some false))
                    (NamedType "byte") x_as_rvalue Example.st0 eq_refl)).
Defined.

(** C8 as stated fails: the call is no no-op and the node does not come
    back unchanged.  [x], made an rvalue, has the type [int]; coerced to
    [int] it comes back without a cast and an lvalue again.  And [not 5],
    checked, has the type [bool] and its operand has been reported; coerced
    to [bool] its operand is reported a second time. *)
Lemma same_type_coercion_checks_again :
  typ x_as_rvalue = Some (BaseType "int")
  /\ equal_types Example.ctx (BaseType "int") (NamedType "int") = true
  /\ do_coerce Example.ctx (check_expr Example.ctx 2) x_as_rvalue
       (NamedType "int") Example.st0
     = (x_as_lvalue, Example.st0, Done x_as_lvalue)
  /\ x_as_lvalue <> x_as_rvalue
  /\ check_expr Example.ctx 4 not_five false Example.st0
     = (not_five_checked,
        mk_cstate false [(ConditionMustBeBoolean, Some 2)], Done tt)
  /\ equal_types Example.ctx (BaseType "bool") (NamedType "bool") = true
  /\ do_coerce Example.ctx (check_expr Example.ctx 4) not_five_checked
       (NamedType "bool")
       (mk_cstate false [(ConditionMustBeBoolean, Some 2)])
     = (not_five_checked,
        mk_cstate false [(ConditionMustBeBoolean, Some 2);
                         (ConditionMustBeBoolean, Some 2)],
        Done not_five_checked).
Proof. repeat split. discriminate. Qed.

(** *** The attributes of a checked node *)

(** C9 (as amended): once [check_expr] has returned on a node, the node
    has its type and its lvalue flag.  They can be assigned again: a later
    [do_coerce] of the node to a type equal to its own checks the node once
    more, not requiring an rvalue, without any cast.

    A node checked as a condition only has its type when [check_condition]
    returns; when it is a comparison, an [and], an [or] or a [not], its
    lvalue flag is not assigned and is what it was before; any other node
    has gone through [check_expr] and has both.

    The callee of a call and the base of a member expression that names
    something in a module are not checked at all: the check of their parent
    leaves them as they were. *)
Theorem attributes_after_check :
  forall ctx fuel,
    (forall e rv st e1 s1,
       check_expr ctx fuel e rv st = (e1, s1, Done tt) ->
       checked e1
       /\ (forall want have st',
             typ e1 = Some have ->
             equal_types ctx have want = true ->
             node (do_coerce ctx (check_expr ctx fuel) e1 want st')
             = node (check_expr ctx fuel e1 false st')))
    /\ (forall e st e1 s1,
       check_condition ctx fuel e st = (e1, s1, Done tt) ->
       (exists t, typ e1 = Some t)
       /\ (is_bool e = true -> lvalue e1 = lvalue e)
       /\ (is_bool e = false -> checked e1))
    /\ (forall n proc args rv st,
       exists n' args',
         node (check_expr ctx fuel (FunctionCall n proc args) rv st)
         = FunctionCall n' proc args')
    /\ (forall n base field rv st,
       is_module_ref ctx (Member n base field) = inl true ->
       exists n',
         node (check_expr ctx fuel (Member n base field) rv st)
         = Member n' base field).
Proof.
  intros ctx fuel. repeat apply conj.
  - intros e rv st e1 s1 H. split.
    + eapply (proj1 (check_sets_attributes ctx fuel)); eauto.
    + intros want have st' Ht He.
      rewrite (do_coerce_typed _ _ _ _ _ _ Ht), He.
      destruct (check_expr ctx fuel e1 false st') as [[e2 s2] [[]| |]];
        reflexivity.
  - intros e st e1 s1 H. split.
    + eapply (proj2 (check_sets_attributes ctx fuel)); eauto.
    + eapply check_condition_lvalue; eauto.
  - apply check_expr_keeps_callee.
  - apply check_expr_keeps_module_base.
Qed.

Lemma attributes_after_check_witness :
  checked x_as_rvalue
  /\ node (do_coerce Example.ctx (check_expr Example.ctx 2) x_as_rvalue
             (NamedType "int") Example.st0)
     = node (check_expr Example.ctx 2 x_as_rvalue false Example.st0)
  /\ lvalue x_less_than_y_as_condition = lvalue x_less_than_y
  /\ checked (Identifier (mk_ann 2 (Some (BaseType "int")) (Some false)) "x")
  /\ (exists n',
        node (check_expr Example.ctx 2 io_count true Example.st0)
        = Member n' (Example.ident 2 "io") "count").
Proof.
  split; [|split; [|split; [|split]]].
  - exact (proj1 (proj1 (attributes_after_check Example.ctx 2)
                    (Example.ident 2 "x") true Example.st0 x_as_rvalue
                    Example.st0 eq_refl)).
  - exact (proj2 (proj1 (attributes_after_check Example.ctx 2)
                    (Example.ident 2 "x") true Example.st0 x_as_rvalue
                    Example.st0 eq_refl)
             (NamedType "int") (BaseType "int") Example.st0
             eq_refl eq_refl).
  - exact (proj1 (proj2 (proj1 (proj2 (attributes_after_check Example.ctx 3))
                           x_less_than_y Example.st0
                           x_less_than_y_as_condition Example.st0 eq_refl))
             eq_refl).
  - exact (proj2 (proj2 (proj1 (proj2 (attributes_after_check Example.ctx 3))
                           (Example.ident 2 "x") Example.st0
                           (Identifier
                              (mk_ann 2 (Some (BaseType "int")) (Some false))
                              "x")
                           (error ConditionMustBeBoolean (Some 2) Example.st0)
                           eq_refl))
             eq_refl).
  - exact (proj2 (proj2 (proj2 (attributes_after_check Example.ctx 2)))
             (new_ann 1) (Example.ident 2 "io") "count" true Example.st0
             eq_refl).
Defined.

(** C9 as stated fails.  The right-hand side [x] of [y = x] is checked
    as an rvalue, which makes its lvalue flag false; the coercion to the type
    of [y], the same type, puts no cast around it and checks it again, and
    the flag is true when the statement has been checked.  The condition
    [x < y] of an [if] is checked successfully and has its type, but no
    lvalue flag.  And the pass goes past a node without checking it:
    [io.count], where [io] is a module, is checked successfully while [io]
    gets neither attribute. *)
Lemma attributes_unset_or_assigned_again :
  check_expr Example.ctx 2 (Example.ident 2 "x") true Example.st0
    = (x_as_rvalue, Example.st0, Done tt)
  /\ do_coerce Example.ctx (check_expr Example.ctx 2) x_as_rvalue
       (BaseType "int") Example.st0
     = (x_as_lvalue, Example.st0, Done x_as_lvalue)
  /\ lvalue x_as_rvalue <> lvalue x_as_lvalue
  /\ check_stmt Example.ctx 2
       (Assignment 0 (Example.ident 1 "y") (Example.ident 2 "x")) Example.st0
     = (Assignment 0
          (Identifier (mk_ann 1 (Some (BaseType "int")) (Some true)) "y")
          x_as_lvalue,
        Example.st0, Done tt)
  /\ check_stmt Example.ctx 3 (If 0 x_less_than_y (Empty 4) (Empty 5))
       Example.st0
     = (If 0 x_less_than_y_as_condition (Empty 4) (Empty 5), Example.st0,
        Done tt)
  /\ typ x_less_than_y_as_condition = Some (BaseType "bool")
  /\ lvalue x_less_than_y_as_condition = None
  /\ check_expr Example.ctx 2 io_count true Example.st0
     = (Member (mk_ann 1 (Some (BaseType "int")) (Some false))
          (Example.ident 2 "io") "count",
        Example.st0, Done tt)
  /\ typ (Example.ident 2 "io") = None
  /\ lvalue (Example.ident 2 "io") = None.
Proof. repeat split. discriminate. Qed.

(** *** The base of an index or member expression *)

(** C10 (as amended): when the base of an index expression, or of a
    member expression that does not name something in a module, checks
    successfully and is not an lvalue, and every step the checker makes
    before its assertion succeeds (the index checks and coerces to [int] and
    the base is an array; the base is a well-formed structure with the
    field), the check fails the assertion.  That failure is not a semantic
    error: [check_stmt] lets it through without reporting it.  And whenever
    these checks return, the node is an lvalue.

    When one of those steps does not succeed the assertion is not reached,
    whether the base is an lvalue or not, and the check ends as that step
    does: with the exception of the check of the index; with the "Cannot
    index" error when the base is no array; with the exception of the
    coercion of the index; with the "Cannot select" error when the base is
    no structure; with the context's error when the structure is not well
    formed; with the "does not contain field" error when the field is
    missing.  A semantic error among these is reported by [check_stmt]. *)
Theorem base_must_be_lvalue :
  forall ctx fuel,
    (forall n base i st b1 s1 i1 s2 t et sz i2 s3 ci,
       check_expr ctx fuel base false st = (b1, s1, Done tt) ->
       lvalue b1 = Some false ->
       check_expr ctx fuel i true s1 = (i1, s2, Done tt) ->
       typ b1 = Some t ->
       get_type ctx t = ArrayType et sz ->
       do_coerce ctx (check_expr ctx fuel) i1 (NamedType "int") s2
         = (i2, s3, Done ci) ->
       check_index_expr ctx (check_expr ctx fuel) n base i st
         = (Index n b1 ci, s3, Raise AssertionError))
    /\ (forall n base field st b1 s1 t fields ft,
       is_module_ref ctx (Member n base field) = inl false ->
       check_expr ctx fuel base false st = (b1, s1, Done tt) ->
       lvalue b1 = Some false ->
       typ b1 = Some t ->
       get_type ctx t = StructureType fields ->
       context_check_type ctx (StructureType fields) = None ->
       field_type fields field = Some ft ->
       check_member_expr ctx (check_expr ctx fuel) n base field st
         = (Member (set_typ (set_lvalue n false) ft) b1 field, s1,
            Raise AssertionError))
    /\ (forall code st c s,
       check_stmt_kind ctx fuel (check_stmt ctx fuel) code st
         = (c, s, Raise AssertionError) ->
       check_stmt ctx fuel code st = (c, s, Raise AssertionError))
    /\ (forall n base i st e1 s1,
       check_index_expr ctx (check_expr ctx fuel) n base i st
         = (e1, s1, Done tt) ->
       lvalue e1 = Some true)
    /\ (forall n base field st e1 s1,
       check_member_expr ctx (check_expr ctx fuel) n base field st
         = (e1, s1, Done tt) ->
       lvalue e1 = Some true)
    /\ (forall n base i st b1 s1 i1 s2 x,
       check_expr ctx fuel base false st = (b1, s1, Done tt) ->
       check_expr ctx fuel i true s1 = (i1, s2, Raise x) ->
       check_index_expr ctx (check_expr ctx fuel) n base i st
         = (Index n b1 i1, s2, Raise x))
    /\ (forall n base i st b1 s1 i1 s2 t,
       check_expr ctx fuel base false st = (b1, s1, Done tt) ->
       check_expr ctx fuel i true s1 = (i1, s2, Done tt) ->
       typ b1 = Some t ->
       (forall et sz, get_type ctx t <> ArrayType et sz) ->
       check_index_expr ctx (check_expr ctx fuel) n base i st
         = (Index n b1 i1, s2,
            Raise (SemanticError (CannotIndex (get_type ctx t))
                     (Some (loc b1)))))
    /\ (forall n base i st b1 s1 i1 s2 t et sz i2 s3 x,
       check_expr ctx fuel base false st = (b1, s1, Done tt) ->
       check_expr ctx fuel i true s1 = (i1, s2, Done tt) ->
       typ b1 = Some t ->
       get_type ctx t = ArrayType et sz ->
       do_coerce ctx (check_expr ctx fuel) i1 (NamedType "int") s2
         = (i2, s3, Raise x) ->
       check_index_expr ctx (check_expr ctx fuel) n base i st
         = (Index n b1 i2, s3, Raise x))
    /\ (forall n base field st b1 s1 lv t,
       is_module_ref ctx (Member n base field) = inl false ->
       check_expr ctx fuel base false st = (b1, s1, Done tt) ->
       lvalue b1 = Some lv ->
       typ b1 = Some t ->
       (forall fields, get_type ctx t <> StructureType fields) ->
       check_member_expr ctx (check_expr ctx fuel) n base field st
         = (Member (set_lvalue n lv) b1 field, s1,
            Raise (SemanticError (CannotSelect field (get_type ctx t))
                     (Some (a_loc n)))))
    /\ (forall n base field st b1 s1 lv t fields m l,
       is_module_ref ctx (Member n base field) = inl false ->
       check_expr ctx fuel base false st = (b1, s1, Done tt) ->
       lvalue b1 = Some lv ->
       typ b1 = Some t ->
       get_type ctx t = StructureType fields ->
       context_check_type ctx (StructureType fields) = Some (m, l) ->
       check_member_expr ctx (check_expr ctx fuel) n base field st
         = (Member (set_lvalue n lv) b1 field, s1,
            Raise (SemanticError m l)))
    /\ (forall n base field st b1 s1 lv t fields,
       is_module_ref ctx (Member n base field) = inl false ->
       check_expr ctx fuel base false st = (b1, s1, Done tt) ->
       lvalue b1 = Some lv ->
       typ b1 = Some t ->
       get_type ctx t = StructureType fields ->
       context_check_type ctx (StructureType fields) = None ->
       field_type fields field = None ->
       check_member_expr ctx (check_expr ctx fuel) n base field st
         = (Member (set_lvalue n lv) b1 field, s1,
            Raise (SemanticError (NoSuchField (StructureType fields) field)
                     (Some (a_loc n)))))
    /\ (forall code st c s m l,
       check_stmt_kind ctx fuel (check_stmt ctx fuel) code st
         = (c, s, Raise (SemanticError m l)) ->
       check_stmt ctx fuel code st = (c, error m l s, Done tt)).
Proof.
  intros ctx fuel. repeat apply conj.
  - intros n base i st b1 s1 i1 s2 t et sz i2 s3 ci Hb Hl Hi Ht Hg Hc.
    unfold check_index_expr. rewrite Hb; cbn [step]. rewrite Hi; cbn [step].
    rewrite Ht; cbn [attr]. rewrite Hg. rewrite Hc; cbn [step].
    rewrite Hl. reflexivity.
  - intros n base field st b1 s1 t fields ft Hm Hb Hl Ht Hg Hc Hf.
    unfold check_member_expr. rewrite Hm. rewrite Hb; cbn [step].
    rewrite Hl; cbn [attr]. rewrite Ht; cbn [attr]. rewrite Hg.
    unfold check_type. rewrite Hc, Hf. reflexivity.
  - intros code st c s H.
    destruct code; cbn [check_stmt]; rewrite H; reflexivity.
  - intros n base i st e1 s1 H. unfold check_index_expr in H.
    destruct (check_expr ctx fuel base false st) as [[b1 sb] [[]| |]];
      cbn [step] in H; try discriminate.
    destruct (check_expr ctx fuel i true sb) as [[i1 si] [[]| |]];
      cbn [step] in H; try discriminate.
    destruct (typ b1) as [t|]; cbn [attr] in H; try discriminate.
    destruct (get_type ctx t); try discriminate.
    destruct (do_coerce ctx (check_expr ctx fuel) i1 (NamedType "int") si)
      as [[i2 sc] [ci| |]]; cbn [step] in H; try discriminate.
    destruct (lvalue b1) as [[|]|]; cbn [attr] in H; try discriminate.
    inversion H; subst. reflexivity.
  - intros n base field st e1 s1 H. unfold check_member_expr in H.
    destruct (is_module_ref ctx (Member n base field)) as [[|]|[m l]];
      try discriminate.
    + destruct (resolve_symbol ctx (Member n base field))
        as [[t|t|pk nm ps r|nm|rp]|[m l]]; try discriminate.
      inversion H; subst. reflexivity.
    + destruct (check_expr ctx fuel base false st) as [[b1 sb] [[]| |]];
        cbn [step] in H; try discriminate.
      destruct (lvalue b1) as [lv|]; cbn [attr] in H; try discriminate.
      destruct (typ b1) as [t|]; cbn [attr] in H; try discriminate.
      destruct (get_type ctx t) as [nm|nm|pt|fields|et sz];
        try discriminate.
      unfold check_type in H.
      destruct (context_check_type ctx (StructureType fields)) as [[m l]|];
        try discriminate.
      destruct (field_type fields field) as [ft|]; try discriminate.
      destruct lv; inversion H; subst. reflexivity.
  - intros n base i st b1 s1 i1 s2 x Hb Hi.
    unfold check_index_expr. rewrite Hb; cbn [step]. rewrite Hi.
    reflexivity.
  - intros n base i st b1 s1 i1 s2 t Hb Hi Ht Hg.
    unfold check_index_expr. rewrite Hb; cbn [step]. rewrite Hi; cbn [step].
    rewrite Ht; cbn [attr].
    destruct (get_type ctx t) as [nm|nm|pt|fields|et sz]; try reflexivity.
    now contradiction (Hg et sz).
  - intros n base i st b1 s1 i1 s2 t et sz i2 s3 x Hb Hi Ht Hg Hc.
    unfold check_index_expr. rewrite Hb; cbn [step]. rewrite Hi; cbn [step].
    rewrite Ht; cbn [attr]. rewrite Hg. rewrite Hc. reflexivity.
  - intros n base field st b1 s1 lv t Hm Hb Hl Ht Hg.
    unfold check_member_expr. rewrite Hm. rewrite Hb; cbn [step].
    rewrite Hl; cbn [attr]. rewrite Ht; cbn [attr].
    destruct (get_type ctx t) as [nm|nm|pt|fields|et sz]; try reflexivity.
    now contradiction (Hg fields).
  - intros n base field st b1 s1 lv t fields m l Hm Hb Hl Ht Hg Hc.
    unfold check_member_expr. rewrite Hm. rewrite Hb; cbn [step].
    rewrite Hl; cbn [attr]. rewrite Ht; cbn [attr]. rewrite Hg.
    unfold check_type. rewrite Hc. reflexivity.
  - intros n base field st b1 s1 lv t fields Hm Hb Hl Ht Hg Hc Hf.
    unfold check_member_expr. rewrite Hm. rewrite Hb; cbn [step].
    rewrite Hl; cbn [attr]. rewrite Ht; cbn [attr]. rewrite Hg.
    unfold check_type. rewrite Hc, Hf. reflexivity.
  - intros code st c s m l H.
    destruct code; cbn [check_stmt]; rewrite H; reflexivity.
Qed.

Lemma base_must_be_lvalue_witness :
  check_index_expr Example.ctx (check_expr Example.ctx 3) (new_ann 0)
    (as_array 1 (Example.ident 2 "x")) (Example.int_lit 3 0) Example.st0
  = (Index (new_ann 0)
       (TypeCast
          (mk_ann 1 (Some (ArrayType Example.int_type 4)) (Some false))
          (ArrayType Example.int_type 4)
          (Identifier (mk_ann 2 (Some (BaseType "int")) (Some false)) "x"))
       (Literal (mk_ann 3 (Some (BaseType "int")) (Some false)) (VInt 0)),
     Example.st0, Raise AssertionError)
  /\ check_member_expr Example.ctx (check_expr Example.ctx 3) (new_ann 0)
       (TypeCast (new_ann 1) Example.point (Example.ident 2 "x")) "y"
       Example.st0
     = (Member (mk_ann 0 (Some Example.int_type) (Some false))
          (TypeCast (mk_ann 1 (Some Example.point) (Some false))
             Example.point
             (Identifier (mk_ann 2 (Some (BaseType "int")) (Some false)) "x"))
          "y",
        Example.st0, Raise AssertionError)
  /\ result (check_stmt Example.ctx 4
               (Assignment 5
                  (Index (new_ann 0) (as_array 1 (Example.ident 2 "x"))
                     (Example.int_lit 3 0))
                  (Example.int_lit 4 7)) Example.st0)
     = Raise AssertionError
  /\ result (check_index_expr Example.ctx (check_expr Example.ctx 4)
               (new_ann 0) (Example.ident 1 "c") (asserting_index 2)
               Example.st0)
     = Raise AssertionError
  /\ result (check_index_expr Example.ctx (check_expr Example.ctx 4)
               (new_ann 0) (Example.ident 1 "c") (Example.int_lit 2 0)
               Example.st0)
     = Raise (SemanticError (CannotIndex (BaseType "int")) (Some 1))
  /\ result (check_index_expr Example.ctx (check_expr Example.ctx 4)
               (new_ann 0) (as_array 1 (Example.ident 2 "x"))
               (Example.str_lit 3 "a") Example.st0)
     = Raise (SemanticError
                (CannotUseAs (BaseType "string") (NamedType "int")) (Some 3))
  /\ result (check_member_expr Example.ctx (check_expr Example.ctx 4)
               (new_ann 0) (Example.ident 1 "c") "x" Example.st0)
     = Raise (SemanticError (CannotSelect "x" (BaseType "int")) (Some 0))
  /\ result (check_member_expr strict_ctx (check_expr strict_ctx 4)
               (new_ann 0) (x_as_point 1) "y" Example.st0)
     = Raise (SemanticError (FromContext "incomplete structure") None)
  /\ result (check_member_expr Example.ctx (check_expr Example.ctx 4)
               (new_ann 0) (x_as_point 1) "z" Example.st0)
     = Raise (SemanticError (NoSuchField Example.point "z") (Some 0))
  /\ check_stmt Example.ctx 4
       (Assignment 5
          (Index (new_ann 0) (Example.ident 1 "c") (Example.int_lit 2 0))
          (Example.int_lit 3 7)) Example.st0
     = (Assignment 5
          (Index (new_ann 0)
             (Identifier (mk_ann 1 (Some (BaseType "int")) (Some false)) "c")
             (Literal (mk_ann 2 (Some (BaseType "int")) (Some false))
                (VInt 0)))
          (Example.int_lit 3 7),
        error (CannotIndex (BaseType "int")) (Some 1) Example.st0, Done tt)
  /\ lvalue (Index (mk_ann 0 (Some (BaseType "int")) (Some true))
               (Identifier
                  (mk_ann 1 (Some (ArrayType Example.int_type 4)) (Some true))
                  "arr")
               (Literal (mk_ann 2 (Some (BaseType "int")) (Some false))
                  (VInt 0)))
     = Some true
  /\ lvalue (Member (mk_ann 0 (Some (BaseType "int")) (Some true))
               (Identifier (mk_ann 1 (Some Example.point) (Some true)) "pt")
               "y")
     = Some true.
Proof.
  repeat apply conj.
  - exact (proj1 (base_must_be_lvalue Example.ctx 3) (new_ann 0)
             (as_array 1 (Example.ident 2 "x")) (Example.int_lit 3 0)
             Example.st0 _ Example.st0 _ Example.st0
             (ArrayType Example.int_type 4) Example.int_type 4 _ Example.st0 _
             eq_refl eq_refl eq_refl eq_refl eq_refl eq_refl).
  - exact (proj1 (proj2 (base_must_be_lvalue Example.ctx 3)) (new_ann 0)
             (TypeCast (new_ann 1) Example.point (Example.ident 2 "x")) "y"
             Example.st0 _ Example.st0 Example.point
             [("x", Example.int_type); ("y", Example.int_type)]
             Example.int_type
             eq_refl eq_refl eq_refl eq_refl eq_refl eq_refl eq_refl).
  - exact (f_equal result
             (proj1 (proj2 (proj2 (base_must_be_lvalue Example.ctx 4)))
                (Assignment 5
                   (Index (new_ann 0) (as_array 1 (Example.ident 2 "x"))
                      (Example.int_lit 3 0))
                   (Example.int_lit 4 7)) Example.st0 _ _ eq_refl)).
  - destruct (base_must_be_lvalue Example.ctx 4)
      as [_ [_ [_ [_ [_ [H _]]]]]].
    exact (f_equal result
             (H (new_ann 0) (Example.ident 1 "c") (asserting_index 2)
                Example.st0 _ Example.st0 _ Example.st0 AssertionError
                eq_refl eq_refl)).
  - destruct (base_must_be_lvalue Example.ctx 4)
      as [_ [_ [_ [_ [_ [_ [H _]]]]]]].
    refine (f_equal result
              (H (new_ann 0) (Example.ident 1 "c") (Example.int_lit 2 0)
                 Example.st0 _ Example.st0 _ Example.st0 (BaseType "int")
                 eq_refl eq_refl eq_refl _)).
    discriminate.
  - destruct (base_must_be_lvalue Example.ctx 4)
      as [_ [_ [_ [_ [_ [_ [_ [H _]]]]]]]].
    exact (f_equal result
             (H (new_ann 0) (as_array 1 (Example.ident 2 "x"))
                (Example.str_lit 3 "a") Example.st0 _ Example.st0 _
                Example.st0 (ArrayType Example.int_type 4) Example.int_type 4
                _ Example.st0
                (SemanticError
                   (CannotUseAs (BaseType "string") (NamedType "int"))
                   (Some 3))
                eq_refl eq_refl eq_refl eq_refl eq_refl)).
  - destruct (base_must_be_lvalue Example.ctx 4)
      as [_ [_ [_ [_ [_ [_ [_ [_ [H _]]]]]]]]].
    refine (f_equal result
              (H (new_ann 0) (Example.ident 1 "c") "x" Example.st0 _
                 Example.st0 false (BaseType "int")
                 eq_refl eq_refl eq_refl eq_refl _)).
    discriminate.
  - destruct (base_must_be_lvalue strict_ctx 4)
      as [_ [_ [_ [_ [_ [_ [_ [_ [_ [H _]]]]]]]]]].
    exact (f_equal result
             (H (new_ann 0) (x_as_point 1) "y" Example.st0 _ Example.st0
                false Example.point
                [("x", Example.int_type); ("y", Example.int_type)]
                (FromContext "incomplete structure") None
                eq_refl eq_refl eq_refl eq_refl eq_refl eq_refl)).
  - destruct (base_must_be_lvalue Example.ctx 4)
      as [_ [_ [_ [_ [_ [_ [_ [_ [_ [_ [H _]]]]]]]]]]].
    exact (f_equal result
             (H (new_ann 0) (x_as_point 1) "z" Example.st0 _ Example.st0
                false Example.point
                [("x", Example.int_type); ("y", Example.int_type)]
                eq_refl eq_refl eq_refl eq_refl eq_refl eq_refl eq_refl)).
  - destruct (base_must_be_lvalue Example.ctx 4)
      as [_ [_ [_ [_ [_ [_ [_ [_ [_ [_ [_ H]]]]]]]]]]].
    exact (H (Assignment 5 (Index (new_ann 0) (Example.ident 1 "c")
                               (Example.int_lit 2 0))
                (Example.int_lit 3 7)) Example.st0 _ _
             (CannotIndex (BaseType "int")) (Some 1) eq_refl).
  - destruct (base_must_be_lvalue Example.ctx 3) as [_ [_ [_ [H _]]]].
    exact (H (new_ann 0) (Example.ident 1 "arr") (Example.int_lit 2 0)
             Example.st0 _ Example.st0 eq_refl).
  - destruct (base_must_be_lvalue Example.ctx 3) as [_ [_ [_ [_ [H _]]]]].
    exact (H (new_ann 0) (Example.ident 1 "pt") "y" Example.st0 _
             Example.st0 eq_refl).
Defined.

(** C10 as stated fails: the base, a constant, checks successfully and is
    not an lvalue, but it is no array, no structure: the check raises a
    semantic error, which [check_stmt] reports, and no assertion fails. *)
Lemma rvalue_base_semantic_error :
  check_expr Example.ctx 3 (Example.ident 1 "c") false Example.st0
    = (Identifier (mk_ann 1 (Some (BaseType "int")) (Some false)) "c",
       Example.st0, Done tt)
  /\ result (check_expr Example.ctx 3
               (Index (new_ann 0) (Example.ident 1 "c") (Example.int_lit 2 0))
               false Example.st0)
     = Raise (SemanticError (CannotIndex (BaseType "int")) (Some 1))
  /\ result (check_expr Example.ctx 3
               (Member (new_ann 0) (Example.ident 1 "c") "x")
               false Example.st0)
     = Raise (SemanticError (CannotSelect "x" (BaseType "int")) (Some 0))
  /\ check_stmt Example.ctx 3
       (Assignment 5
          (Index (new_ann 0) (Example.ident 1 "c") (Example.int_lit 2 0))
          (Example.int_lit 3 7)) Example.st0
     = (Assignment 5
          (Index (new_ann 0)
             (Identifier (mk_ann 1 (Some (BaseType "int")) (Some false)) "c")
             (Literal (mk_ann 2 (Some (BaseType "int")) (Some false))
                (VInt 0)))
          (Example.int_lit 3 7),
        mk_cstate false [(CannotIndex (BaseType "int"), Some 1)], Done tt).
Proof. repeat split. Qed.

(** ** Further properties of the checker *)

(** *** Rvalues, conditions, address and dereference *)

(** X5: a node checked with an rvalue required is not an lvalue when the
    check returns. *)
Theorem rvalue_check_gives_rvalue :
  forall ctx fuel e st e1 s1,
    check_expr ctx fuel e true st = (e1, s1, Done tt) ->
    lvalue e1 = Some false.
Proof.
  intros ctx fuel e st e1 s1 H. destruct fuel as [|fuel]; [discriminate|].
  cbn [check_expr] in H. unfold check_expr_body in H.
  destruct (check_expr_kind ctx (check_expr ctx fuel)
              (check_condition ctx fuel) e st) as [[e2 s2] [[]| |]];
    cbn [step] in H; try discriminate.
  unfold make_rvalue in H.
  destruct (lvalue e2) as [[|]|] eqn:Hl; cbn [attr] in H; try discriminate.
  - destruct (typ e2) as [t|]; cbn [attr] in H; try discriminate.
    destruct (negb _); inversion H; subst. apply assign_lvalue_lvalue.
  - inversion H; subst. exact Hl.
Qed.

Lemma rvalue_check_gives_rvalue_witness :
  lvalue x_as_rvalue = Some false.
Proof.
  exact (rvalue_check_gives_rvalue Example.ctx 2 (Example.ident 2 "x")
           Example.st0 x_as_rvalue Example.st0 eq_refl).
Defined.

Lemma in_list_not : forall op, in_list op Unop_cond_ops = String.eqb op "not".
Proof. intros op. cbn. apply orb_false_r. Qed.

(** X6: a comparison, an [and], an [or] or a [not] that checks has the
    type the context gives for ['bool'] and is not an lvalue, whatever its
    operands and whether an rvalue is required or not. *)
Theorem boolean_expression_type :
  forall ctx fuel e rv st e1 s1,
    is_bool e = true ->
    check_expr ctx fuel e rv st = (e1, s1, Done tt) ->
    typ e1 = Some (get_type ctx (NamedType "bool"))
    /\ lvalue e1 = Some false.
Proof.
  intros ctx fuel e rv st e1 s1 Hb H.
  destruct fuel as [|fuel]; [discriminate|].
  cbn [check_expr] in H. unfold check_expr_body, check_expr_kind in H.
  rewrite Hb in H. unfold check_bool_expr in H.
  destruct (check_condition ctx fuel e st) as [[e2 s2] [[]| |]] eqn:Hc;
    cbn [step] in H; try discriminate.
  assert (Ht : typ e2 = Some (get_type ctx (NamedType "bool"))).
  { destruct fuel as [|fuel]; [discriminate|].
    cbn [check_condition] in Hc. unfold check_condition_body in Hc.
    destruct (check_condition_kind ctx (check_expr ctx fuel)
                (check_condition ctx fuel) e st)
      as [[e3 s3] [[]| |]] eqn:Hk; cbn [step] in Hc; try discriminate.
    assert (Ht3 : typ e3 = Some (get_type ctx (NamedType "bool"))).
    { unfold check_condition_kind in Hk.
      destruct e; try discriminate Hb; cbn [is_bool] in Hb.
      - revert Hk. cbv zeta. repeat break_call; try discriminate;
          intros Hk; inversion Hk; subst; apply assign_typ_typ.
      - rewrite in_list_not in Hb. rewrite Hb in Hk.
        revert Hk. repeat break_call; try discriminate.
        intros Hk; inversion Hk; subst. reflexivity. }
    rewrite Ht3 in Hc. cbn [attr] in Hc.
    destruct (negb _); inversion Hc; subst; exact Ht3. }
  unfold make_rvalue in H. rewrite assign_lvalue_lvalue in H.
  destruct rv; cbn [attr] in H; inversion H; subst;
    rewrite assign_lvalue_typ, assign_lvalue_lvalue; auto.
Qed.

Lemma boolean_expression_type_witness :
  typ (node (check_expr Example.ctx 3 x_less_than_y true Example.st0))
    = Some (BaseType "bool")
  /\ lvalue (node (check_expr Example.ctx 3 x_less_than_y true Example.st0))
     = Some false.
Proof.
  exact (boolean_expression_type Example.ctx 3 x_less_than_y true Example.st0
           _ Example.st0 eq_refl eq_refl).
Defined.

(** X7: taking the address of a node that checks as an lvalue of type [t]
    and dereferencing it gives an lvalue of type [t] again (the context
    resolving a pointer type to itself); nothing is reported on the way. *)
Theorem dereference_of_address :
  forall ctx fuel n1 n2 a rv st a1 s1 t,
    check_expr ctx fuel a false st = (a1, s1, Done tt) ->
    lvalue a1 = Some true ->
    typ a1 = Some t ->
    get_type ctx (PointerType t) = PointerType t ->
    (rv = true -> is_pointer (get_type ctx t) || is_base (get_type ctx t)
                  = true) ->
    check_expr ctx (S (S fuel)) (Deref n1 (Unop n2 "&" a)) rv st
    = (Deref (mk_ann (a_loc n1) (Some t) (Some (negb rv)))
         (Unop (mk_ann (a_loc n2) (Some (PointerType t)) (Some false)) "&" a1),
       s1, Done tt).
Proof.
  intros ctx fuel n1 n2 a rv st a1 s1 t Ha Hl Ht Hg Hrv.
  cbn [check_expr]. unfold check_expr_body at 1. unfold check_expr_kind at 1.
  cbn [is_bool]. unfold check_dereference.
  unfold check_expr_body at 1. unfold check_expr_kind at 1.
  cbn [is_bool in_list Unop_cond_ops existsb String.eqb Ascii.eqb Bool.eqb
       orb]. unfold check_unop. cbn [String.eqb Ascii.eqb Bool.eqb].
  rewrite Ha. cbn [step]. rewrite Hl. cbn [attr negb]. rewrite Ht.
  cbn [attr step make_rvalue lvalue typ ann_of set_lvalue set_typ a_lvalue
       a_typ a_loc]. rewrite Hg.
  cbn [step make_rvalue lvalue typ ann_of set_lvalue set_typ a_lvalue
       a_typ a_loc attr].
  destruct rv; cbn [negb]; [|reflexivity].
  unfold make_rvalue. cbn [lvalue typ ann_of set_lvalue set_typ a_lvalue
                           a_typ a_loc attr].
  rewrite (Hrv eq_refl). reflexivity.
Qed.

Lemma dereference_of_address_witness :
  check_expr Example.ctx 3
    (Deref (new_ann 0) (Unop (new_ann 1) "&" (Example.ident 2 "x")))
    false Example.st0
  = (Deref (mk_ann 0 (Some (BaseType "int")) (Some true))
       (Unop (mk_ann 1 (Some (PointerType (BaseType "int"))) (Some false)) "&"
          x_as_lvalue),
     Example.st0, Done tt).
Proof.
  exact (dereference_of_address Example.ctx 1 (new_ann 0) (new_ann 1)
           (Example.ident 2 "x") false Example.st0 x_as_lvalue Example.st0
           (BaseType "int") eq_refl eq_refl eq_refl eq_refl
           (fun H => match Bool.diff_false_true H with end)).
Defined.

(** X8: a member expression names something in a module exactly when
    the identifier at the root of its chain of member expressions resolves
    to a module; when that identifier does not resolve, the error of the
    context comes out; nothing else is a module reference. *)
Theorem is_module_ref_root :
  forall ctx e,
    is_module_ref ctx e
    = match e with
      | Member _ _ _ =>
          match module_root e with
          | Identifier n target =>
              match resolve_symbol ctx (Identifier n target) with
              | inl (SymModule _) => inl true
              | inl _ => inl false
              | inr err => inr err
              end
          | _ => inl false
          end
      | _ => inl false
      end.
Proof.
  intros ctx e. induction e; try reflexivity.
  cbn [is_module_ref module_root].
  destruct e; try reflexivity. exact IHe.
Qed.

(** *** Calls *)

Section CheckedArguments.

Variable ctx : Context.
Variable rec_expr : expr -> bool -> cstate -> R expr unit.

Hypothesis rec_expr_checked :
  forall e rv st e1 s1, rec_expr e rv st = (e1, s1, Done tt) -> checked e1.

Lemma do_coerce_checked :
  forall e t st e1 s1 c,
    do_coerce ctx rec_expr e t st = (e1, s1, Done c) -> checked c.
Proof.
  intros e t st e1 s1 c H. destruct (typ e) as [have|] eqn:Ht.
  - rewrite (do_coerce_typed _ _ _ _ _ _ Ht) in H.
    destruct (equal_types ctx have t).
    + destruct (rec_expr e false st) as [[e2 s2] [[]| |]] eqn:E;
        cbn [step] in H; try discriminate.
      inversion H; subst. eapply rec_expr_checked; eauto.
    + destruct (coercible ctx have t); [|discriminate].
      destruct (rec_expr (TypeCast (new_ann (loc e)) t e) false st)
        as [[e2 s2] [[]| |]] eqn:E; try discriminate.
      inversion H; subst. eapply rec_expr_checked; eauto.
  - unfold do_coerce in H. rewrite Ht in H. discriminate.
Qed.

Lemma check_arguments_done :
  forall args ptypes st args1 s1 new_args,
    check_arguments ctx rec_expr args ptypes st = (args1, s1, Done new_args) ->
    List.length ptypes = List.length args ->
    List.length new_args = List.length args /\ Forall checked new_args.
Proof.
  induction args as [|a rest IH]; intros ptypes st args1 s1 new_args H Hlen;
    cbn [check_arguments] in H.
  - inversion H; subst. split; [reflexivity|constructor].
  - destruct ptypes as [|t ptypes]; [discriminate Hlen|].
    destruct (rec_expr a true st) as [[a1 sa] [[]| |]];
      cbn [step] in H; try discriminate.
    destruct (do_coerce ctx rec_expr a1 t sa) as [[a2 sc] [c| |]] eqn:Ec;
      cbn [step] in H; try discriminate.
    destruct (check_arguments ctx rec_expr rest ptypes sc)
      as [[r sr] [cs| |]] eqn:Er; cbn [step] in H; try discriminate.
    inversion H; subst. cbn [List.length] in Hlen.
    destruct (IH _ _ _ _ _ Er) as [Hl Hf]; [lia|].
    split; [cbn [List.length]; lia|].
    constructor; [eapply do_coerce_checked; eauto|exact Hf].
Qed.

End CheckedArguments.

(** X9: when a call checks, its callee resolves to a function with as
    many parameters as the call has arguments, the call still has that many
    arguments, each of them checked, its type is the return type of the
    function, which is simple, and it is not an lvalue. *)
Theorem call_checked :
  forall ctx fuel n proc args rv st e1 s1,
    check_expr ctx fuel (FunctionCall n proc args) rv st = (e1, s1, Done tt) ->
    exists package name ptypes ret new_args,
      resolve_symbol ctx proc = inl (SymFunction package name ptypes ret)
      /\ List.length ptypes = List.length args
      /\ e1 = FunctionCall (mk_ann (a_loc n) (Some ret) (Some false)) proc
                new_args
      /\ List.length new_args = List.length args
      /\ Forall checked new_args
      /\ is_simple_type ctx ret = true.
Proof.
  intros ctx fuel n proc args rv st e1 s1 H.
  destruct fuel as [|fuel]; [discriminate|].
  cbn [check_expr] in H. unfold check_expr_body, check_expr_kind in H.
  cbn [is_bool] in H. unfold check_function_call in H.
  destruct (resolve_symbol ctx proc) as [[t|t|package name ptypes ret|nm|rp]
                                        |[m l]]; try discriminate.
  destruct (Nat.eqb (List.length args) (List.length ptypes)) eqn:Hlen;
    cbn [negb] in H; try discriminate.
  apply Nat.eqb_eq in Hlen.
  destruct (check_arguments ctx (check_expr ctx fuel) args ptypes st)
    as [[args1 sa] [new_args| |]] eqn:Ea; cbn [step] in H; try discriminate.
  destruct (is_simple_type ctx ret) eqn:Hs; cbn [negb step] in H;
    try discriminate.
  destruct (check_arguments_done ctx (check_expr ctx fuel)
              (proj1 (check_sets_attributes ctx fuel))
              _ _ _ _ _ _ Ea (eq_sym Hlen)) as [Hl Hf].
  exists package, name, ptypes, ret, new_args.
  unfold make_rvalue in H. cbn [lvalue ann_of set_lvalue a_lvalue attr] in H.
  destruct rv; inversion H; subst; repeat split; auto.
Qed.

Lemma call_checked_witness :
  exists package name ptypes ret new_args,
    resolve_symbol Example.ctx (Example.ident 2 "f")
      = inl (SymFunction package name ptypes ret)
    /\ List.length ptypes = 1
    /\ node (check_expr Example.ctx 4 call_f_of_b false Example.st0)
       = FunctionCall (mk_ann 1 (Some ret) (Some false)) (Example.ident 2 "f")
           new_args
    /\ List.length new_args = 1
    /\ Forall checked new_args
    /\ is_simple_type Example.ctx ret = true.
Proof.
  exact (call_checked Example.ctx 4 (new_ann 1) (Example.ident 2 "f")
           [Example.ident 3 "b"] false Example.st0 _ Example.st0 eq_refl).
Defined.

(** X10: a call with a number of arguments other than the number of
    parameters of the function raises the error that names the function and
    both numbers, at the call, before any argument is checked. *)
Theorem call_with_wrong_argument_count :
  forall ctx fuel n proc args rv st package name ptypes ret,
    resolve_symbol ctx proc = inl (SymFunction package name ptypes ret) ->
    List.length args <> List.length ptypes ->
    check_expr ctx (S fuel) (FunctionCall n proc args) rv st
    = (FunctionCall n proc args, st,
       Raise (SemanticError
                (WrongArgumentCount (package ++ "_" ++ name)
                   (List.length ptypes) (List.length args))
                (Some (a_loc n))))
    /\ (forall l,
        check_stmt ctx fuel (ExpressionStatement l (FunctionCall n proc args))
          st
        = (ExpressionStatement l (FunctionCall n proc args),
          error (WrongArgumentCount (package ++ "_" ++ name)
                   (List.length ptypes) (List.length args))
                (Some (a_loc n)) st,
          Done tt)).
Proof.
  intros ctx fuel n proc args rv st package name ptypes ret Hr Hlen.
  apply Nat.eqb_neq in Hlen. split.
  - cbn [check_expr]. unfold check_expr_body, check_expr_kind.
    cbn [is_bool]. unfold check_function_call. rewrite Hr, Hlen. reflexivity.
  - intros l. cbn [check_stmt check_stmt_kind]. unfold check_expression_stmt,
      check_function_call. rewrite Hr, Hlen. reflexivity.
Qed.

Lemma call_with_wrong_argument_count_witness :
  check_stmt Example.ctx 2
    (ExpressionStatement 0
       (FunctionCall (new_ann 1) (Example.ident 2 "f")
          [Example.ident 3 "x"; Example.ident 4 "y"])) Example.st0
  = (ExpressionStatement 0
       (FunctionCall (new_ann 1) (Example.ident 2 "f")
          [Example.ident 3 "x"; Example.ident 4 "y"]),
     mk_cstate false [(WrongArgumentCount "main_f" 1 2, Some 1)], Done tt).
Proof.
  refine (proj2 (call_with_wrong_argument_count Example.ctx 2 (new_ann 1)
            (Example.ident 2 "f") [Example.ident 3 "x"; Example.ident 4 "y"]
            false Example.st0 "main" "f" [Example.int_type] (BaseType "void")
            eq_refl _) 0).
  discriminate.
Defined.

(** *** Signatures *)

Lemma forallb_of_map :
  forall {A B} (f : B -> bool) (g : A -> B) l,
    forallb f (map g l) = forallb (fun x => f (g x)) l.
Proof.
  intros A B f g l. induction l as [|x l IH]; cbn; [reflexivity|].
  now rewrite IH.
Qed.

Lemma check_parameters_none :
  forall ctx l params,
    check_parameters ctx l params = None
    <-> forallb (fun p => well_formed ctx (v_typ p)
                          && is_simple_type ctx (v_typ p)) params = true.
Proof.
  intros ctx l params. induction params as [|p rest IH];
    cbn [check_parameters forallb]; [tauto|].
  unfold well_formed at 1.
  destruct (context_check_type ctx (v_typ p)) as [err|];
    cbn [andb]; [split; discriminate|].
  destruct (is_simple_type ctx (v_typ p)); cbn [negb andb];
    [exact IH|split; discriminate].
Qed.

Lemma check_types_none :
  forall ctx ts,
    check_types ctx ts = None <-> forallb (well_formed ctx) ts = true.
Proof.
  intros ctx ts. induction ts as [|t rest IH]; cbn [check_types forallb];
    [tauto|].
  unfold well_formed at 1.
  destruct (context_check_type ctx t) as [err|]; cbn [andb];
    [split; discriminate|exact IH].
Qed.

(** X11: [check_function] raises a semantic error exactly when the
    signature is not as wanted (a parameter type ill formed or not simple,
    the return type not simple, a type of the inner scope ill formed); then
    the function is left as it was, its body unchecked, and nothing is
    reported by the call.  With a good signature no semantic error comes
    out, whatever the body holds. *)
Theorem check_function_signature :
  forall ctx fuel function st,
    (signature_ok ctx function = false ->
       exists m l,
         check_function ctx fuel function st
         = (function, st, Raise (SemanticError m l)))
    /\ (signature_ok ctx function = true ->
       forall m l,
         result (check_function ctx fuel function st)
         <> Raise (SemanticError m l)).
Proof.
  intros ctx fuel function st. unfold signature_ok, check_function.
  pose proof (check_parameters_none ctx (f_loc function)
                (parameters function)) as Hp.
  pose proof (check_types_none ctx (map v_typ (inner_scope function)))
    as Ht.
  rewrite forallb_of_map in Ht.
  destruct (check_parameters ctx (f_loc function) (parameters function))
    as [[m0 l0]|].
  - destruct (forallb _ (parameters function)).
    + destruct Hp as [_ Hp]. discriminate (Hp eq_refl).
    + split; [eauto|discriminate].
  - rewrite (proj1 Hp eq_refl). cbn [andb].
    destruct (is_simple_type ctx (returntype function)); cbn [negb andb];
      [|split; [eauto|discriminate]].
    destruct (check_types ctx (map v_typ (inner_scope function)))
      as [[m0 l0]|].
    + destruct (forallb _ (inner_scope function)).
      * destruct Ht as [_ Ht]. discriminate (Ht eq_refl).
      * split; [eauto|discriminate].
    + rewrite (proj1 Ht eq_refl). split; [discriminate|].
      intros _ m l. destruct (body function) as [code|];
        [|cbn; discriminate].
      pose proof (@catch_not_semantic _
                    (check_stmt_kind ctx fuel (check_stmt ctx fuel) code st)
                    m l) as Hc.
      assert (Hs : check_stmt ctx fuel code st
                   = catch (check_stmt_kind ctx fuel (check_stmt ctx fuel)
                              code st))
        by (destruct code; reflexivity).
      rewrite <- Hs in Hc.
      destruct (check_stmt ctx fuel code st) as [[c s1] [[]| |]];
        cbn in *; congruence.
Qed.

Lemma check_function_signature_witness :
  exists m l,
    check_function Example.ctx 2 returns_struct Example.st0
    = (returns_struct, Example.st0, Raise (SemanticError m l)).
Proof.
  exact (proj1 (check_function_signature Example.ctx 2 returns_struct
                  Example.st0) eq_refl).
Defined.

(** *** What a module reports and how it ends *)

(** The checker acts on its state only through [error]: a relation between
    states that holds of a state and itself, composes, and goes through
    [error], holds between the state a check starts from and the state it
    ends in. *)
Section Tracking.

Variable rel : cstate -> cstate -> Prop.

Hypothesis rel_refl : forall s, rel s s.
Hypothesis rel_trans : forall a b c, rel a b -> rel b c -> rel a c.
Hypothesis rel_error : forall a b m l, rel a b -> rel a (error m l b).

Ltac rel_chain :=
  cbn [state fst snd];
  repeat first
    [ assumption
    | apply rel_refl
    | apply rel_error
    | match goal with
      | H : rel ?y ?z |- rel _ ?z => apply (fun p => rel_trans _ y z p H)
      end ].

Lemma catch_tracked :
  forall {N} st (r : R N unit), rel st (state r) -> rel st (state (catch r)).
Proof.
  intros N st [[n s] [[]|[m l| | |]|]] H; cbn in *; try assumption.
  now apply rel_error.
Qed.

Section TrackedExpressions.

Variable ctx : Context.
Variable rec_expr : expr -> bool -> cstate -> R expr unit.
Variable rec_cond : expr -> cstate -> R expr unit.

Hypothesis rec_expr_tracked :
  forall e rv st, rel st (state (rec_expr e rv st)).
Hypothesis rec_cond_tracked :
  forall e st, rel st (state (rec_cond e st)).

Lemma do_coerce_tracked :
  forall e t st, rel st (state (do_coerce ctx rec_expr e t st)).
Proof.
  intros e t st. destruct (typ e) as [have|] eqn:Ht.
  - rewrite (do_coerce_typed _ _ _ _ _ _ Ht).
    destruct (equal_types ctx have t).
    + pose proof (rec_expr_tracked e false st) as H.
      destruct (rec_expr e false st) as [[e1 s1] [[]| |]]; exact H.
    + destruct (coercible ctx have t); [|apply rel_refl].
      pose proof (rec_expr_tracked (TypeCast (new_ann (loc e)) t e) false st)
        as H.
      destruct (rec_expr (TypeCast (new_ann (loc e)) t e) false st)
        as [[c s1] [[]| |]]; exact H.
  - unfold do_coerce. rewrite Ht. apply rel_refl.
Qed.

Ltac tracked_call :=
  match goal with
  | |- context [attr ?o _ _ _] => destruct o; cbn [attr]
  | |- context [if ?b then _ else _] => destruct b
  | |- context [match ?x with _ => _ end] => destruct x
  | |- context [step (rec_expr ?a ?rv ?s) _ _] =>
      let H := fresh "H" in
      pose proof (rec_expr_tracked a rv s) as H;
      destruct (rec_expr a rv s) as [[? ?] [[]| |]];
      cbn [step state fst snd] in *
  | |- context [step (rec_cond ?a ?s) _ _] =>
      let H := fresh "H" in
      pose proof (rec_cond_tracked a s) as H;
      destruct (rec_cond a s) as [[? ?] [[]| |]];
      cbn [step state fst snd] in *
  | |- context [step (do_coerce ctx rec_expr ?a ?t ?s) _ _] =>
      let H := fresh "H" in
      pose proof (do_coerce_tracked a t s) as H;
      destruct (do_coerce ctx rec_expr a t s) as [[? ?] [?| |]];
      cbn [step state fst snd] in *
  end.

Lemma check_arguments_tracked :
  forall args ptypes st,
    rel st (state (check_arguments ctx rec_expr args ptypes st)).
Proof.
  induction args as [|a rest IH]; intros ptypes st; cbn [check_arguments];
    [apply rel_refl|].
  destruct ptypes as [|t ptypes]; [apply rel_refl|].
  repeat tracked_call; try solve [rel_chain].
  match goal with
  | |- context [check_arguments ctx rec_expr rest ptypes ?s] =>
      pose proof (IH ptypes s) as Hr;
      destruct (check_arguments ctx rec_expr rest ptypes s)
        as [[? ?] [?| |]]; cbn [step state fst snd] in *
  end; rel_chain.
Qed.

Lemma check_function_call_tracked :
  forall n proc args st,
    rel st (state (check_function_call ctx rec_expr n proc args st)).
Proof.
  intros n proc args st. unfold check_function_call. cbv zeta.
  repeat tracked_call; try solve [rel_chain].
  all: match goal with
       | |- context [check_arguments ctx rec_expr ?a ?p ?s] =>
           pose proof (check_arguments_tracked a p s) as Hr;
           destruct (check_arguments ctx rec_expr a p s)
             as [[? ?] [?| |]]; cbn [step state fst snd] in *
       end; repeat tracked_call; rel_chain.
Qed.

Lemma check_expr_body_tracked :
  forall e rv st,
    rel st (state (check_expr_body ctx rec_expr rec_cond e rv st)).
Proof.
  intros e rv st. unfold check_expr_body.
  assert (H : rel st (state (check_expr_kind ctx rec_expr rec_cond e st))).
  { unfold check_expr_kind. destruct (is_bool e).
    - unfold check_bool_expr. tracked_call; rel_chain.
    - destruct e; try apply check_function_call_tracked;
        unfold check_binop, check_unop, check_identifier,
        check_dereference, check_member_expr, check_index_expr,
        check_literal_expr, check_type_cast, check_sizeof, check_type;
        cbv zeta; repeat tracked_call; rel_chain. }
  destruct (check_expr_kind ctx rec_expr rec_cond e st)
    as [[e1 s1] [[]| |]]; cbn [step state fst snd] in *; try assumption.
  unfold make_rvalue. repeat tracked_call; rel_chain.
Qed.

Lemma check_condition_body_tracked :
  forall e st,
    rel st (state (check_condition_body ctx rec_expr rec_cond e st)).
Proof.
  intros e st. unfold check_condition_body.
  assert (H : rel st
                (state (check_condition_kind ctx rec_expr rec_cond e st))).
  { unfold check_condition_kind.
    destruct e; try apply rec_expr_tracked; cbv zeta;
      repeat first [progress cbn [step] | tracked_call];
      try solve [rel_chain]; apply rec_expr_tracked. }
  destruct (check_condition_kind ctx rec_expr rec_cond e st)
    as [[e1 s1] [[]| |]]; cbn [step state fst snd] in *; try assumption.
  repeat tracked_call; rel_chain.
Qed.

End TrackedExpressions.

Lemma check_expr_tracked :
  forall ctx fuel,
    (forall e rv st, rel st (state (check_expr ctx fuel e rv st)))
    /\ (forall e st, rel st (state (check_condition ctx fuel e st))).
Proof.
  intros ctx fuel. induction fuel as [|n [IHe IHc]].
  - split; intros; apply rel_refl.
  - split; intros; cbn [check_expr check_condition].
    + now apply check_expr_body_tracked.
    + now apply check_condition_body_tracked.
Qed.

Section TrackedStatements.

Variable ctx : Context.
Variable fuel : nat.

Ltac known_tracked :=
  first
    [ apply (proj1 (check_expr_tracked ctx fuel))
    | apply (proj2 (check_expr_tracked ctx fuel))
    | apply do_coerce_tracked; apply (proj1 (check_expr_tracked ctx fuel))
    | apply check_function_call_tracked;
      apply (proj1 (check_expr_tracked ctx fuel))
    | match goal with
      | H : (stmt_tracked rel ctx fuel) ?c |- rel _ (state (check_stmt ctx fuel ?c _)) =>
          apply H
      end ].

Ltac tracked_stmt_call :=
  match goal with
  | |- context [attr ?o _ _ _] => destruct o; cbn [attr]
  | |- context [if ?b then _ else _] => destruct b
  | |- context [match ?x with _ => _ end] => destruct x
  | |- context [step ?r _ _] =>
      let H := fresh "H" in
      eassert (H : rel _ (state r)) by known_tracked;
      destruct r as [[? ?] [?| |]]; cbn [step state fst snd] in *
  end.

Lemma check_statements_tracked :
  forall ss,
    Forall (stmt_tracked rel ctx fuel) ss ->
    forall st, rel st (state (check_statements (check_stmt ctx fuel) ss st)).
Proof.
  induction 1 as [|x r Hx Hr IH]; intros st; cbn [check_statements].
  - apply rel_refl.
  - pose proof (Hx st) as H1.
    destruct (check_stmt ctx fuel x st) as [[x1 s1] [[]| |]];
      cbn [step state fst snd] in *; try assumption.
    pose proof (IH s1) as H2.
    destruct (check_statements (check_stmt ctx fuel) r s1)
      as [[r1 s2] [[]| |]]; rel_chain.
Qed.

Lemma check_options_tracked :
  forall options,
    Forall (fun o : option expr * stmt => (stmt_tracked rel ctx fuel) (snd o)) options ->
    forall d st,
      rel st
        (state (check_options ctx fuel (check_stmt ctx fuel) options d st)).
Proof.
  induction 1 as [|[v c] r Hx Hr IH]; intros d st; cbn [check_options].
  - apply rel_refl.
  - cbn [snd] in Hx. pose proof (Hx st) as H1.
    destruct (check_stmt ctx fuel c st) as [[c1 s1] [[]| |]];
      cbn [step state fst snd] in *; try assumption.
    destruct v as [v|].
    + pose proof (proj1 (check_expr_tracked ctx fuel) v false s1) as H2.
      destruct (check_expr ctx fuel v false s1) as [[v1 s2] [[]| |]];
        cbn [step state fst snd] in *; try solve [rel_chain].
      pose proof (IH d s2) as H3.
      destruct (check_options ctx fuel (check_stmt ctx fuel) r d s2)
        as [[r1 s3] [d1| |]]; rel_chain.
    + pose proof (IH true s1) as H3.
      destruct (check_options ctx fuel (check_stmt ctx fuel) r true s1)
        as [[r1 s3] [d1| |]]; rel_chain.
Qed.

Lemma check_stmt_tracked : forall code, (stmt_tracked rel ctx fuel) code.
Proof.
  induction code using stmt_induction; intros st;
    cbn [check_stmt]; apply catch_tracked; cbn [check_stmt_kind].
  - pose proof (check_statements_tracked ss H st) as H1.
    destruct (check_statements (check_stmt ctx fuel) ss st)
      as [[r1 s1] [[]| |]]; rel_chain.
  - apply rel_refl.
  - unfold check_assignment_stmt. repeat tracked_stmt_call; rel_chain.
  - unfold check_expression_stmt. destruct e; try apply rel_refl.
    repeat tracked_stmt_call; rel_chain.
  - unfold check_if_stmt. repeat tracked_stmt_call; rel_chain.
  - unfold check_return_stmt. repeat tracked_stmt_call; rel_chain.
  - unfold check_while. repeat tracked_stmt_call; rel_chain.
  - unfold check_for_stmt. repeat tracked_stmt_call; rel_chain.
  - unfold check_switch_stmt.
    pose proof (proj1 (check_expr_tracked ctx fuel) e true st) as H1.
    destruct (check_expr ctx fuel e true st) as [[e1 s1] [[]| |]];
      cbn [step state fst snd] in *; try assumption.
    destruct (typ e1); cbn [attr]; [|assumption].
    destruct (negb _); [assumption|].
    pose proof (check_options_tracked options H false s1) as H2.
    destruct (check_options ctx fuel (check_stmt ctx fuel) options false s1)
      as [[o1 s2] [d| |]]; cbn [step state fst snd] in *;
      try destruct (negb d); rel_chain.
Qed.

Lemma check_function_tracked :
  forall function st, rel st (state (check_function ctx fuel function st)).
Proof.
  intros function st. unfold check_function.
  destruct (check_parameters ctx (f_loc function) (parameters function))
    as [[msg l]|]; [apply rel_refl|].
  destruct (negb _); [apply rel_refl|].
  destruct (check_types ctx (map v_typ (inner_scope function)))
    as [[msg l]|]; [apply rel_refl|].
  destruct (body function) as [code|]; [|apply rel_refl].
  pose proof (check_stmt_tracked code st) as H.
  destruct (check_stmt ctx fuel code st) as [[c s1] [[]| |]]; exact H.
Qed.

Lemma check_functions_tracked :
  forall funcs st, rel st (state (check_functions ctx fuel funcs st)).
Proof.
  induction funcs as [|f rest IH]; intros st; cbn [check_functions].
  - apply rel_refl.
  - pose proof (catch_tracked st _ (check_function_tracked f st)) as H1.
    destruct (catch (check_function ctx fuel f st)) as [[f1 s1] [[]| |]];
      cbn [step state fst snd] in *; try assumption.
    pose proof (IH s1) as H2.
    destruct (check_functions ctx fuel rest s1) as [[r1 s2] [[]| |]];
      rel_chain.
Qed.

Lemma check_declarations_tracked :
  forall module st, rel st (state (check_declarations ctx module st)).
Proof.
  intros module st. unfold check_declarations. apply catch_tracked.
  destruct (check_types ctx (types module)) as [[m l]|]; apply rel_refl.
Qed.

End TrackedStatements.

End Tracking.

Lemma flagged_refl : forall s, flagged s s.
Proof. intros s. now left. Qed.

Lemma flagged_trans :
  forall a b c, flagged a b -> flagged b c -> flagged a c.
Proof.
  intros a b c [->|[Hb [m [l [t Ht]]]]] [->|[Hc [m' [l' [t' Ht']]]]].
  - now left.
  - right. eauto 6.
  - right. eauto 6.
  - right. split; [exact Hc|].
    exists m, l, (t ++ (m', l') :: t')%list.
    rewrite Ht', Ht, <- app_assoc. reflexivity.
Qed.

Lemma flagged_error :
  forall a b m l, flagged a b -> flagged a (error m l b).
Proof.
  intros a b m l [->|[Hb [m' [l' [t Ht]]]]]; right; split; try reflexivity.
  - exists m, l, []. reflexivity.
  - exists m', l', (t ++ [(m, l)])%list. cbn [error diag].
    rewrite Ht, <- app_assoc. reflexivity.
Qed.

Lemma flagged_keeps_invalid :
  forall a b, flagged a b -> module_ok a = false -> module_ok b = false.
Proof. intros a b [->|[H _]] Ha; assumption. Qed.

Lemma check_module_flagged :
  forall ctx fuel module st,
    flagged (mk_cstate true (diag st))
      (state (check_module ctx fuel module st)).
Proof.
  intros ctx fuel module st. unfold check_module. cbv zeta.
  pose proof (check_declarations_tracked flagged flagged_refl flagged_error
                ctx module (mk_cstate true (diag st))) as H1.
  destruct (check_declarations ctx module (mk_cstate true (diag st)))
    as [[m1 s1] [[]| |]]; cbn [step state fst snd] in *; try assumption.
  pose proof (check_functions_tracked flagged flagged_refl flagged_trans
                flagged_error ctx fuel (functions module) s1) as H2.
  destruct (check_functions ctx fuel (functions module) s1)
    as [[fs s2] [[]| |]]; cbn [step state fst snd] in *;
    try destruct (negb _); cbn [state fst snd];
    eapply flagged_trans; eauto.
Qed.

Lemma check_module_done :
  forall ctx fuel module st m' s',
    check_module ctx fuel module st = (m', s', Done tt) ->
    s' = mk_cstate true (diag st).
Proof.
  intros ctx fuel module st m' s' H.
  pose proof (check_module_flagged ctx fuel module st) as Hf.
  rewrite H in Hf. cbn [state fst snd] in Hf.
  destruct Hf as [Hf|[Hf _]]; [exact Hf|].
  unfold check_module in H. cbv zeta in H.
  destruct (check_declarations ctx module (mk_cstate true (diag st)))
    as [[m1 s1] [[]| |]]; cbn [step] in H; try discriminate.
  destruct (check_functions ctx fuel (functions module) s1)
    as [[fs s2] [[]| |]]; cbn [step] in H; try discriminate.
  destruct (module_ok s2) eqn:Hok; cbn [negb] in H; try discriminate.
  inversion H; subst. congruence.
Qed.

Lemma check_module_raised :
  forall ctx fuel module st m' s' msg l,
    check_module ctx fuel module st = (m', s', Raise (SemanticError msg l)) ->
    exists m0 l0 tail, diag s' = (diag st ++ (m0, l0) :: tail)%list.
Proof.
  intros ctx fuel module st m' s' msg l H.
  pose proof (check_module_flagged ctx fuel module st) as Hf.
  rewrite H in Hf. cbn [state fst snd] in Hf.
  destruct (check_module_semantic_error _ _ _ _ _ _ _ _ H)
    as [_ [_ [Hok _]]].
  destruct Hf as [Hf|[_ Hf]]; [|exact Hf].
  rewrite Hf in Hok. discriminate.
Qed.

(** X12: the pass returns only when nothing at all was reported: the
    diagnostics are then what they were before it. *)
Theorem pass_returns_quiet :
  forall ctx fuel modules st modules' s',
    check ctx fuel modules st = (modules', s', Done tt) ->
    diag s' = diag st.
Proof.
  intros ctx fuel modules. induction modules as [|m rest IH];
    intros st modules' s' H; cbn [check] in H.
  - now inversion H.
  - destruct (check_module ctx fuel m st) as [[m1 s1] [[]| |]] eqn:Hm;
      cbn [step] in H; try discriminate.
    destruct (check ctx fuel rest s1) as [[r s2] [[]| |]] eqn:Hr;
      cbn [step] in H; try discriminate.
    inversion H; subst.
    rewrite (IH _ _ _ Hr), (check_module_done _ _ _ _ _ _ Hm). reflexivity.
Qed.

Lemma pass_returns_quiet_witness :
  diag (state (check Example.ctx 2 [valid_module; valid_module] Example.st0))
  = diag Example.st0.
Proof.
  exact (pass_returns_quiet Example.ctx 2 [valid_module; valid_module]
           Example.st0 _ _ eq_refl).
Defined.

(** X13: when the pass raises a semantic error, it is the generic one,
    and at least one error was reported before, after the diagnostics the
    pass started with. *)
Theorem pass_raises_after_report :
  forall ctx fuel modules st modules' s' msg l,
    check ctx fuel modules st = (modules', s', Raise (SemanticError msg l)) ->
    msg = ErrorsOccurred /\ l = None
    /\ exists m0 l0 tail, diag s' = (diag st ++ (m0, l0) :: tail)%list.
Proof.
  intros ctx fuel modules. induction modules as [|m rest IH];
    intros st modules' s' msg l H; cbn [check] in H; [discriminate|].
  destruct (check_module ctx fuel m st) as [[m1 s1] [[]| |]] eqn:Hm;
    cbn [step] in H; try discriminate.
  - destruct (check ctx fuel rest s1) as [[r s2] [[]| |]] eqn:Hr;
      cbn [step] in H; try discriminate.
    inversion H; subst.
    destruct (IH _ _ _ _ _ Hr) as [Hmsg [Hl Hd]].
    rewrite (check_module_done _ _ _ _ _ _ Hm) in Hd. auto.
  - inversion H; subst.
    destruct (check_module_semantic_error _ _ _ _ _ _ _ _ Hm)
      as [Hmsg [Hl _]].
    repeat split; auto. eapply check_module_raised; eauto.
Qed.

Lemma pass_raises_after_report_witness :
  exists m0 l0 tail,
    diag (state (check Example.ctx 2 [valid_module; first_module]
                   Example.st0))
    = (diag Example.st0 ++ (m0, l0) :: tail)%list.
Proof.
  exact (proj2 (proj2 (pass_raises_after_report Example.ctx 2
                         [valid_module; first_module] Example.st0 _ _ _ _
                         eq_refl))).
Defined.

(** X14: an error in the declared types or the global variables of a
    module ends the check of the declarations only: the functions are all
    checked, from the state that holds the report, the report is in the
    diagnostics at the end, and the module then ends with the generic
    error. *)
Theorem bad_declaration_keeps_functions :
  forall ctx fuel module st msg l,
    (check_types ctx (types module) = Some (msg, l)
     \/ (check_types ctx (types module) = None
         /\ check_variables ctx (variables module)
            = Raise (SemanticError msg l))) ->
    let r := check_functions ctx fuel (functions module)
               (error msg l (mk_cstate true (diag st))) in
    check_module ctx fuel module st
    = (with_functions module (node r), state r,
       match result r with
       | Done _ => Raise (SemanticError ErrorsOccurred None)
       | Raise x => Raise x
       | OutOfFuel => OutOfFuel
       end)
    /\ In (msg, l) (diag (state r)).
Proof.
  intros ctx fuel module st msg l Hd r. subst r.
  assert (E : check_declarations ctx module (mk_cstate true (diag st))
              = (module, error msg l (mk_cstate true (diag st)), Done tt)).
  { unfold check_declarations.
    destruct Hd as [Ht|[Ht Hv]]; rewrite Ht; [|rewrite Hv]; reflexivity. }
  pose proof (check_functions_tracked flagged flagged_refl flagged_trans
                flagged_error ctx fuel (functions module)
                (error msg l (mk_cstate true (diag st)))) as Hf.
  apply flagged_keeps_invalid in Hf; [|reflexivity].
  destruct (check_functions_grows ctx fuel (functions module)
              (error msg l (mk_cstate true (diag st)))) as [tail Ht].
  split.
  - unfold check_module. cbv zeta. rewrite E. cbn [step].
    destruct (check_functions ctx fuel (functions module)
                (error msg l (mk_cstate true (diag st))))
      as [[fs s2] [[]| |]]; cbn [step node state result fst snd] in *;
      try reflexivity.
    rewrite Hf. reflexivity.
  - rewrite Ht. apply in_or_app. left. cbn. apply in_or_app. right.
    now left.
Qed.

Lemma bad_declaration_keeps_functions_witness :
  check_module Example.ctx 2 undeclared_global Example.st0
  = (mk_module "globals" [] [mk_var "g" (NamedType "MyStruct") false]
       [returns_x_checked],
     mk_cstate false [(FromContext "undefined type MyStruct", None)],
     Raise (SemanticError ErrorsOccurred None)).
Proof.
  exact (proj1 (bad_declaration_keeps_functions Example.ctx 2
                  undeclared_global Example.st0
                  (FromContext "undefined type MyStruct") None
                  (or_intror (conj eq_refl eq_refl)))).
Defined.

(** X15: an exception that is not a semantic error, raised in the check
    of a function, goes through the loops over the functions and over the
    modules: the pass raises it, nothing more is reported, and the functions
    and modules after that function are left unchecked. *)
Theorem internal_failure_ends_pass :
  forall ctx fuel pre module post st pre' sa sb fpre f fpost fpre' s1 f' s2 x,
    is_semantic x = false ->
    check ctx fuel pre st = (pre', sa, Done tt) ->
    check_declarations ctx module (mk_cstate true (diag sa))
      = (module, sb, Done tt) ->
    functions module = (fpre ++ f :: fpost)%list ->
    check_functions ctx fuel fpre sb = (fpre', s1, Done tt) ->
    check_function ctx fuel f s1 = (f', s2, Raise x) ->
    check ctx fuel (pre ++ module :: post) st
    = ((pre' ++ with_functions module (fpre' ++ f' :: fpost) :: post)%list,
       s2, Raise x).
Proof.
  intros ctx fuel pre module post st pre' sa sb fpre f fpost fpre' s1 f' s2 x
         Hx Hpre Hd Hfs Hfpre Hf.
  rewrite (check_app _ _ _ (module :: post) _ _ _ Hpre).
  cbn [check]. unfold check_module. cbv zeta. rewrite Hd. cbn [step].
  rewrite Hfs, (check_functions_app _ _ _ (f :: fpost) _ _ _ Hfpre).
  cbn [check_functions]. rewrite Hf.
  destruct x; try discriminate Hx; reflexivity.
Qed.

Lemma internal_failure_ends_pass_witness :
  result (check Example.ctx 4 [valid_module; asserting_module; valid_module]
            Example.st0) = Raise AssertionError
  /\ diag (state (check Example.ctx 4
                    [valid_module; asserting_module; valid_module]
                    Example.st0)) = [].
Proof.
  pose proof (internal_failure_ends_pass Example.ctx 4 [valid_module]
                asserting_module [valid_module] Example.st0 _ _ _
                [returns_x] asserting_function [returns_x] _ _ _ _
                AssertionError eq_refl eq_refl eq_refl eq_refl eq_refl
                eq_refl) as H.
  split; [exact (f_equal result H)|exact (f_equal (fun r => diag (state r)) H)].
Defined.

(** *** What the checker leaves of the tree *)

Lemma bare_with_ann :
  forall f e, (forall n, a_loc (f n) = a_loc n) -> bare (with_ann f e) = bare e.
Proof.
  intros f e Hf. destruct e; cbn [with_ann bare]; rewrite ?Hf; reflexivity.
Qed.

Lemma bare_assign_lvalue : forall e v, bare (assign_lvalue e v) = bare e.
Proof. intros e v. apply bare_with_ann. reflexivity. Qed.

Lemma bare_assign_typ : forall e t, bare (assign_typ e t) = bare e.
Proof. intros e t. apply bare_with_ann. reflexivity. Qed.

Section Bare.

Variable ctx : Context.
Variable rec_expr : expr -> bool -> cstate -> R expr unit.
Variable rec_cond : expr -> cstate -> R expr unit.

Hypothesis rec_expr_bare :
  forall e rv st, bare (node (rec_expr e rv st)) = bare e.
Hypothesis rec_cond_bare :
  forall e st, bare (node (rec_cond e st)) = bare e.

Lemma do_coerce_bare :
  forall e t st,
    bare (node (do_coerce ctx rec_expr e t st)) = bare e
    /\ (forall v, result (do_coerce ctx rec_expr e t st) = Done v ->
                  bare v = bare e).
Proof.
  intros e t st. destruct (typ e) as [have|] eqn:Ht.
  - rewrite (do_coerce_typed _ _ _ _ _ _ Ht).
    destruct (equal_types ctx have t).
    + pose proof (rec_expr_bare e false st) as H.
      destruct (rec_expr e false st) as [[e1 s1] [[]| |]];
        cbn [step node result fst snd] in *; split; auto; try discriminate.
      intros v Hv. now inversion Hv; subst.
    + destruct (coercible ctx have t);
        [|cbn [node result fst snd]; split; [reflexivity|discriminate]].
      pose proof (rec_expr_bare (TypeCast (new_ann (loc e)) t e) false st)
        as H. cbn [bare] in H.
      destruct (rec_expr (TypeCast (new_ann (loc e)) t e) false st)
        as [[c s1] [[]| |]]; cbn [node result fst snd] in *.
      all: split;
        [destruct c; cbn [cast_child bare] in *; auto
        |try discriminate].
      intros v Hv. now inversion Hv; subst.
  - unfold do_coerce. rewrite Ht. cbn. split; [reflexivity|discriminate].
Qed.

Lemma check_arguments_bare :
  forall args ptypes st,
    map bare (node (check_arguments ctx rec_expr args ptypes st))
      = map bare args
    /\ (forall vs,
          result (check_arguments ctx rec_expr args ptypes st) = Done vs ->
          List.length ptypes = List.length args ->
          map bare vs = map bare args).
Proof.
  induction args as [|a rest IH]; intros ptypes st; cbn [check_arguments].
  - cbn. split; [reflexivity|]. intros vs H _. now inversion H.
  - destruct ptypes as [|t ptypes].
    { cbn [node result fst snd]. split; [reflexivity|]. discriminate. }
    pose proof (rec_expr_bare a true st) as Ha.
    destruct (rec_expr a true st) as [[a1 s1] [[]| |]];
      cbn [step node result fst snd map] in *;
      try (split; [congruence|discriminate]).
    destruct (do_coerce_bare a1 t s1) as [Hn Hv].
    destruct (do_coerce ctx rec_expr a1 t s1) as [[a2 s2] [c| |]];
      cbn [step node result fst snd map] in *;
      try (split; [congruence|discriminate]).
    specialize (Hv c eq_refl).
    destruct (IH ptypes s2) as [Hr Hvs].
    destruct (check_arguments ctx rec_expr rest ptypes s2)
      as [[r s3] [cs| |]];
      cbn [step node result fst snd map] in *;
      try (split; [congruence|discriminate]).
    split; [congruence|]. intros vs H Hlen. inversion H; subst.
    cbn [map List.length] in *. rewrite (Hvs cs eq_refl) by lia. congruence.
Qed.

Ltac bare_call :=
  match goal with
  | |- context [attr ?o _ _ _] => destruct o; cbn [attr]
  | |- context [if ?b then _ else _] => destruct b
  | |- context [match ?x with _ => _ end] => destruct x
  | |- context [step (rec_expr ?a ?rv ?s) _ _] =>
      let H := fresh "H" in
      pose proof (rec_expr_bare a rv s) as H;
      destruct (rec_expr a rv s) as [[? ?] [[]| |]];
      cbn [step node result fst snd] in *
  | |- context [step (rec_cond ?a ?s) _ _] =>
      let H := fresh "H" in
      pose proof (rec_cond_bare a s) as H;
      destruct (rec_cond a s) as [[? ?] [[]| |]];
      cbn [step node result fst snd] in *
  | |- context [step (do_coerce ctx rec_expr ?a ?t ?s) _ _] =>
      let H := fresh "H" in
      let Hv := fresh "Hv" in
      destruct (do_coerce_bare a t s) as [H Hv];
      destruct (do_coerce ctx rec_expr a t s) as [[? ?] [?| |]];
      cbn [step node result fst snd] in *;
      try specialize (Hv _ eq_refl)
  end.

Ltac bare_done :=
  cbn [node fst bare set_typ set_lvalue a_loc new_ann];
  rewrite ?bare_assign_typ, ?bare_assign_lvalue;
  cbn [bare set_typ set_lvalue a_loc new_ann];
  congruence.

Lemma check_function_call_bare :
  forall n proc args st,
    bare (node (check_function_call ctx rec_expr n proc args st))
    = bare (FunctionCall n proc args).
Proof.
  intros n proc args st. unfold check_function_call.
  destruct (resolve_symbol ctx proc) as [[t|t|package name ptypes ret|nm|rp]
                                        |[m l]]; try reflexivity.
  destruct (Nat.eqb (List.length args) (List.length ptypes)) eqn:Hlen;
    cbn [negb]; [|reflexivity].
  apply Nat.eqb_eq in Hlen.
  destruct (check_arguments_bare args ptypes st) as [Hn Hv].
  destruct (check_arguments ctx rec_expr args ptypes st)
    as [[args1 s1] [new_args| |]]; cbn [step node result fst snd] in *;
    try (cbn [bare]; congruence).
  specialize (Hv new_args eq_refl (eq_sym Hlen)).
  destruct (negb _); cbn [node fst bare set_typ set_lvalue a_loc]; congruence.
Qed.

Lemma check_expr_body_bare :
  forall e rv st,
    bare (node (check_expr_body ctx rec_expr rec_cond e rv st)) = bare e.
Proof.
  intros e rv st. unfold check_expr_body.
  assert (H : bare (node (check_expr_kind ctx rec_expr rec_cond e st))
              = bare e).
  { unfold check_expr_kind. destruct (is_bool e).
    - unfold check_bool_expr. bare_call; bare_done.
    - destruct e; try apply check_function_call_bare;
        unfold check_binop, check_unop, check_identifier,
        check_dereference, check_member_expr, check_index_expr,
        check_literal_expr, check_type_cast, check_sizeof, check_type;
        cbv zeta; repeat bare_call; bare_done. }
  destruct (check_expr_kind ctx rec_expr rec_cond e st)
    as [[e1 s1] [[]| |]]; cbn [step node fst] in *; try assumption.
  unfold make_rvalue. repeat bare_call; bare_done.
Qed.

Lemma check_condition_body_bare :
  forall e st,
    bare (node (check_condition_body ctx rec_expr rec_cond e st)) = bare e.
Proof.
  intros e st. unfold check_condition_body.
  assert (H : bare (node (check_condition_kind ctx rec_expr rec_cond e st))
              = bare e).
  { unfold check_condition_kind.
    destruct e; try apply rec_expr_bare; cbv zeta;
      repeat first [progress cbn [step] | bare_call];
      try solve [bare_done]; apply rec_expr_bare. }
  destruct (check_condition_kind ctx rec_expr rec_cond e st)
    as [[e1 s1] [[]| |]]; cbn [step node fst] in *; try assumption.
  repeat bare_call; bare_done.
Qed.

End Bare.

(** X16: checking an expression, as a value or as a condition, changes
    nothing of it but the two attributes of its nodes and the casts around
    them: without them the tree is what it was, whether the check returns or
    raises. *)
Theorem check_expr_bare :
  forall ctx fuel,
    (forall e rv st, bare (node (check_expr ctx fuel e rv st)) = bare e)
    /\ (forall e st, bare (node (check_condition ctx fuel e st)) = bare e).
Proof.
  intros ctx fuel. induction fuel as [|n [IHe IHc]].
  - split; reflexivity.
  - split; intros; cbn [check_expr check_condition].
    + now apply check_expr_body_bare.
    + now apply check_condition_body_bare.
Qed.

Lemma catch_node : forall {N} (r : R N unit), node (catch r) = node r.
Proof. intros N [[n s] [[]|[m l| | |]|]]; reflexivity. Qed.

Section BareStatements.

Variable ctx : Context.
Variable fuel : nat.

Lemma check_statements_bare :
  forall ss,
    Forall (stmt_bare ctx fuel) ss ->
    forall st,
      map bare_stmt (node (check_statements (check_stmt ctx fuel) ss st))
      = map bare_stmt ss.
Proof.
  induction 1 as [|x r Hx Hr IH]; intros st; cbn [check_statements].
  - reflexivity.
  - pose proof (Hx st) as H1.
    destruct (check_stmt ctx fuel x st) as [[x1 s1] [[]| |]];
      cbn [step node fst map] in *; try congruence.
    pose proof (IH s1) as H2.
    destruct (check_statements (check_stmt ctx fuel) r s1)
      as [[r1 s2] [[]| |]]; cbn [step node fst map] in *; congruence.
Qed.

Lemma check_options_bare :
  forall options,
    Forall (fun o : option expr * stmt => stmt_bare ctx fuel (snd o))
           options ->
    forall d st,
      map (fun o : option expr * stmt =>
             (option_map bare (fst o), bare_stmt (snd o)))
          (node (check_options ctx fuel (check_stmt ctx fuel) options d st))
      = map (fun o : option expr * stmt =>
               (option_map bare (fst o), bare_stmt (snd o))) options.
Proof.
  induction 1 as [|[v c] r Hx Hr IH]; intros d st; cbn [check_options].
  - reflexivity.
  - cbn [snd] in Hx. pose proof (Hx st) as H1.
    destruct (check_stmt ctx fuel c st) as [[c1 s1] [[]| |]];
      cbn [step node fst map snd option_map] in *; try congruence.
    destruct v as [v|].
    + pose proof (proj1 (check_expr_bare ctx fuel) v false s1) as H2.
      destruct (check_expr ctx fuel v false s1) as [[v1 s2] [[]| |]];
        cbn [step node fst map snd option_map] in *; try congruence.
      pose proof (IH d s2) as H3.
      destruct (check_options ctx fuel (check_stmt ctx fuel) r d s2)
        as [[r1 s3] [d1| |]];
        cbn [step node fst map snd option_map] in *; congruence.
    + pose proof (IH true s1) as H3.
      destruct (check_options ctx fuel (check_stmt ctx fuel) r true s1)
        as [[r1 s3] [d1| |]];
        cbn [step node fst map snd option_map] in *; congruence.
Qed.

Ltac bare_stmt_call :=
  match goal with
  | |- context [attr ?o _ _ _] => destruct o; cbn [attr]
  | |- context [if ?b then _ else _] => destruct b
  | |- context [step (check_expr ctx fuel ?a ?rv ?s) _ _] =>
      let H := fresh "H" in
      pose proof (proj1 (check_expr_bare ctx fuel) a rv s) as H;
      destruct (check_expr ctx fuel a rv s) as [[? ?] [[]| |]];
      cbn [step node fst] in *
  | |- context [step (check_condition ctx fuel ?a ?s) _ _] =>
      let H := fresh "H" in
      pose proof (proj2 (check_expr_bare ctx fuel) a s) as H;
      destruct (check_condition ctx fuel a s) as [[? ?] [[]| |]];
      cbn [step node fst] in *
  | |- context [step (do_coerce ctx (check_expr ctx fuel) ?a ?t ?s) _ _] =>
      let H := fresh "H" in
      let Hv := fresh "Hv" in
      destruct (do_coerce_bare ctx (check_expr ctx fuel)
                  (proj1 (check_expr_bare ctx fuel)) a t s) as [H Hv];
      destruct (do_coerce ctx (check_expr ctx fuel) a t s)
        as [[? ?] [?| |]];
      cbn [step node result fst snd] in *;
      try specialize (Hv _ eq_refl)
  | Hc : stmt_bare ctx fuel ?c
    |- context [step (check_stmt ctx fuel ?c ?s) _ _] =>
      let H := fresh "H" in
      pose proof (Hc s) as H;
      destruct (check_stmt ctx fuel c s) as [[? ?] [[]| |]];
      cbn [step node fst] in *
  end.

Ltac bare_stmt_done :=
  cbn [node fst bare_stmt option_map]; congruence.

Lemma check_stmt_bare : forall code, stmt_bare ctx fuel code.
Proof.
  induction code using stmt_induction; intros st;
    cbn [check_stmt]; rewrite catch_node; cbn [check_stmt_kind].
  - pose proof (check_statements_bare ss H st) as H1.
    destruct (check_statements (check_stmt ctx fuel) ss st)
      as [[r1 s1] [[]| |]]; cbn [step node fst bare_stmt] in *; congruence.
  - reflexivity.
  - unfold check_assignment_stmt. repeat bare_stmt_call; bare_stmt_done.
  - unfold check_expression_stmt. destruct e; try reflexivity.
    pose proof (check_function_call_bare ctx (check_expr ctx fuel)
                  (proj1 (check_expr_bare ctx fuel)) n e args st) as H1.
    destruct (check_function_call ctx (check_expr ctx fuel) n e args st)
      as [[e1 s1] [[]| |]]; cbn [step node fst] in *;
      repeat bare_stmt_call; bare_stmt_done.
  - unfold check_if_stmt. repeat bare_stmt_call; bare_stmt_done.
  - unfold check_return_stmt. destruct e as [e|]; [|reflexivity].
    repeat bare_stmt_call; bare_stmt_done.
  - unfold check_while. repeat bare_stmt_call; bare_stmt_done.
  - unfold check_for_stmt. repeat bare_stmt_call; bare_stmt_done.
  - unfold check_switch_stmt.
    pose proof (proj1 (check_expr_bare ctx fuel) e true st) as H1.
    destruct (check_expr ctx fuel e true st) as [[e1 s1] [[]| |]];
      cbn [step node fst] in *; try bare_stmt_done.
    destruct (typ e1); cbn [attr]; [|bare_stmt_done].
    destruct (negb _); [bare_stmt_done|].
    pose proof (check_options_bare options H false s1) as H2.
    destruct (check_options ctx fuel (check_stmt ctx fuel) options false s1)
      as [[o1 s2] [d| |]]; cbn [step node fst] in *;
      try destruct (negb d); bare_stmt_done.
Qed.

Lemma check_function_bare :
  forall function st,
    bare_function (node (check_function ctx fuel function st))
    = bare_function function.
Proof.
  intros function st. unfold check_function.
  destruct (check_parameters ctx (f_loc function) (parameters function))
    as [[msg l]|]; [reflexivity|].
  destruct (negb _); [reflexivity|].
  destruct (check_types ctx (map v_typ (inner_scope function)))
    as [[msg l]|]; [reflexivity|].
  destruct (body function) as [code|] eqn:Hb; [|reflexivity].
  pose proof (check_stmt_bare code st) as H.
  unfold bare_function at 2. rewrite Hb. cbn [option_map].
  destruct (check_stmt ctx fuel code st) as [[c s1] [[]| |]];
    cbn [step node fst] in *; unfold bare_function;
    cbn [f_name f_loc parameters returntype inner_scope body option_map];
    congruence.
Qed.

Lemma check_functions_bare :
  forall funcs st,
    map bare_function (node (check_functions ctx fuel funcs st))
    = map bare_function funcs.
Proof.
  induction funcs as [|f rest IH]; intros st; cbn [check_functions].
  - reflexivity.
  - pose proof (check_function_bare f st) as H1.
    rewrite <- (catch_node (check_function ctx fuel f st)) in H1.
    destruct (catch (check_function ctx fuel f st)) as [[f1 s1] [[]| |]];
      cbn [step node fst map] in *; try congruence.
    pose proof (IH s1) as H2.
    destruct (check_functions ctx fuel rest s1) as [[r1 s2] [[]| |]];
      cbn [step node fst map] in *; congruence.
Qed.

Lemma check_module_bare :
  forall module st,
    bare_module (node (check_module ctx fuel module st)) = bare_module module.
Proof.
  intros module st. unfold check_module. cbv zeta.
  assert (Hd : node (check_declarations ctx module
                       (mk_cstate true (diag st))) = module).
  { unfold check_declarations. rewrite catch_node.
    destruct (check_types ctx (types module)) as [[m l]|]; reflexivity. }
  destruct (check_declarations ctx module (mk_cstate true (diag st)))
    as [[m1 s1] [[]| |]]; cbn [step node fst] in *; try congruence.
  pose proof (check_functions_bare (functions module) s1) as H2.
  destruct (check_functions ctx fuel (functions module) s1)
    as [[fs s2] [[]| |]]; cbn [step node fst] in *;
    try destruct (negb _); cbn [node fst];
    unfold bare_module, with_functions;
    cbn [m_name types variables functions]; congruence.
Qed.

End BareStatements.

(** X17: the pass changes nothing of the modules but the two attributes
    of the expression nodes and the casts around them: declarations,
    signatures, statements and the expressions without attributes and casts
    are what they were, whether the pass returns or raises. *)
Theorem check_bare :
  forall ctx fuel modules st,
    map bare_module (node (check ctx fuel modules st))
    = map bare_module modules.
Proof.
  intros ctx fuel modules. induction modules as [|m rest IH]; intros st;
    cbn [check].
  - reflexivity.
  - pose proof (check_module_bare ctx fuel m st) as H1.
    destruct (check_module ctx fuel m st) as [[m1 s1] [[]| |]];
      cbn [step node fst map] in *; try congruence.
    pose proof (IH s1) as H2.
    destruct (check ctx fuel rest s1) as [[r1 s2] [[]| |]];
      cbn [step node fst map] in *; congruence.
Qed.

(** *** The pass ends, and keeps what it reported *)

(** X1: the check of an expression ends, as a value and as a condition,
    though [do_coerce] checks again what was checked: from some depth of
    calls on, [check_expr] and [check_condition] give one result, a return
    or an exception. *)
Theorem expression_check_ends :
  forall ctx e st,
    (forall rv,
       exists n,
         result (check_expr ctx n e rv st) <> OutOfFuel
         /\ forall m, n <= m ->
                      check_expr ctx m e rv st = check_expr ctx n e rv st)
    /\ (exists n,
         result (check_condition ctx n e st) <> OutOfFuel
         /\ forall m, n <= m ->
                      check_condition ctx m e st = check_condition ctx n e st).
Proof.
  intros ctx e st. split.
  - intros rv. exact (check_expr_settles ctx e rv st).
  - exact (check_condition_settles ctx e st).
Qed.

(** X2: the pass ends: for every context, list of modules and state,
    from some depth of calls on [check] gives one result, a return or an
    exception. *)
Theorem pass_ends :
  forall ctx modules st,
    exists n,
      result (check ctx n modules st) <> OutOfFuel
      /\ forall m, n <= m -> check ctx m modules st = check ctx n modules st.
Proof. intros ctx modules st. exact (check_settles ctx modules st). Qed.

(** X3: the pass never takes back a report: the diagnostics at its end
    are those it started with, followed by what it reported, whether it
    returns or raises. *)
Theorem reports_are_kept :
  forall ctx fuel modules st,
    exists reported,
      diag (state (check ctx fuel modules st)) = (diag st ++ reported)%list.
Proof. intros ctx fuel modules st. exact (check_grows ctx fuel modules st). Qed.

Lemma check_stmt_not_semantic :
  forall ctx fuel code st m l,
    result (check_stmt ctx fuel code st) <> Raise (SemanticError m l).
Proof.
  intros ctx fuel code st m l.
  assert (Hs : check_stmt ctx fuel code st
               = catch (check_stmt_kind ctx fuel (check_stmt ctx fuel)
                          code st))
    by (destruct code; reflexivity).
  rewrite Hs. apply catch_not_semantic.
Qed.

(** X4: a condition that checks and is not boolean is reported, not
    raised: the loop it guards has its body checked all the same, from the
    state that holds the report. *)
Theorem non_boolean_condition_goes_on :
  forall ctx fuel l c body st c1 s1 t,
    kind_of c <> KBinop -> kind_of c <> KLiteral -> is_bool c = false ->
    check_expr ctx fuel c true st = (c1, s1, Done tt) ->
    typ c1 = Some t ->
    equal_types ctx t (NamedType "bool") = false ->
    let r := check_stmt ctx (S fuel) body
               (error ConditionMustBeBoolean (Some (loc c1)) s1) in
    check_stmt ctx (S fuel) (While l c body) st
    = (While l c1 (node r), state r, result r).
Proof.
  intros ctx fuel l c body st c1 s1 t Hk1 Hk2 Hb Hc Ht He r. subst r.
  assert (E : check_condition ctx (S fuel) c st
              = (c1, error ConditionMustBeBoolean (Some (loc c1)) s1,
                 Done tt)).
  { cbn [check_condition]. unfold check_condition_body.
    assert (Ek : check_condition_kind ctx (check_expr ctx fuel)
                   (check_condition ctx fuel) c st = (c1, s1, Done tt)).
    { unfold check_condition_kind.
      destruct c; try exact Hc; try (now contradiction Hk1);
        try (now contradiction Hk2).
      cbn [is_bool] in Hb. rewrite in_list_not in Hb. rewrite Hb. exact Hc. }
    rewrite Ek. cbn [step]. rewrite Ht. cbn [attr]. rewrite He.
    reflexivity. }
  cbn [check_stmt check_stmt_kind]. unfold check_while. rewrite E.
  cbn [step].
  pose proof (check_stmt_not_semantic ctx (S fuel) body
                (error ConditionMustBeBoolean (Some (loc c1)) s1)) as Hn.
  destruct (check_stmt ctx (S fuel) body
              (error ConditionMustBeBoolean (Some (loc c1)) s1))
    as [[b1 s2] [[]|[m0 l0| | |]|]]; cbn [step catch node state result fst snd];
    try reflexivity.
  exfalso. apply (Hn m0 l0). reflexivity.
Qed.

Lemma non_boolean_condition_goes_on_witness :
  check_stmt Example.ctx 2
    (While 0 (Example.ident 1 "x")
       (Assignment 2 (Example.ident 3 "y") (Example.int_lit 4 1)))
    Example.st0
  = (While 0 (Identifier (mk_ann 1 (Some (BaseType "int")) (Some false)) "x")
       (Assignment 2
          (Identifier (mk_ann 3 (Some (BaseType "int")) (Some true)) "y")
          (Literal (mk_ann 4 (Some (BaseType "int")) (Some false)) (VInt 1))),
     mk_cstate false [(ConditionMustBeBoolean, Some 1)], Done tt).
Proof.
  refine (non_boolean_condition_goes_on Example.ctx 1 0 (Example.ident 1 "x")
            (Assignment 2 (Example.ident 3 "y") (Example.int_lit 4 1))
            Example.st0 _ Example.st0 (BaseType "int")
            _ _ eq_refl eq_refl eq_refl eq_refl); discriminate.
Defined.
